(** * Kaltura api-scripts: a shallow embedding of the three command-line tools

    The repository holds three independent Python scripts:
    - [download-entries.py]          (module [Downloader]),
    - [report-count-duration.py]     (module [Reporter]),
    - [unpublish-republish-entry.py] (module [Republish]).

    Definitions come first.  Each script has a module whose definitions carry
    the names of the Python functions they embed; the library functions the
    scripts call ([datetime.date], [re.sub], [os.path.splitext], [round],
    [sum], ...) are modelled in [Calendar], [Text], [Regex] and [PyFloat].
    A remote platform is a record of functions over a state of its own, and
    so is the local file system; a run threads a world through the script:
    the platform's state, the disk, and the trace of calls, sleeps and
    printed lines.
    [Examples] and [MoreExamples] hold a few concrete platforms.  What the
    scripts do before their loops (the configuration of the Republish
    script, [main] of the Downloader) is in [RepublishScript] and
    [DownloaderScript].  The theorems follow, script by script. *)

From stdpp Require Import gmap strings list pretty.
From Stdlib Require Import ZArith Lia Ascii Floats.

Local Open Scope Z_scope.

(** ** Python exceptions and results *)

Inductive exn : Type :=
| ValueError
| OverflowError
| IndexError
| KeyError
| TypeError
| EOFError
| KalturaException (code : string)
| RequestException
| OtherException.            (* any other exception, [OSError] among them *)

Inductive result (A : Type) : Type :=
| Ok (a : A)
| Raise (e : exn).
Arguments Ok {A} a.
Arguments Raise {A} e.

(** Sequencing of computations that may raise *)
Definition bind_result {A B} (r : result A) (k : A -> result B) : result B :=
  match r with Ok a => k a | Raise e => Raise e end.

(** ** [datetime.date]: the proleptic Gregorian calendar of the Python library *)

Module Calendar.

Definition MINYEAR : Z := 1.
Definition MAXYEAR : Z := 9999.
(** [date.max.toordinal()] *)
Definition MAXORDINAL : Z := 3652059.

Record date : Type := mkdate { year : Z; month : Z; day : Z }.

(** [_is_leap]: [year % 4 == 0 and (year % 100 != 0 or year % 400 == 0)] *)
Definition is_leap (y : Z) : bool :=
  (y mod 4 =? 0) && (negb (y mod 100 =? 0) || (y mod 400 =? 0)).

Definition b2z (b : bool) : Z := if b then 1 else 0.

(** [_DAYS_IN_MONTH] *)
Definition DAYS_IN_MONTH (m : Z) : Z :=
  match m with
  | 1 => 31 | 2 => 28 | 3 => 31 | 4 => 30 | 5 => 31 | 6 => 30
  | 7 => 31 | 8 => 31 | 9 => 30 | 10 => 31 | 11 => 30 | 12 => 31
  | _ => 0
  end.

(** [_DAYS_BEFORE_MONTH] *)
Definition DAYS_BEFORE_MONTH (m : Z) : Z :=
  match m with
  | 1 => 0 | 2 => 31 | 3 => 59 | 4 => 90 | 5 => 120 | 6 => 151
  | 7 => 181 | 8 => 212 | 9 => 243 | 10 => 273 | 11 => 304 | 12 => 334
  | _ => 0
  end.

(** [_days_before_year]; Python's [//] is floor division, as [Z.div]. *)
Definition days_before_year (y : Z) : Z :=
  let y' := y - 1 in
  y' * 365 + y' / 4 - y' / 100 + y' / 400.

(** [_days_in_month] *)
Definition days_in_month (y m : Z) : Z :=
  if (m =? 2) && is_leap y then 29 else DAYS_IN_MONTH m.

(** [_days_before_month] *)
Definition days_before_month (y m : Z) : Z :=
  DAYS_BEFORE_MONTH m + b2z ((2 <? m) && is_leap y).

(** [_ymd2ord] *)
Definition ymd2ord (y m d : Z) : Z :=
  days_before_year y + days_before_month y m + d.

Definition DI400Y : Z := 146097.
Definition DI100Y : Z := 36524.
Definition DI4Y : Z := 1461.

(** [_ord2ymd], line by line *)
Definition ord2ymd (n : Z) : date :=
  let n := n - 1 in
  let n400 := n / DI400Y in
  let n := n mod DI400Y in
  let y := n400 * 400 + 1 in
  let n100 := n / DI100Y in
  let n := n mod DI100Y in
  let n4 := n / DI4Y in
  let n := n mod DI4Y in
  let n1 := n / 365 in
  let n := n mod 365 in
  let y := y + n100 * 100 + n4 * 4 + n1 in
  if (n1 =? 4) || (n100 =? 4) then mkdate (y - 1) 12 31
  else
    let leapyear := (n1 =? 3) && (negb (n4 =? 24) || (n100 =? 3)) in
    let m := Z.shiftr (n + 50) 5 in
    let preceding := DAYS_BEFORE_MONTH m + b2z ((2 <? m) && leapyear) in
    if n <? preceding then
      let m := m - 1 in
      let preceding :=
        preceding - (DAYS_IN_MONTH m + b2z ((m =? 2) && leapyear)) in
      mkdate y m (n - preceding + 1)
    else mkdate y m (n - preceding + 1).

(** [_check_date_fields]: the constructor's range checks *)
Definition check_date_fields (y m d : Z) : bool :=
  (MINYEAR <=? y) && (y <=? MAXYEAR) &&
  (1 <=? m) && (m <=? 12) &&
  (1 <=? d) && (d <=? days_in_month y m).

(** [date(year, month, day)] *)
Definition new_date (y m d : Z) : result date :=
  if check_date_fields y m d then Ok (mkdate y m d) else Raise ValueError.

Definition date_valid (d : date) : bool :=
  check_date_fields (year d) (month d) (day d).

(** [date.replace(year=None, month=None, day=None)] *)
Definition replace (d : date) (y m dd : option Z) : result date :=
  new_date (default (year d) y) (default (month d) m) (default (day d) dd).

Definition toordinal (d : date) : Z := ymd2ord (year d) (month d) (day d).
Definition fromordinal (n : Z) : date := ord2ymd n.

(** [date.__add__(timedelta(days=k))] *)
Definition add_days (d : date) (k : Z) : result date :=
  let o := toordinal d + k in
  if (0 <? o) && (o <=? MAXORDINAL) then Ok (fromordinal o)
  else Raise OverflowError.

(** [date.__sub__(timedelta(days=k))] is [self + timedelta(-k)] *)
Definition sub_days (d : date) (k : Z) : result date := add_days d (- k).

(** [date._cmp]: the comparison of the tuples (year, month, day) *)
Definition cmp (a b : date) : comparison :=
  match year a ?= year b with
  | Eq => match month a ?= month b with
          | Eq => day a ?= day b
          | c => c
          end
  | c => c
  end.

Definition date_le (a b : date) : bool :=
  match cmp a b with Gt => false | _ => true end.
Definition date_lt (a b : date) : bool :=
  match cmp a b with Lt => true | _ => false end.

(** The builtin [min(a, b)] keeps [a] unless [b < a]. *)
Definition date_min (a b : date) : date := if date_lt b a then b else a.

End Calendar.

(** ** Python strings and [os.path] (POSIX flavour)

    A string is a sequence of code points below 256. *)

Module Text.

Definition code (c : ascii) : Z := Z.of_N (Ascii.N_of_ascii c).

(** [str.isspace] on one character; the class [\s] of [re] is the same. *)
Definition is_space (c : ascii) : bool :=
  let n := code c in
  ((9 <=? n) && (n <=? 13)) || ((28 <=? n) && (n <=? 32)) ||
  (n =? 133) || (n =? 160).

Definition is_char (x c : ascii) : bool := Ascii.eqb x c.

Fixpoint drop (n : nat) (s : string) : string :=
  match n, s with
  | O, _ => s
  | S n', String _ s' => drop n' s'
  | S _, EmptyString => EmptyString
  end.

Fixpoint take (n : nat) (s : string) : string :=
  match n, s with
  | O, _ => EmptyString
  | S n', String c s' => String c (take n' s')
  | S _, EmptyString => EmptyString
  end.

(** [s.lstrip(chars)] and [s.rstrip(chars)], for a set of characters *)
Fixpoint lstrip (f : ascii -> bool) (s : string) : string :=
  match s with
  | String c s' => if f c then lstrip f s' else s
  | EmptyString => EmptyString
  end.

Fixpoint rstrip (f : ascii -> bool) (s : string) : string :=
  match s with
  | String c s' =>
      match rstrip f s' with
      | EmptyString => if f c then EmptyString else String c EmptyString
      | r => String c r
      end
  | EmptyString => EmptyString
  end.

(** [s.strip(chars)]; [s.strip()] is [strip is_space s]. *)
Definition strip (f : ascii -> bool) (s : string) : string :=
  rstrip f (lstrip f s).

(** [s.startswith(prefix)] *)
Fixpoint startswith (s prefix : string) {struct prefix} : bool :=
  match prefix with
  | EmptyString => true
  | String p prefix' =>
      match s with
      | String c s' => Ascii.eqb c p && startswith s' prefix'
      | EmptyString => false
      end
  end.

(** [needle in s] *)
Fixpoint contains (needle s : string) : bool :=
  startswith s needle ||
  match s with
  | String _ s' => contains needle s'
  | EmptyString => false
  end.

(** [s.endswith(suffix)] *)
Definition endswith (s suffix : string) : bool :=
  (String.length suffix <=? String.length s)%nat &&
  String.eqb (drop (String.length s - String.length suffix) s) suffix.

Definition first_char (s : string) : option ascii :=
  match s with String c _ => Some c | EmptyString => None end.

Fixpoint last_char (s : string) : option ascii :=
  match s with
  | String c EmptyString => Some c
  | String _ s' => last_char s'
  | EmptyString => None
  end.

(** [s.split(sep)] for a non-empty separator.  [skip] counts the characters
    of a separator found earlier that are still to be passed over, [piece]
    is the part collected since the last separator. *)
Fixpoint split_from (sep s : string) (skip : nat) (piece : string)
    : list string :=
  match skip with
  | S k =>
      match s with
      | String _ s' => split_from sep s' k piece
      | EmptyString => [piece]
      end
  | O =>
      match s with
      | String c s' =>
          if startswith s sep
          then piece :: split_from sep s' (String.length sep - 1) EmptyString
          else split_from sep s' 0 (piece +:+ String c EmptyString)
      | EmptyString => [piece]
      end
  end.

Definition split (s sep : string) : list string := split_from sep s 0 EmptyString.

(** [s.replace(old, new)] for a single character [old] *)
Fixpoint replace_char (old : ascii) (new : string) (s : string) : string :=
  match s with
  | String c s' =>
      (if Ascii.eqb c old then new else String c EmptyString)
      +:+ replace_char old new s'
  | EmptyString => EmptyString
  end.

(** [s.rfind(c)] for a single character: the last index, or -1 *)
Fixpoint rfind (c : ascii) (s : string) : Z :=
  match s with
  | String x s' =>
      let r := rfind c s' in
      if 0 <=? r then r + 1 else if Ascii.eqb x c then 0 else -1
  | EmptyString => -1
  end.

(** [s[i:j]] for indices within the string *)
Definition slice (s : string) (i j : Z) : string :=
  take (Z.to_nat (j - i)) (drop (Z.to_nat i) s).

(** [posixpath.basename] *)
Definition basename (p : string) : string :=
  drop (Z.to_nat (rfind "/"%char p + 1)) p.

(** The loop of [genericpath._splitext] that skips leading dots: is some
    character of [p[filenameIndex:dotIndex]] not a dot? *)
Fixpoint some_not_dot (s : string) (n : nat) : bool :=
  match n, s with
  | S n', String c s' => negb (Ascii.eqb c "."%char) || some_not_dot s' n'
  | _, _ => false
  end.

(** [posixpath.splitext] *)
Definition splitext (p : string) : string * string :=
  let sepIndex := rfind "/"%char p in
  let dotIndex := rfind "."%char p in
  if sepIndex <? dotIndex then
    let filenameIndex := sepIndex + 1 in
    if some_not_dot (drop (Z.to_nat filenameIndex) p)
                    (Z.to_nat (dotIndex - filenameIndex))
    then (take (Z.to_nat dotIndex) p, drop (Z.to_nat dotIndex) p)
    else (p, EmptyString)
  else (p, EmptyString).

(** [posixpath.join(a, b)] *)
Definition join (a b : string) : string :=
  if startswith b "/" then b
  else if String.eqb a "" || endswith a "/" then a +:+ b
  else a +:+ "/" +:+ b.

(** [str(n)] for an integer *)
Definition str_of_int (n : Z) : string := pretty n.

End Text.

(** ** Regular expressions: the fragment of [re] the scripts use

    A pattern is a sequence of literal characters, greedy repetitions of a
    character class, and the anchor [$].  Matching backtracks the way [re]
    does: a repetition first takes the longest run and gives characters back
    one at a time. *)

Module Regex.
Import Text.

Inductive atom : Type :=
| Lit (c : ascii)
| Star (cls : ascii -> bool)
| Plus (cls : ascii -> bool)
| EndAnchor.

Definition pattern : Type := list atom.

Fixpoint lits (s : string) : pattern :=
  match s with
  | String c s' => Lit c :: lits s'
  | EmptyString => []
  end.

(** The length of the longest prefix of [s] inside the class *)
Fixpoint span (cls : ascii -> bool) (s : string) : nat :=
  match s with
  | String c s' => if cls c then S (span cls s') else O
  | EmptyString => O
  end.

(** [$] without MULTILINE: at the end, or before a final newline *)
Definition at_end (s : string) : bool :=
  match s with
  | EmptyString => true
  | String c EmptyString => Ascii.eqb c "010"%char
  | _ => false
  end.

(** Give the repetition [n] characters, then [n - 1], ... down to [lo],
    until the rest of the pattern [k] matches. *)
Fixpoint try_counts (k : string -> option nat) (s : string) (n lo : nat)
    : option nat :=
  if (n <? lo)%nat then None
  else
    match k (drop n s) with
    | Some r => Some (n + r)%nat
    | None =>
        match n with
        | O => None
        | S n' => try_counts k s n' lo
        end
    end.

(** The number of characters a match starting at the head of [s] takes *)
Fixpoint match_here (p : pattern) (s : string) : option nat :=
  match p with
  | [] => Some O
  | Lit c :: p' =>
      match s with
      | String x s' =>
          if Ascii.eqb x c then S <$> match_here p' s' else None
      | EmptyString => None
      end
  | Star cls :: p' => try_counts (match_here p') s (span cls s) 0
  | Plus cls :: p' => try_counts (match_here p') s (span cls s) 1
  | EndAnchor :: p' => if at_end s then match_here p' s else None
  end.

(** [re.sub(p, repl, s)] for a replacement without group references: scan
    from the left, replace each match, go on after it.  [skip] counts the
    characters of the last match still to be passed over. *)
Fixpoint sub_from (p : pattern) (repl s : string) (skip : nat) : string :=
  match skip with
  | S k =>
      match s with
      | String _ s' => sub_from p repl s' k
      | EmptyString => EmptyString
      end
  | O =>
      match match_here p s with
      | Some (S n) =>
          repl +:+ match s with
                   | String _ s' => sub_from p repl s' n
                   | EmptyString => EmptyString
                   end
      | Some O =>
          repl +:+ match s with
                   | String c s' => String c (sub_from p repl s' 0)
                   | EmptyString => EmptyString
                   end
      | None =>
          match s with
          | String c s' => String c (sub_from p repl s' 0)
          | EmptyString => EmptyString
          end
      end
  end.

Definition sub (p : pattern) (repl s : string) : string := sub_from p repl s 0.

End Regex.

(** ** How a run of a script ends *)

Inductive outcome (A : Type) : Type :=
| Return (a : A)            (* the function returned [a] *)
| Uncaught (e : exn)        (* an exception left the function *)
| Exit (status : Z)         (* [exit(status)] was called *)
| OutOfFuel.                (* a [while True] loop of the model ran out of steps *)
Arguments Return {A} a.
Arguments Uncaught {A} e.
Arguments Exit {A} status.
Arguments OutOfFuel {A}.

(** A computation over a world [W]: it may return, let an exception escape,
    exit the process, or (in the model only) run out of loop steps. *)
Definition M (W A : Type) : Type := W -> outcome A * W.

Definition ret {W A} (a : A) : M W A := fun w => (Return a, w).

Definition bind {W A B} (m : M W A) (k : A -> M W B) : M W B :=
  fun w =>
    match m w with
    | (Return a, w') => k a w'
    | (Uncaught e, w') => (Uncaught e, w')
    | (Exit n, w') => (Exit n, w')
    | (OutOfFuel, w') => (OutOfFuel, w')
    end.

Definition raise {W A} (e : exn) : M W A := fun w => (Uncaught e, w).
Definition exit {W A} (status : Z) : M W A := fun w => (Exit status, w).
Definition out_of_fuel {W A} : M W A := fun w => (OutOfFuel, w).

Notation "'do' x <- m ; k" := (bind m (fun x => k))
  (at level 10, x name, m at level 100, k at level 200,
   format "'[v' 'do'  x  <-  m ; '/' k ']'").
Notation "'run' m ; k" := (bind m (fun _ => k))
  (at level 10, m at level 100, k at level 200,
   format "'[v' 'run'  m ; '/' k ']'").

(** ** download-entries.py *)

Module Downloader.
Import Text Regex.

Definition DOWNLOAD_FOLDER : string := "kaltura_downloads".
Definition RETRY_ATTEMPTS : nat := 3.
Definition REMOVE_SUFFIX : bool := true.

(** A base entry as the client library returns it.  [mediaType] is [None]
    for an object without that attribute (a playlist, a data entry). *)
Record entry : Type := mkentry {
  entry_id : string;
  entry_name : string;
  mediaType : option Z;
  downloadUrl : option string
}.

Record flavor : Type := mkflavor {
  flavor_id : string;
  isOriginal : bool
}.

(** The four filters of [get_entries] *)
Inductive entry_filter : Type :=
| tagsLike (v : string)
| categoryAncestorIdIn (v : string)
| idIn (v : string)
| userIdEqual (v : string)
| parentEntryIdEqual (v : string).

Inductive request : Type :=
| BaseEntryGet (eid : string)
| BaseEntryList (f : entry_filter) (pageIndex : Z)
| FlavorAssetList (eid : string)
| FlavorAssetGetUrl (fid : string)
| RequestsHead (url : string)
| RequestsGet (url : string).

Inductive message : Type :=
| AttemptFailed (attempt : Z) (eid : string) (e : exn)
| GivingUp (eid : string) (attempts : Z)
| InvalidMethod
| ErrorRetrievingEntries (e : exn)
| ErrorRetrievingChildren (parent : string) (e : exn)
| FlavorWarning (eid : string) (e : exn)
| HeaderWarning (e : exn)
| DownloadFailed (filename : string) (e : exn)
| Downloaded (index : Z) (filename : string)
| DownloadedChild (index : Z) (filename : string)
| Skipping (index : Z) (eid name : string)
| SkippingChild (index : Z) (eid name : string)
| NoEntriesFound
| Found (n : Z)
| AllComplete.

Inductive event : Type :=
| Called (r : request)
| Slept (seconds : Z)
| Printed (m : message)
| Wrote (path : string).

(** The remote platform and the HTTP server, with a state of their own *)
Record remote (S : Type) : Type := mkremote {
  baseEntry_get : string -> S -> result entry * S;
  baseEntry_list : entry_filter -> Z -> S -> result (list entry) * S;
  flavorAsset_list : string -> S -> result (list flavor) * S;
  flavorAsset_getUrl : string -> S -> result string * S;
  (** the [Content-Disposition] header of the answer to a HEAD request *)
  requests_head : string -> S -> result (option string) * S;
  (** [requests.get(url, stream=True)] followed by [raise_for_status()] *)
  requests_get : string -> S -> result unit * S;
  (** [response.iter_content(chunk_size=8192)]: the chunks the open answer
      delivers, and the exception that ends the stream when the
      connection breaks *)
  iter_content : string -> S -> (list string * option exn) * S
}.
Arguments baseEntry_get {S}.
Arguments baseEntry_list {S}.
Arguments flavorAsset_list {S}.
Arguments flavorAsset_getUrl {S}.
Arguments requests_head {S}.
Arguments requests_get {S}.
Arguments iter_content {S}.

(** The local file system as the script uses it, with a state [D] of its
    own.  Nothing is assumed about which paths name the same file: a path
    is whatever the operating system makes of the string. *)
Record filesystem (D : Type) : Type := mkfilesystem {
  os_path_exists : string -> D -> bool;
  (** [os.makedirs(path, exist_ok=True)] *)
  os_makedirs : string -> D -> result unit * D;
  (** [open(path, "wb")]: the file is created, or emptied when it exists *)
  open_wb : string -> D -> result unit * D;
  (** [file.write(chunk)] on the file opened at the path *)
  file_write : string -> string -> D -> result unit * D
}.
Arguments os_path_exists {D}.
Arguments os_makedirs {D}.
Arguments open_wb {D}.
Arguments file_write {D}.

(** What a run acts on: the remote state, the local disk, and the log of
    what the run did. *)
Record world (S D : Type) : Type := mkworld {
  server : S;
  disk : D;
  trace : list event
}.
Arguments mkworld {S D}.
Arguments server {S D}.
Arguments disk {S D}.
Arguments trace {S D}.

Section Run.
Context {S D : Type} (api : remote S) (fs : filesystem D).
(** [urlparse(url).path]; [urlparse] raises [ValueError] for a URL it
    cannot take apart *)
Context (urlparse_path : string -> result string).

Abbreviation M := (M (world S D)).

Definition log (ev : event) : M unit :=
  fun w => (Return tt, mkworld (server w) (disk w) (trace w ++ [ev])).

Definition print (m : message) : M unit := log (Printed m).
Definition sleep (seconds : Z) : M unit := log (Slept seconds).

(** A remote call: the request is logged, the answer (a value or an
    exception) is handed to the caller, who may catch it. *)
Definition call {R} (r : request) (f : S -> result R * S) : M (result R) :=
  fun w =>
    let '(res, s') := f (server w) in
    (Return res, mkworld s' (disk w) (trace w ++ [Called r])).

(** A step on the local disk; it leaves no entry in the log. *)
Definition on_disk {R} (f : D -> R * D) : M R :=
  fun w =>
    let '(res, d') := f (disk w) in
    (Return res, mkworld (server w) d' (trace w)).

(** A streamed read from the server; part of the GET already logged. *)
Definition stream {R} (f : S -> R * S) : M R :=
  fun w =>
    let '(res, s') := f (server w) in
    (Return res, mkworld s' (disk w) (trace w)).

(** The next statement of a [try] block: skipped once one has raised. *)
Definition and_then {A B} (m : M (result A)) (k : A -> M (result B))
    : M (result B) :=
  do r <- m;
  match r with
  | Ok a => k a
  | Raise e => ret (Raise e)
  end.

(** lines 52-62; only [KalturaException] is caught *)
Fixpoint get_entry_details_from (attempts : list nat) (eid : string)
    : M (option entry) :=
  match attempts with
  | [] =>
      run print (GivingUp eid (Z.of_nat RETRY_ATTEMPTS));
      ret None
  | attempt :: rest =>
      do r <- call (BaseEntryGet eid) (baseEntry_get api eid);
      match r with
      | Ok details => ret (Some details)
      | Raise (KalturaException c) =>
          run print (AttemptFailed (Z.of_nat attempt + 1) eid
                                   (KalturaException c));
          run sleep (2 ^ Z.of_nat attempt);
          get_entry_details_from rest eid
      | Raise e => raise e
      end
  end.

Definition get_entry_details (eid : string) : M (option entry) :=
  get_entry_details_from (seq 0 RETRY_ATTEMPTS) eid.

(** The [while True] loop of [get_entries], inside its [try] *)
Fixpoint get_entries_loop (fuel : nat) (f : entry_filter) (pageIndex : Z)
    (entries : list entry) : M (list entry) :=
  match fuel with
  | O => out_of_fuel
  | Datatypes.S fuel' =>
      do r <- call (BaseEntryList f pageIndex)
                   (baseEntry_list api f pageIndex);
      match r with
      | Ok [] => ret entries
      | Ok objects =>
          get_entries_loop fuel' f (pageIndex + 1) (entries ++ objects)
      | Raise (KalturaException c) =>
          run print (ErrorRetrievingEntries (KalturaException c));
          ret entries
      | Raise e => raise e
      end
  end.

Definition get_entries (fuel : nat) (method identifier : string)
    : M (list entry) :=
  if String.eqb method "tag" then
    get_entries_loop fuel (tagsLike identifier) 1 []
  else if String.eqb method "category" then
    get_entries_loop fuel (categoryAncestorIdIn identifier) 1 []
  else if String.eqb method "entry_ids" then
    get_entries_loop fuel (idIn identifier) 1 []
  else if String.eqb method "owner_id" then
    get_entries_loop fuel (userIdEqual identifier) 1 []
  else
    (run print InvalidMethod; ret []).

(** The pager of [get_child_entries] keeps the default page index. *)
Definition get_child_entries (parent_entry_id : string) : M (list entry) :=
  do r <- call (BaseEntryList (parentEntryIdEqual parent_entry_id) 1)
               (baseEntry_list api (parentEntryIdEqual parent_entry_id) 1);
  match r with
  | Ok children => ret children
  | Raise (KalturaException c) =>
      run print (ErrorRetrievingChildren parent_entry_id
                                         (KalturaException c));
      ret []
  | Raise e => raise e
  end.

(** [next((f for f in flavors if getattr(f, 'isOriginal', False)), None)] *)
Definition original_flavor (flavors : list flavor) : option flavor :=
  List.find isOriginal flavors.

Definition get_flavor_download_url (e : entry) : M (option string) :=
  do r <- call (FlavorAssetList (entry_id e))
               (flavorAsset_list api (entry_id e));
  match r with
  | Ok flavors =>
      match original_flavor flavors with
      | Some f =>
          do u <- call (FlavorAssetGetUrl (flavor_id f))
                       (flavorAsset_getUrl api (flavor_id f));
          match u with
          | Ok url => ret (Some url)
          | Raise (KalturaException c) =>
              run print (FlavorWarning (entry_id e) (KalturaException c));
              ret None
          | Raise ex => raise ex
          end
      | None => ret None
      end
  | Raise (KalturaException c) =>
      run print (FlavorWarning (entry_id e) (KalturaException c));
      ret None
  | Raise ex => raise ex
  end.

(** [hasattr(e, "mediaType")] *)
Definition has_mediaType (e : entry) : bool :=
  match mediaType e with Some _ => true | None => false end.

Definition get_download_url (e : entry) : M (option string) :=
  if negb (has_mediaType e) then ret None
  else
    do entry_details <- get_entry_details (entry_id e);
    match entry_details with
    | None => ret None
    | Some details =>
        match mediaType details with
        | None => ret None
        | Some media_type =>
            if media_type =? 2 then ret (downloadUrl details)
            else get_flavor_download_url e
        end
    end.

(** lines 154-157: the name inside a [Content-Disposition] header *)
Definition header_filename (content_disp : string) : option string :=
  if contains "filename=" content_disp then
    match split content_disp "filename=" with
    | _ :: part :: _ => Some (strip (is_char "034"%char) part)
    | _ => None
    end
  else None.

(** The class [[\s_]] *)
Definition space_or_underscore (c : ascii) : bool :=
  is_space c || is_char "_"%char c.

(** The class [[_\-\s]] *)
Definition separator (c : ascii) : bool :=
  is_char "_"%char c || is_char "-"%char c || is_space c.

(** [[\s_]*\(Source\)[\s_]*] *)
Definition source_marker : pattern :=
  Star space_or_underscore :: lits "(Source)" ++ [Star space_or_underscore].

(** [[_\-\s]+$] *)
Definition trailing_separators : pattern := [Plus separator; EndAnchor].

(** lines 165-174 *)
Definition cleanup (filename : string) : string :=
  if REMOVE_SUFFIX then
    let '(base, ext) := splitext filename in
    let base := sub source_marker "" base in
    let base := sub trailing_separators "" base in
    base +:+ ext
  else filename.

(** lines 176-183: the [while os.path.exists(file_path)] loop; the disk
    is only looked at, so it is the same at every round *)
Fixpoint free_name (fuel : nat) (d : D) (filename : string)
    (counter : Z) : option string :=
  match fuel with
  | O => None
  | Datatypes.S fuel' =>
      if os_path_exists fs (join DOWNLOAD_FOLDER filename) d then
        let counter := counter + 1 in
        let '(base, ext) := splitext filename in
        free_name fuel' d (base +:+ "_" +:+ str_of_int counter +:+ ext)
                  counter
      else Some filename
  end.

(** A truthy string: what [if filename] tests *)
Definition truthy (s : option string) : bool :=
  match s with
  | Some (String _ _) => true
  | _ => false
  end.

Definition get_file_name (fuel : nat) (url : string) (counter : Z)
    : M string :=
  do h <- call (RequestsHead url) (requests_head api url);
  do filename <-
    match h with
    | Ok (Some content_disp) => ret (header_filename content_disp)
    | Ok None => ret None
    | Raise RequestException =>
        (run print (HeaderWarning RequestException); ret None)
    | Raise e => raise e
    end;
  do filename <-
    (if truthy filename then ret (default "" filename)
     else
       match urlparse_path url with
       | Ok path => ret (basename path)
       | Raise e => raise e
       end);
  let filename := cleanup filename in
  fun w =>
    match free_name fuel (disk w) filename counter with
    | Some name => (Return name, w)
    | None => (OutOfFuel, w)
    end.

(** The [for chunk in ...: file.write(chunk)] loop *)
Fixpoint write_chunks (file_path : string) (chunks : list string)
    : M (result unit) :=
  match chunks with
  | [] => ret (Ok tt)
  | chunk :: rest =>
      and_then (on_disk (file_write fs file_path chunk))
               (fun _ => write_chunks file_path rest)
  end.

(** lines 186-198.  Every statement of the function is inside the [try];
    the handler takes a [RequestException] and nothing else, so what
    [os.makedirs], [open] or [file.write] raise leaves the function. *)
Definition download_file (url filename : string) : M unit :=
  do r <-
    and_then (call (RequestsGet url) (requests_get api url)) (fun _ =>
    and_then (on_disk (os_makedirs fs DOWNLOAD_FOLDER)) (fun _ =>
    let file_path := join DOWNLOAD_FOLDER filename in
    and_then (on_disk (open_wb fs file_path)) (fun _ =>
    run log (Wrote file_path);
    do body <- stream (iter_content api url);
    and_then (write_chunks file_path (fst body)) (fun _ =>
    match snd body with
    | Some e => ret (Raise e)
    | None => ret (Ok tt)
    end))));
  match r with
  | Ok _ => ret tt
  | Raise RequestException =>
      print (DownloadFailed filename RequestException)
  | Raise e => raise e
  end.

(** The [for child in children] loop of [process_entry] *)
Fixpoint process_children (fuel : nat) (children : list entry) (index : Z)
    : M unit :=
  match children with
  | [] => ret tt
  | child :: rest =>
      do child_url <- get_download_url child;
      run (if truthy child_url then
             do child_filename <-
               get_file_name fuel (default "" child_url) 0;
             run print (DownloadedChild index child_filename);
             download_file (default "" child_url) child_filename
           else
             print (SkippingChild index (entry_id child)
                                  (entry_name child)));
      process_children fuel rest index
  end.

Definition process_entry (fuel : nat) (e : entry) (index : Z) : M unit :=
  do url <- get_download_url e;
  run (if truthy url then
         do filename <- get_file_name fuel (default "" url) 0;
         run print (Downloaded index filename);
         download_file (default "" url) filename
       else
         print (Skipping index (entry_id e) (entry_name e)));
  do children <- get_child_entries (entry_id e);
  process_children fuel children index.

(** The [for idx, entry in enumerate(entries, start=1)] loop of [main] *)
Fixpoint process_all (fuel : nat) (entries : list entry) (idx : Z)
    : M unit :=
  match entries with
  | [] => ret tt
  | e :: rest =>
      run process_entry fuel e idx;
      process_all fuel rest (idx + 1)
  end.

(** line 286 *)
Definition media_entries (entries : list entry) : list entry :=
  List.filter has_mediaType entries.

(** [main] from line 284 on, once the method and a non-empty identifier
    have been read.  [fuel] bounds each [while] loop of the run. *)
Definition main_from_listing (fuel : nat) (method identifier : string)
    : M unit :=
  do entries <- get_entries fuel method identifier;
  let entries := media_entries entries in
  match entries with
  | [] => print NoEntriesFound
  | _ =>
      run print (Found (Z.of_nat (length entries)));
      run process_all fuel entries 1;
      print AllComplete
  end.
End Run.

End Downloader.

(** ** unpublish-republish-entry.py *)

Module Republish.

(** One category-entry association of a list answer: the value of its
    [status], [None] when the status object has no [value]. *)
Record association : Type := mkassociation {
  status : option Z
}.

(** The answer of [client.categoryEntry.list]; [totalCount] is [None] when
    the answer has no such attribute. *)
Record list_response : Type := mklist_response {
  totalCount : option Z;
  objects : list association
}.

Inductive request : Type :=
| CategoryEntryList (category_id entry_id : string)
| CategoryEntryDelete (entry_id category_id : string)
| CategoryEntryAdd (category_id entry_id : string).

Inductive message : Type :=
| Separator
| Processing (entry_id category_id : string)
| Removing
| NotActiveSkippingRemoval (entry_id category_id : string)
| CouldNotRemove (e : exn)
| RemovalFailedSkipping
| ConfirmedRemoved (entry_id category_id : string)
| FailedToConfirmRemoval
| Adding
| CouldNotReAdd (e : exn)
| AddFailedSkipping
| ConfirmedAdded (entry_id category_id : string)
| FailedToConfirmAddition.

Inductive event : Type :=
| Called (r : request)
| Printed (m : message).

(** The remote platform, with a state of its own *)
Record remote (S : Type) : Type := mkremote {
  categoryEntry_list : string -> string -> S -> result list_response * S;
  categoryEntry_delete : string -> string -> S -> result unit * S;
  categoryEntry_add : string -> string -> S -> result unit * S
}.
Arguments categoryEntry_list {S}.
Arguments categoryEntry_delete {S}.
Arguments categoryEntry_add {S}.

Record world (S : Type) : Type := mkworld {
  server : S;
  trace : list event
}.
Arguments mkworld {S}.
Arguments server {S}.
Arguments trace {S}.

Section Run.
Context {S : Type} (api : remote S).

Abbreviation M := (M (world S)).

Definition log (ev : event) : M unit :=
  fun w => (Return tt, mkworld (server w) (trace w ++ [ev])).

Definition print (m : message) : M unit := log (Printed m).

Definition call {R} (r : request) (f : S -> result R * S) : M (result R) :=
  fun w =>
    let '(res, s') := f (server w) in
    (Return res, mkworld s' (trace w ++ [Called r])).

(** [getattr(resp, "totalCount", 0) > 0] *)
Definition has_matches (resp : list_response) : bool :=
  0 <? default 0 (totalCount resp).

(** lines 101-106; the list call stands outside any [try] *)
Definition entry_in_category (entry_id category_id : string) : M bool :=
  do r <- call (CategoryEntryList category_id entry_id)
               (categoryEntry_list api category_id entry_id);
  match r with
  | Ok resp => ret (has_matches resp)
  | Raise e => raise e
  end.

(** line 114: [and] looks at [objects[0]] only when there are matches *)
Definition is_active (status_resp : list_response) : result bool :=
  if has_matches status_resp then
    match objects status_resp with
    | first :: _ =>
        Ok (match status first with
            | Some v => v =? 2
            | None => false
            end)
    | [] => Raise IndexError
    end
  else Ok false.

(** lines 109-126 *)
Definition remove_from_category (entry_id category_id : string) : M bool :=
  do r <- call (CategoryEntryList category_id entry_id)
               (categoryEntry_list api category_id entry_id);
  match r with
  | Raise e => raise e
  | Ok status_resp =>
      match is_active status_resp with
      | Raise e => raise e
      | Ok false =>
          run print (NotActiveSkippingRemoval entry_id category_id);
          ret true
      | Ok true =>
          do d <- call (CategoryEntryDelete entry_id category_id)
                       (categoryEntry_delete api entry_id category_id);
          match d with
          | Ok _ => ret true
          | Raise exc => run print (CouldNotRemove exc); ret false
          end
      end
  end.

(** lines 129-138 *)
Definition add_to_category (entry_id category_id : string) : M bool :=
  do a <- call (CategoryEntryAdd category_id entry_id)
               (categoryEntry_add api category_id entry_id);
  match a with
  | Ok _ => ret true
  | Raise exc => run print (CouldNotReAdd exc); ret false
  end.

(** The body of the [for entry_id in entry_ids] loop (lines 143-173); each
    [continue] ends the body. *)
Definition process_entry (entry_id category_id : string) : M unit :=
  run print Separator;
  run print (Processing entry_id category_id);
  run print Removing;
  do ok <- remove_from_category entry_id category_id;
  if negb ok then print RemovalFailedSkipping
  else
    do present <- entry_in_category entry_id category_id;
    let removed_check := negb present in
    if removed_check then
      run print (ConfirmedRemoved entry_id category_id);
      run print Adding;
      do ok <- add_to_category entry_id category_id;
      if negb ok then print AddFailedSkipping
      else
        do added_check <- entry_in_category entry_id category_id;
        if added_check then print (ConfirmedAdded entry_id category_id)
        else print FailedToConfirmAddition
    else print FailedToConfirmRemoval.

(** The loop over [entry_ids] *)
Fixpoint process_entries (entry_ids : list string) (category_id : string)
    : M unit :=
  match entry_ids with
  | [] => ret tt
  | entry_id :: rest =>
      run process_entry entry_id category_id;
      process_entries rest category_id
  end.
End Run.

(** A platform that keeps what it is told, for the examples: the state
    lists the associations that exist as (entry, category, status).  Listing
    reports an association in any status, deleting removes it, adding
    creates it as active (status 2). *)
Definition same_pair (entry_id category_id : string)
    (a : string * string * Z) : bool :=
  String.eqb (fst (fst a)) entry_id && String.eqb (snd (fst a)) category_id.

Definition platform : remote (list (string * string * Z)) :=
  mkremote (list (string * string * Z))
    (fun category_id entry_id s =>
       match List.find (same_pair entry_id category_id) s with
       | Some a => (Ok (mklist_response (Some 1) [mkassociation (Some (snd a))]), s)
       | None => (Ok (mklist_response (Some 0) []), s)
       end)
    (fun entry_id category_id s =>
       match List.find (same_pair entry_id category_id) s with
       | Some _ =>
           (Ok tt,
            List.filter (fun a => negb (same_pair entry_id category_id a)) s)
       | None => (Raise (KalturaException "ENTRY_IS_NOT_ASSIGNED_TO_CATEGORY"), s)
       end)
    (fun category_id entry_id s =>
       match List.find (same_pair entry_id category_id) s with
       | Some _ =>
           (Raise (KalturaException "CATEGORY_ENTRY_ALREADY_EXISTS"), s)
       | None => (Ok tt, (entry_id, category_id, 2) :: s)
       end).

End Republish.

(** ** Python floats: IEEE 754 binary64, as the kernel's primitive floats *)

Module PyFloat.

Definition sf_of_int (a : Z) : spec_float :=
  match a with
  | Z0 => S754_zero false
  | Zpos p => S754_finite false p 0
  | Zneg p => S754_finite true p 0
  end.

(** [float(a)] for an integer: the nearest double *)
Definition of_int (a : Z) : float :=
  SF2Prim (binary_normalize prec emax a 0 false).

(** [a / b] for integers, [b] not zero: the correctly rounded quotient,
    and an [OverflowError] when it is too large for a double *)
Definition truediv_int (a b : Z) : result float :=
  match SFdiv prec emax (sf_of_int a) (sf_of_int b) with
  | S754_infinity _ => Raise OverflowError
  | q => Ok (SF2Prim q)
  end.

(** The integer nearest to [m * 2^e * scale], ties to even: the digits of
    a correctly rounded decimal conversion. *)
Definition scaled_round (m : positive) (e : Z) (scale : Z) : Z :=
  let n := Zpos m * scale in
  if 0 <=? e then n * 2 ^ e
  else
    let d := 2 ^ (- e) in
    let q := n / d in
    let r := n mod d in
    match 2 * r ?= d with
    | Lt => q
    | Gt => q + 1
    | Eq => if Z.even q then q else q + 1
    end.

(** [round(x, 2)]: the decimal with two places nearest to the exact value
    of [x] (ties to even), then the double nearest to that decimal. *)
Definition round2 (x : float) : float :=
  match Prim2SF x with
  | S754_finite s m e =>
      match scaled_round m e 100 with
      | Zpos n =>
          SF2Prim (SFdiv prec emax (S754_finite s n 0)
                                   (S754_finite false 100 0))
      | _ => SF2Prim (S754_zero s)
      end
  | _ => x
  end.

(** [sum(xs)] for floats, until Python 3.11: additions from the left,
    starting from the integer 0 *)
Definition sum_plain (xs : list float) : float :=
  fold_left PrimFloat.add xs 0%float.

(** [sum(xs)] for floats, from Python 3.12 on: Neumaier's compensated
    summation *)
Definition cs_add (total : float * float) (x : float) : float * float :=
  let '(hi, lo) := total in
  let t := PrimFloat.add hi x in
  if PrimFloat.leb (PrimFloat.abs x) (PrimFloat.abs hi)
  then (t, PrimFloat.add lo (PrimFloat.add (PrimFloat.sub hi t) x))
  else (t, PrimFloat.add lo (PrimFloat.add (PrimFloat.sub x t) hi)).

Definition is_finite (x : float) : bool :=
  match Prim2SF x with
  | S754_zero _ | S754_finite _ _ _ => true
  | _ => false
  end.

Definition cs_to_double (total : float * float) : float :=
  let '(hi, lo) := total in
  if negb (PrimFloat.eqb lo 0%float) && is_finite lo
  then PrimFloat.add hi lo else hi.

Definition sum_compensated (xs : list float) : float :=
  cs_to_double (fold_left cs_add xs (0%float, 0%float)).

(** The decimal digits of [n >= 0] with a comma between groups of three *)
Fixpoint grouped (fuel : nat) (n : Z) : string :=
  match fuel with
  | O => pretty n
  | S fuel' =>
      if n <? 1000 then pretty n
      else
        let r := n mod 1000 in
        grouped fuel' (n / 1000) +:+ "," +:+
        (if r <? 10 then "00" else if r <? 100 then "0" else "") +:+ pretty r
  end.

(** [format(x, ",.2f")] *)
Definition format_2f (x : float) : string :=
  match Prim2SF x with
  | S754_zero s => (if s then "-" else "") +:+ "0.00"
  | S754_infinity s => if s then "-inf" else "inf"
  | S754_nan => "nan"
  | S754_finite s m e =>
      let n := scaled_round m e 100 in
      let cents := n mod 100 in
      (if s then "-" else "") +:+
      grouped (Z.to_nat (Z.log2 (n / 100))) (n / 100) +:+ "." +:+
      (if cents <? 10 then "0" else "") +:+ pretty cents
  end.

(** [s.rjust(width)] *)
Definition rjust (width : nat) (s : string) : string :=
  String.concat "" (repeat " "%string (width - String.length s)) +:+ s.

End PyFloat.

(** ** report-count-duration.py *)

Module Reporter.
Import Calendar Text Regex.

(** [\s*\(Source\)] *)
Definition source_marker : pattern :=
  Star is_space :: lits "(Source)".

(** [_*\.mp4$] *)
Definition underscores_before_mp4 : pattern :=
  Star (is_char "_"%char) :: lits ".mp4" ++ [EndAnchor].

(** [clean_filename] (lines 63-68) *)
Definition clean_filename (filename : string) : string :=
  let cleaned := sub source_marker "" filename in
  let cleaned := sub underscores_before_mp4 ".mp4" cleaned in
  strip is_space cleaned.

(** What ends a run of the generator. [FuelExhausted] belongs to the model
    only: the loop bound of [get_interval_ranges] never lets it occur. *)
Inductive gen_end : Type :=
| StopIteration
| Raised (e : exn)
| FuelExhausted.

(** The chunk end chosen for [current] (lines 140-154). *)
Definition next_date_of (current : date) (interval_type : Z) : result date :=
  if interval_type =? 1 then
    replace current None (Some 12) (Some 31)
  else if interval_type =? 2 then
    bind_result (replace current None None (Some 28)) (fun d28 =>
    bind_result (add_days d28 4) (fun d32 =>
    bind_result (replace d32 None None (Some 1)) (fun first =>
    sub_days first 1)))
  else if interval_type =? 3 then
    add_days current 6
  else if interval_type =? 4 then
    Ok current
  else Raise ValueError.

(** The [while current <= end_date] loop of [get_interval_ranges]: the
    pairs yielded so far and how the generator ended. *)
Fixpoint interval_loop (fuel : nat) (current end_date : date)
    (interval_type : Z) : list (date * date) * gen_end :=
  match fuel with
  | O => ([], FuelExhausted)
  | S fuel' =>
      if date_le current end_date then
        match next_date_of current interval_type with
        | Raise e => ([], Raised e)
        | Ok next_date =>
            let chunk := (current, date_min next_date end_date) in
            match add_days next_date 1 with
            | Raise e => ([chunk], Raised e)
            | Ok current' =>
                let '(rest, fin) :=
                  interval_loop fuel' current' end_date interval_type in
                (chunk :: rest, fin)
            end
        end
      else ([], StopIteration)
  end.

(** [get_interval_ranges(start_date, end_date, interval_type)].  Every
    iteration moves [current] forward by at least one day, so the number of
    days of the range, plus one for the final test, bounds the loop. *)
Definition get_interval_ranges (start_date end_date : date)
    (interval_type : Z) : list (date * date) * gen_end :=
  interval_loop
    (S (S (Z.to_nat (toordinal end_date - toordinal start_date))))
    start_date end_date interval_type.

(** The last end date for which no date computed for an interval leaves
    [date.min .. date.max]. *)
Definition last_supported_end (interval_type : Z) : date :=
  if interval_type =? 1 then mkdate 9998 12 31
  else if interval_type =? 2 then mkdate 9999 11 30
  else if interval_type =? 3 then mkdate 9999 12 24
  else mkdate 9999 12 30.

(** A day lies in a chunk. *)
Definition in_chunk (d : date) (c : date * date) : bool :=
  date_le (fst c) d && date_le d (snd c).

(** *** Configuration: the environment and the prompts (lines 51-113) *)

(** [bool(x)] for [x] a string or [None] *)
Definition py_bool (x : option string) : bool :=
  match x with
  | Some (String _ _) => true
  | _ => false
  end.

(** [getenv]: the environment once [load_dotenv] has run *)
Definition getenv (env : gmap string string) (key : string) : option string :=
  env !! key.

Record config : Type := mkconfig {
  PARTNER_ID : Z;
  EXPORT_CSV : bool;
  OWNER_ID : string;
  TAG : string;
  CATEGORY_ID : string;
  FLAVOR_SIZE : string;
  (** bound only when [FLAVOR_SIZE] is truthy *)
  FLAVOR_SOURCE_NAME : option string;
  START_DATE : date;
  END_DATE : date;
  RESTRICTION_INTERVAL : Z
}.

Record media_entry : Type := mkmedia_entry {
  entry_id : string;
  entry_name : string;
  mediaType : Z;
  duration : option Z;
  createdAt : Z;
  updatedAt : Z;
  lastPlayedAt : option Z;
  plays : Z;
  categories : string;
  tags : string;
  userId : string;
  flavorParamsIds : string
}.

Record flavor_asset : Type := mkflavor_asset {
  flavor_id : string;
  size : Z;
  isOriginal : bool
}.

Record media_filter : Type := mkmedia_filter {
  userIdEqual : option string;
  categoriesIdsMatchOr : option string;
  tagsLike : option string;
  createdAtGreaterThanOrEqual : Z;
  createdAtLessThanOrEqual : Z
}.

(** One dictionary of [all_entries] *)
Record detail_row : Type := mkdetail_row {
  row_entryId : string;
  row_name : string;
  row_media_type : string;
  row_duration_sec : option Z;
  row_duration : string;
  row_created_at : string;
  row_updated_at : string;
  row_lastplayed_at : option string;
  row_plays : Z;
  row_categories : string;
  row_tags : string;
  row_owner_id : string;
  row_original_filename : option string;
  row_flavor_count : string;
  row_flavor_size_sum : string
}.

(** One dictionary of [summary] *)
Record summary_row : Type := mksummary_row {
  range : string;
  entry_count : Z;
  total_duration_minutes : float;
  flavor_size_sum : float
}.

Inductive request : Type :=
| SessionStart (secret user_id : option string) (partner_id : Z)
| MediaList (f : media_filter) (pageIndex : Z)
| FlavorAssetList (eid : string)
| FlavorAssetGetUrl (fid : string).

Inductive message : Type :=
| Prompt (text : string)
| SelectInterval
| IntervalChoices
| QueryRefused
| TryIncreasingInterval
| ProcessingPage (pageIndex : Z) (n : Z)
| ErrorRetrievingFilename (eid : string) (e : exn)
| LimitReached
| MayBeIncomplete
| TryIncreasingValue
| ProcessingRange (label : string)
| SummaryHeader
| SummaryLine (label count minutes : string)
| TotalsHeader
| TotalLine (label value : string)
| CsvFilesCreated (summary_filename details_filename : string).

Inductive event : Type :=
| Called (r : request)
| Printed (m : message)
| WroteSummaryCsv (filename : string) (rows : list summary_row)
| WroteDetailsCsv (filename : string) (rows : list detail_row).

Record remote (S : Type) : Type := mkremote {
  (** [client.session.start(ADMIN_SECRET, USER_ID, ADMIN, PARTNER_ID, ...)] *)
  session_start :
    option string -> option string -> Z -> S -> result string * S;
  media_list : media_filter -> Z -> S -> result (list media_entry) * S;
  flavorAsset_list : string -> S -> result (list flavor_asset) * S;
  flavorAsset_getUrl : string -> S -> result string * S
}.
Arguments session_start {S}.
Arguments media_list {S}.
Arguments flavorAsset_list {S}.
Arguments flavorAsset_getUrl {S}.

(** The remote state, the lines still to be typed at the prompts, and the
    log of the run *)
Record world (S : Type) : Type := mkworld {
  server : S;
  stdin : list string;
  trace : list event
}.
Arguments mkworld {S}.
Arguments server {S}.
Arguments stdin {S}.
Arguments trace {S}.

(** [re.search(r"/fileName/([^/]+)/", url)]: the first place where
    [/fileName/] is followed by characters other than [/] and then a [/];
    the result is group 1. *)
Fixpoint search_fileName (url : string) : option string :=
  let here :=
    if startswith url "/fileName/" then
      let rest := drop 10 url in
      let n := span (fun c => negb (is_char "/"%char c)) rest in
      if (1 <=? n)%nat && startswith (drop n rest) "/"
      then Some (take n rest) else None
    else None in
  match here with
  | Some name => Some name
  | None =>
      match url with
      | String _ url' => search_fileName url'
      | EmptyString => None
      end
  end.

(** [d.strftime('%Y-%m-%d')], for a year of four digits *)
Definition zero_pad (width : nat) (n : Z) : string :=
  let digits := pretty n in
  String.concat "" (repeat "0"%string (width - String.length digits)) +:+ digits.

Definition strftime_ymd (d : date) : string :=
  zero_pad 4 (year d) +:+ "-" +:+ zero_pad 2 (month d) +:+ "-" +:+
  zero_pad 2 (day d).

Section Run.
Context {S : Type} (api : remote S).
(** What the script takes from its libraries and its machine:
    [pytz.timezone(name)], which raises for a name it does not know;
    [media_types], the reverse dictionary of [KalturaMediaType];
    [str(timedelta(seconds=n))]; the rendering of an epoch time in
    [TIMEZONE]; [str(x)] and [format(x, ",")] ; [int(s)];
    [datetime.strptime(s, "%Y-%m-%d").date()]; [date.today()]; the epoch
    seconds of the first and of the last instant of a day;
    [datetime.now().strftime("%Y%m%d_%H%M%S")]; and the making of a CSV
    file in the working directory, [open(name, "w")] and the writes that
    follow, which raises [OSError] when the file cannot be made.  Those
    that raise out of their range ([OverflowError], [ValueError],
    [OSError]) give a [result]. *)
Context (pytz_timezone : string -> result unit)
        (media_types : Z -> option string)
        (str_timedelta : Z -> result string)
        (format_local : Z -> result string)
        (str_float : float -> string)
        (format_int : Z -> string)
        (py_int : string -> result Z)
        (strptime_date : string -> result date)
        (today : date)
        (day_start_ts day_end_ts : date -> result Z)
        (now_stamp : string)
        (write_csv : string -> result unit).
(** [sum] over floats: [PyFloat.sum_plain] or [PyFloat.sum_compensated],
    by the version of Python *)
Context (py_sum : list float -> float).

Abbreviation M := (M (world S)).

Definition log (ev : event) : M unit :=
  fun w => (Return tt, mkworld (server w) (stdin w) (trace w ++ [ev])).

Definition print (m : message) : M unit := log (Printed m).

Definition call {R} (r : request) (f : S -> result R * S) : M (result R) :=
  fun w =>
    let '(res, s') := f (server w) in
    (Return res, mkworld s' (stdin w) (trace w ++ [Called r])).

(** [input(text)]: the next line typed, [EOFError] when there is none *)
Definition input (text : string) : M string :=
  fun w =>
    match stdin w with
    | line :: rest =>
        (Return line,
         mkworld (server w) rest (trace w ++ [Printed (Prompt text)]))
    | [] =>
        (Uncaught EOFError,
         mkworld (server w) [] (trace w ++ [Printed (Prompt text)]))
    end.

Definition lift {A} (r : result A) : M A :=
  match r with
  | Ok a => ret a
  | Raise e => raise e
  end.

(** lines 76-78: the two enrichment prompts *)
Definition prompt_enrichment : M (string * option string) :=
  do flavor_size <- input "Do you want to calculate flavor size? (slower): ";
  let flavor_size := strip is_space flavor_size in
  if py_bool (Some flavor_size) then
    do a <- input "Do you want to know the name of the source file? (slower): ";
    ret (flavor_size, Some (strip is_space a))
  else ret (flavor_size, None).

(** lines 80-105: the date range *)
Definition prompt_dates (env : gmap string string) : M (date * date) :=
  do start_input <- input "Enter a START DATE (YYYY-MM-DD) [press Enter to search from the beginning]: ";
  do end_input <- input "Enter an END DATE (YYYY-MM-DD) [press Enter for today]: ";
  let start_input := strip is_space start_input in
  let end_input := strip is_space end_input in
  do start_date <-
    (if py_bool (Some start_input) then lift (strptime_date start_input)
     else
       match getenv env "EARLIEST_START_DATE" with
       | Some v => lift (strptime_date v)
       | None => raise TypeError
       end);
  do end_date <-
    (if py_bool (Some end_input) then lift (strptime_date end_input)
     else ret today);
  if date_lt end_date start_date then raise ValueError
  else ret (start_date, end_date).

(** lines 108-113 *)
Definition prompt_interval : M Z :=
  run print SelectInterval;
  run print IntervalChoices;
  do interval_input <- input "Enter a number for RESTRICTION_INTERVAL [default is 2]: ";
  let interval_input := strip is_space interval_input in
  if py_bool (Some interval_input) then lift (py_int interval_input)
  else ret 2.

(** lines 51-113.  [pytz.timezone(None)] raises [UnknownTimeZoneError],
    a [KeyError]. *)
Definition startup (env : gmap string string) : M config :=
  do partner_id <-
    match getenv env "PARTNER_ID" with
    | Some v => lift (py_int v)
    | None => raise TypeError
    end;
  let export_csv := py_bool (getenv env "EXPORT_CSV") in
  run match getenv env "TIMEZONE" with
      | Some zone => lift (pytz_timezone zone)
      | None => raise KeyError
      end;
  do owner_id <- input "Enter an owner user ID (optional): ";
  do tag <- input "Enter a tag (optional): ";
  do category_id <- input "Enter a category ID (optional): ";
  do enrichment <- prompt_enrichment;
  do dates <- prompt_dates env;
  do interval <- prompt_interval;
  ret (mkconfig partner_id export_csv
                (strip is_space owner_id) (strip is_space tag)
                (strip is_space category_id)
                (fst enrichment) (snd enrichment)
                (fst dates) (snd dates) interval).

(** lines 116-129 *)
Definition start_session (env : gmap string string) (partner_id : Z)
    : M string :=
  let secret := getenv env "ADMIN_SECRET" in
  let user_id := getenv env "USER_ID" in
  do r <- call (SessionStart secret user_id partner_id)
               (session_start api secret user_id partner_id);
  lift r.

Context (cfg : config).

(** [if FLAVOR_SIZE:] *)
Definition flavor_size_enabled : bool := py_bool (Some (FLAVOR_SIZE cfg)).
(** [FLAVOR_SOURCE_NAME], tested inside the [if FLAVOR_SIZE:] branch *)
Definition source_name_enabled : bool := py_bool (FLAVOR_SOURCE_NAME cfg).

(** lines 168-177 *)
Definition build_filter (start_ts end_ts : Z) : media_filter :=
  mkmedia_filter
    (if py_bool (Some (OWNER_ID cfg)) then Some (OWNER_ID cfg) else None)
    (if py_bool (Some (CATEGORY_ID cfg)) then Some (CATEGORY_ID cfg) else None)
    (if py_bool (Some (TAG cfg)) then Some (TAG cfg) else None)
    start_ts end_ts.

(** lines 217-247: the flavor count, the flavor size sum (kilobytes) and
    the original file name of one entry.  In the slow path every
    exception is caught; what was assigned before it is kept. *)
Definition entry_flavors (entry : media_entry)
    : M (Z * Z * option string) :=
  if flavor_size_enabled then
    do r <- call (FlavorAssetList (entry_id entry))
                 (flavorAsset_list api (entry_id entry));
    match r with
    | Raise e =>
        run print (ErrorRetrievingFilename (entry_id entry) e);
        ret (0, 0, None)
    | Ok flavors =>
        let flavor_count := Z.of_nat (length flavors) in
        let flavor_size_sum := fold_left Z.add (map size flavors) 0 in
        match (if source_name_enabled then List.find isOriginal flavors
               else None) with
        | Some source_flavor =>
            do u <- call (FlavorAssetGetUrl (flavor_id source_flavor))
                         (flavorAsset_getUrl api (flavor_id source_flavor));
            match u with
            | Raise e =>
                run print (ErrorRetrievingFilename (entry_id entry) e);
                ret (flavor_count, flavor_size_sum, None)
            | Ok url =>
                ret (flavor_count, flavor_size_sum,
                     clean_filename <$> search_fileName url)
            end
        | None => ret (flavor_count, flavor_size_sum, None)
        end
    end
  else
    ret (Z.of_nat (length (split (flavorParamsIds entry) ",")), 0, None).

(** lines 249-283: the dictionary display evaluates its values in the
    order written, so the first one that raises decides the exception *)
Definition make_row (entry : media_entry) (flavor_count flavor_size_sum : Z)
    (original_filename : option string) : result detail_row :=
  match media_types (mediaType entry) with
  | None => Raise KeyError
  | Some media_type =>
      bind_result
        (match duration entry with
         | Some d => if d =? 0 then Ok "0:00:00" else str_timedelta d
         | None => Ok "0:00:00"
         end) (fun duration_text =>
      bind_result (format_local (createdAt entry)) (fun created_at =>
      bind_result (format_local (updatedAt entry)) (fun updated_at =>
      bind_result
        (match lastPlayedAt entry with
         | Some t => bind_result (format_local t) (fun s => Ok (Some s))
         | None => Ok None
         end) (fun lastplayed_at =>
      bind_result (PyFloat.truediv_int flavor_size_sum 1024) (fun mb =>
      Ok (mkdetail_row
            (entry_id entry) (entry_name entry) media_type
            (duration entry)
            duration_text created_at updated_at lastplayed_at
            (plays entry)
            (replace_char ","%char ";" (categories entry))
            (replace_char ","%char ";" (tags entry))
            (userId entry)
            original_filename
            (pretty flavor_count)
            (str_float (PyFloat.round2 mb))))))))
  end.

(** The running values of [fetch_entries_for_interval] *)
Record counters : Type := mkcounters {
  c_entry_count : Z;
  c_total_duration : Z;
  c_total_flavor_size : Z;
  c_all_entries : list detail_row
}.

(** The [for entry in result.objects] loop (lines 211-288) *)
Fixpoint process_page (objects : list media_entry) (c : counters)
    : M counters :=
  match objects with
  | [] => ret c
  | entry :: rest =>
      do f <- entry_flavors entry;
      let '(flavor_count, flavor_size_sum, original_filename) := f in
      do row <- lift (make_row entry flavor_count flavor_size_sum
                               original_filename);
      process_page rest
        (mkcounters (c_entry_count c + 1)
                    (c_total_duration c + default 0 (duration entry))
                    (c_total_flavor_size c + flavor_size_sum)
                    (c_all_entries c ++ [row]))
  end.

(** The [while True] loop (lines 186-299) *)
Fixpoint fetch_loop (fuel : nat) (filter : media_filter) (pageIndex : Z)
    (c : counters) : M counters :=
  match fuel with
  | O => out_of_fuel
  | Datatypes.S fuel' =>
      do r <- call (MediaList filter pageIndex)
                   (media_list api filter pageIndex);
      match r with
      | Raise (KalturaException code) =>
          if String.eqb code "QUERY_EXCEEDED_MAX_MATCHES_ALLOWED" then
            run print QueryRefused;
            run print TryIncreasingInterval;
            exit 1
          else raise (KalturaException code)
      | Raise e => raise e
      | Ok [] => ret c
      | Ok objects =>
          run print (ProcessingPage pageIndex (Z.of_nat (length objects)));
          do c' <- process_page objects c;
          if 10000 <=? c_entry_count c' then
            run print LimitReached;
            run print MayBeIncomplete;
            run print TryIncreasingValue;
            exit 1
          else fetch_loop fuel' filter (pageIndex + 1) c'
      end
  end.

(** [fetch_entries_for_interval(start_ts, end_ts)], with the timestamps
    already in epoch seconds.  Every page that is not empty adds an
    entry and the loop stops at 10,000, so 10,001 rounds are enough. *)
Definition fetch_entries_for_interval (start_ts end_ts : Z) : M counters :=
  fetch_loop (Z.to_nat 10001) (build_filter start_ts end_ts) 1
             (mkcounters 0 0 0 []).

(** The dictionary appended to [summary] (lines 328-337) *)
Definition summary_row_of (label : string) (c : counters)
    : result summary_row :=
  bind_result (PyFloat.truediv_int (c_total_duration c) 60) (fun minutes =>
  bind_result (PyFloat.truediv_int (c_total_flavor_size c) 1024) (fun mb =>
  Ok (mksummary_row label (c_entry_count c)
        (PyFloat.round2 minutes) (PyFloat.round2 mb)))).

(** The body of the main loop (lines 314-338) *)
Definition chunk_summary (interval_start interval_end : date)
    : M (summary_row * list detail_row) :=
  let label :=
    strftime_ymd interval_start +:+ " to " +:+ strftime_ymd interval_end in
  run print (ProcessingRange label);
  do start_ts <- lift (day_start_ts interval_start);
  do end_ts <- lift (day_end_ts interval_end);
  do c <- fetch_entries_for_interval start_ts end_ts;
  do row <- lift (summary_row_of label c);
  ret (row, c_all_entries c).

Fixpoint chunk_loop (chunks : list (date * date))
    (summary : list summary_row) (detailed_entries : list detail_row)
    : M (list summary_row * list detail_row) :=
  match chunks with
  | [] => ret (summary, detailed_entries)
  | (interval_start, interval_end) :: rest =>
      do r <- chunk_summary interval_start interval_end;
      chunk_loop rest (summary ++ [fst r]) (detailed_entries ++ snd r)
  end.

(** The grand totals (lines 350-358) *)
Record totals : Type := mktotals {
  total_entries : Z;
  total_minutes : float;
  total_hours : float;
  total_days : float;
  total_months : float;
  total_years : float;
  total_flavor_size_sum : float
}.

Definition final_totals (summary : list summary_row) : totals :=
  let total_entries := fold_left Z.add (map entry_count summary) 0 in
  let total_minutes := py_sum (map total_duration_minutes summary) in
  let total_hours := PrimFloat.div total_minutes 60 in
  let total_days := PrimFloat.div total_hours 24 in
  let total_months := PrimFloat.div total_days 30.4375 in
  let total_years := PrimFloat.div total_days 365.25 in
  let total_flavor_size_sum :=
    PrimFloat.div (py_sum (map flavor_size_sum summary)) 1024 in
  mktotals total_entries total_minutes total_hours total_days
           total_months total_years total_flavor_size_sum.

(** The value column of the totals table: [f"{x:>15,.2f}"] *)
Definition show_total (x : float) : string :=
  PyFloat.rjust 15 (PyFloat.format_2f x).

(** lines 342-368 *)
Definition print_report (summary : list summary_row) : M unit :=
  run print SummaryHeader;
  run (fold_right
         (fun row k =>
            run print (SummaryLine (range row)
                         (format_int (entry_count row))
                         (PyFloat.format_2f (total_duration_minutes row)));
            k)
         (ret tt) summary);
  let t := final_totals summary in
  run print TotalsHeader;
  run print (TotalLine "Entries:" (PyFloat.rjust 15 (format_int (total_entries t))));
  run print (TotalLine "Duration (mins):" (show_total (total_minutes t)));
  run print (TotalLine "Duration (hours):" (show_total (total_hours t)));
  run print (TotalLine "Duration (days):" (show_total (total_days t)));
  run print (TotalLine "Duration (months):" (show_total (total_months t)));
  run print (TotalLine "Duration (years):" (show_total (total_years t)));
  print (TotalLine "Flavor Size (GB):" (show_total (total_flavor_size_sum t))).

(** The names of the two CSV files (lines 373-393) *)
Definition csv_filename (kind : string) : string :=
  let interval_label :=
    if RESTRICTION_INTERVAL cfg =? 1 then "year"
    else if RESTRICTION_INTERVAL cfg =? 2 then "month"
    else if RESTRICTION_INTERVAL cfg =? 3 then "week"
    else if RESTRICTION_INTERVAL cfg =? 4 then "day"
    else "custom" in
  let owner_label :=
    if py_bool (Some (OWNER_ID cfg)) then OWNER_ID cfg else "noOwner" in
  let tag_label :=
    if py_bool (Some (TAG cfg)) then replace_char " "%char "_" (TAG cfg)
    else "noTag" in
  let cat_label :=
    if py_bool (Some (CATEGORY_ID cfg)) then CATEGORY_ID cfg
    else "noCategory" in
  kind +:+ pretty (PARTNER_ID cfg) +:+ "_" +:+ tag_label +:+ "_" +:+
  cat_label +:+ "_" +:+ owner_label +:+ "_" +:+ interval_label +:+ "_" +:+
  now_stamp +:+ ".csv".

(** lines 372-435; nothing catches what the making of a file raises *)
Definition export_csv (summary : list summary_row)
    (detailed_entries : list detail_row) : M unit :=
  if EXPORT_CSV cfg then
    let summary_filename := csv_filename "video_summary_" in
    let details_filename := csv_filename "video_details_" in
    run lift (write_csv summary_filename);
    run log (WroteSummaryCsv summary_filename summary);
    run lift (write_csv details_filename);
    run log (WroteDetailsCsv details_filename detailed_entries);
    print (CsvFilesCreated summary_filename details_filename)
  else ret tt.

(** The script from line 305 on.  The generator is consumed as the loop
    goes: an exception it raises surfaces after the chunks yielded
    before it have been processed. *)
Definition main_execution : M unit :=
  let '(chunks, fin) :=
    get_interval_ranges (START_DATE cfg) (END_DATE cfg)
                        (RESTRICTION_INTERVAL cfg) in
  do r <- chunk_loop chunks [] [];
  match fin with
  | Raised e => raise e
  | FuelExhausted => out_of_fuel
  | StopIteration =>
      run print_report (fst r);
      export_csv (fst r) (snd r)
  end.
End Run.

(** The whole script: the configuration, the session, the report *)
Definition script {S : Type} (api : remote S)
    (pytz_timezone : string -> result unit)
    (media_types : Z -> option string)
    (str_timedelta format_local : Z -> result string)
    (str_float : float -> string) (format_int : Z -> string)
    (py_int : string -> result Z) (strptime_date : string -> result date)
    (today : date) (day_start_ts day_end_ts : date -> result Z)
    (now_stamp : string) (write_csv : string -> result unit)
    (py_sum : list float -> float)
    (env : gmap string string) : M (world S) unit :=
  do cfg <- startup pytz_timezone py_int strptime_date today env;
  run start_session api env (PARTNER_ID cfg);
  main_execution api media_types str_timedelta format_local str_float
    format_int day_start_ts day_end_ts now_stamp write_csv py_sum cfg.

End Reporter.

(** ** Servers for the examples *)

Module Examples.


Definition image_entry : Downloader.entry :=
  Downloader.mkentry "1_img" "Poster" (Some 2)
    (Some "https://cdn.example/p/1/raw/entry_id/1_img").

Definition video_entry : Downloader.entry :=
  Downloader.mkentry "1_vid" "Lecture" (Some 1) None.

Definition playlist_entry : Downloader.entry :=
  Downloader.mkentry "1_pl" "Playlist" None None.

(** A platform with one image, one video with an original flavor, and one
    playlist; nothing has a [Content-Disposition] header. *)
Definition downloader_library : Downloader.remote unit :=
  Downloader.mkremote unit
    (fun eid s =>
       if String.eqb eid "1_img" then (Ok image_entry, s)
       else if String.eqb eid "1_vid" then (Ok video_entry, s)
       else if String.eqb eid "1_pl" then (Ok playlist_entry, s)
       else (Raise (KalturaException "ENTRY_ID_NOT_FOUND"), s))
    (fun f pageIndex s =>
       match f with
       | Downloader.parentEntryIdEqual _ => (Ok [], s)
       | _ =>
           if pageIndex =? 1
           then (Ok [image_entry; playlist_entry; video_entry], s)
           else (Ok [], s)
       end)
    (fun eid s =>
       if String.eqb eid "1_vid"
       then (Ok [Downloader.mkflavor "1_f0" false;
                 Downloader.mkflavor "1_f1" true], s)
       else (Ok [], s))
    (fun fid s =>
       (Ok ("https://cdn.example/p/1/flavorId/" +:+ fid +:+ "/video.mp4"), s))
    (fun _ s => (Ok None, s))
    (fun _ s => (Ok tt, s))
    (fun _ s => ((["bytes"], None), s)).

(** A disk on which a path is its own name and nothing else: a path exists
    once it has been made or opened for writing. *)
Definition plain_disk : Downloader.filesystem (gset string) :=
  Downloader.mkfilesystem (gset string)
    (fun path d => bool_decide (path ∈ d))
    (fun path d => (Ok tt, {[path]} ∪ d))
    (fun path d => (Ok tt, {[path]} ∪ d))
    (fun _ _ d => (Ok tt, d)).

(** [urlparse(url).path] for the URLs of [downloader_library] *)
Definition url_path (url : string) : result string :=
  Ok (Text.drop (String.length "https://cdn.example") url).

(** A download folder that already holds [video.mp4] and [video_1.mp4] *)
Definition two_videos : gset string :=
  {[ "kaltura_downloads"; "kaltura_downloads/video.mp4";
     "kaltura_downloads/video_1.mp4" ]}.

Definition sample_entry : Reporter.media_entry :=
  Reporter.mkmedia_entry "1_abc" "Lecture 1" 1 (Some 3600) 1700000000
    1700000500 None 12 "Course,Week 1" "finals" "teacher" "0,487041".

(** A platform whose first page holds one entry and whose other pages are
    empty *)
Definition reporter_one_entry : Reporter.remote unit :=
  Reporter.mkremote unit
    (fun _ _ _ s => (Ok "ks", s))
    (fun _ pageIndex s =>
       if pageIndex =? 1 then (Ok [sample_entry], s) else (Ok [], s))
    (fun _ s => (Ok [Reporter.mkflavor_asset "1_f1" 2048 true], s))
    (fun fid s =>
       (Ok ("https://cdn.example/flavorId/" +:+ fid +:+
            "/fileName/Lecture_1_(Source).mp4/name/a.mp4"), s)).


(** Stand-ins for what the Reporter takes from its libraries *)
Definition media_types (v : Z) : option string :=
  if v =? 1 then Some "VIDEO" else if v =? 2 then Some "IMAGE"
  else if v =? 5 then Some "AUDIO" else None.

Definition as_text (n : Z) : result string := Ok (pretty n).

(** A working directory in which any file whose name has no slash can be
    made *)
Definition writable (name : string) : result unit :=
  if Text.contains "/" name then Raise OtherException else Ok tt.

Definition known_timezone (zone : string) : result unit :=
  if String.eqb zone "Europe/Rome" then Ok tt else Raise KeyError.

Definition py_int (s : string) : result Z :=
  if String.eqb s "123" then Ok 123
  else if String.eqb s "3" then Ok 3
  else Raise ValueError.

Definition strptime_date (s : string) : result Calendar.date :=
  if String.eqb s "2024-01-15" then Ok (Calendar.mkdate 2024 1 15)
  else if String.eqb s "2024-03-10" then Ok (Calendar.mkdate 2024 3 10)
  else Raise ValueError.

Definition sample_config : Reporter.config :=
  Reporter.mkconfig 123 true "" "finals" "" "" None
    (Calendar.mkdate 2024 1 15) (Calendar.mkdate 2024 3 10) 2.

End Examples.

(** ** Vocabulary of the statements and of the proofs *)

(** The interval modes the Reporter offers *)
Definition supported_interval (t : Z) : Prop :=
  t = 1 \/ t = 2 \/ t = 3 \/ t = 4.

(** The month and day that [ord2ymd] derives from the zero-based day of the
    year [n] (its last nine lines). *)
Definition month_day (n : Z) (leapyear : bool) : Z * Z :=
  let m := Z.shiftr (n + 50) 5 in
  let preceding := Calendar.DAYS_BEFORE_MONTH m + Calendar.b2z ((2 <? m) && leapyear) in
  if n <? preceding then
    let m := m - 1 in
    let preceding :=
      preceding - (Calendar.DAYS_IN_MONTH m + Calendar.b2z ((m =? 2) && leapyear)) in
    (m, n - preceding + 1)
  else (m, n - preceding + 1).

Definition month_day_good (n : Z) (leapyear : bool) : bool :=
  let '(m, d) := month_day n leapyear in
  (1 <=? m) && (m <=? 12) && (1 <=? d) &&
  (d <=? Calendar.DAYS_IN_MONTH m + Calendar.b2z ((m =? 2) && leapyear)) &&
  (Calendar.DAYS_BEFORE_MONTH m + Calendar.b2z ((2 <? m) && leapyear) + d =? n + 1).

(** The first day of the month after ([y], [m]). *)
Definition month_after (y m : Z) : Z * Z :=
  if m =? 12 then (y + 1, 1) else (y, m + 1).

(** [tiles lo hi cs]: read as ordinals, the chunks [cs] cut the days
    [lo .. hi] into consecutive non-empty pieces. *)
Fixpoint tiles (lo hi : Z) (cs : list (Calendar.date * Calendar.date)) : Prop :=
  match cs with
  | [] => lo = hi + 1
  | c :: rest =>
      Calendar.date_valid (fst c) = true /\ Calendar.date_valid (snd c) = true /\
      Calendar.toordinal (fst c) = lo /\ lo <= Calendar.toordinal (snd c) <= hi /\
      tiles (Calendar.toordinal (snd c) + 1) hi rest
  end.

(** No match of the pattern starts anywhere in [s]. *)
Fixpoint no_match (p : Regex.pattern) (s : string) : Prop :=
  Regex.match_here p s = None /\
  match s with
  | String _ s' => no_match p s'
  | EmptyString => True
  end.

(** The Republish world once the three opening lines of an entry are
    printed *)
Definition announced {S : Type} (entry_id category_id : string)
    (w : Republish.world S) : Republish.world S :=
  Republish.mkworld (Republish.server w)
    (Republish.trace w ++
     [Republish.Printed Republish.Separator;
      Republish.Printed (Republish.Processing entry_id category_id);
      Republish.Printed Republish.Removing]).

(** An add call in a trace of the Republish workflow *)
Definition is_add (ev : Republish.event) : bool :=
  match ev with
  | Republish.Called (Republish.CategoryEntryAdd _ _) => true
  | _ => false
  end.

(** A [baseEntry.get] call, and a flavor call, in a trace of the Downloader *)
Definition is_get (ev : Downloader.event) : bool :=
  match ev with
  | Downloader.Called (Downloader.BaseEntryGet _) => true
  | _ => false
  end.

Definition is_flavor_call (ev : Downloader.event) : bool :=
  match ev with
  | Downloader.Called (Downloader.FlavorAssetList _)
  | Downloader.Called (Downloader.FlavorAssetGetUrl _) => true
  | _ => false
  end.


(** The paths of [files] that are at least [n] characters long: the measure
    of the Downloader's collision loop *)
Definition at_least (n : nat) (files : gset string) : gset string :=
  filter (fun p => (n <= String.length p)%nat) files.

(** ** unpublish-republish-entry.py: configuration and inputs (lines 32-97)

    The part of the script that runs before the loop: the environment, the
    session, the entry IDs and the category.  It has prompts, calls and
    lines of its own; what the loop logs is carried along as [Looped]
    events. *)

Module RepublishScript.
Import Text.

(** [c.lower()] for a code point below 256 *)
Definition lower_char (c : ascii) : ascii :=
  let n := code c in
  if ((65 <=? n) && (n <=? 90)) ||
     ((192 <=? n) && (n <=? 222) && negb (n =? 215))
  then Ascii.ascii_of_N (Z.to_N (n + 32))
  else c.

(** [s.lower()] *)
Fixpoint lower (s : string) : string :=
  match s with
  | String c s' => String (lower_char c) (lower s')
  | EmptyString => EmptyString
  end.

(** The truth value of a string *)
Definition truthy (s : string) : bool :=
  match s with
  | String _ _ => true
  | EmptyString => false
  end.

(** [os.getenv(key, fallback)] *)
Definition getenv (env : gmap string string) (key fallback : string)
    : string :=
  default fallback (env !! key).

(** [[e.strip() for e in raw.split(",") if e.strip()]] (lines 64 and 67) *)
Definition entry_ids_of (raw : string) : list string :=
  map (strip is_space)
      (List.filter (fun e => truthy (strip is_space e)) (split raw ",")).

Record category : Type := mkcategory {
  category_id : Z
}.

Inductive request : Type :=
| SessionStart (admin_secret user_id : string) (partner_id : Z)
               (privileges : string)
| CategoryList (fullNameEqual : string).

Inductive message : Type :=
| CredentialsMissing
| NoEntryIds
| PrefixMissing
| NoCategoryFound (full_name : string)
| FoundCategory (category_id full_name : string)
| NoCategoryId
| UsingCategory (category_id : string).

Inductive event : Type :=
| Called (r : request)
| Printed (m : message)
| Prompted (text : string)
| Looped (e : Republish.event).

(** [client.session.start] and [client.category.list]; the answer of the
    latter is the [objects] of the list response, [None] when it has
    none. *)
Record remote (S : Type) : Type := mkremote {
  session_start : string -> string -> Z -> string -> S -> result string * S;
  category_list : string -> S -> result (option (list category)) * S
}.
Arguments session_start {S}.
Arguments category_list {S}.

Record world (S : Type) : Type := mkworld {
  server : S;
  stdin : list string;
  trace : list event
}.
Arguments mkworld {S}.
Arguments server {S}.
Arguments stdin {S}.
Arguments trace {S}.

Section Run.
Context {S : Type} (api : remote S) (loop_api : Republish.remote S).
(** [int(s)] *)
Context (py_int : string -> result Z).
(** the environment once [load_dotenv] has run *)
Context (env : gmap string string).

Abbreviation M := (M (world S)).

Definition log (ev : event) : M unit :=
  fun w => (Return tt, mkworld (server w) (stdin w) (trace w ++ [ev])).

Definition print (m : message) : M unit := log (Printed m).

Definition call {R} (r : request) (f : S -> result R * S) : M (result R) :=
  fun w =>
    let '(res, s') := f (server w) in
    (Return res, mkworld s' (stdin w) (trace w ++ [Called r])).

(** [input(text)]: the next line typed, [EOFError] when there is none *)
Definition input (text : string) : M string :=
  fun w =>
    match stdin w with
    | line :: rest =>
        (Return line, mkworld (server w) rest (trace w ++ [Prompted text]))
    | [] =>
        (Uncaught EOFError,
         mkworld (server w) [] (trace w ++ [Prompted text]))
    end.

Definition lift {A} (r : result A) : M A :=
  match r with
  | Ok a => ret a
  | Raise e => raise e
  end.

(** lines 32-41 *)
Definition PARTNER_ID : string := getenv env "PARTNER_ID" "".
Definition ADMIN_SECRET : string := getenv env "ADMIN_SECRET" "".
Definition USER_ID : string := getenv env "USER_ID" "api-gbdavis".
Definition PRIVILEGES : string :=
  getenv env "PRIVILEGES" "all:*,disableentitlement".
Definition USE_CATEGORY_NAME : bool :=
  let v := lower (getenv env "USE_CATEGORY_NAME" "False") in
  String.eqb v "1" || String.eqb v "true" || String.eqb v "yes".
Definition CATEGORY_PATH_PREFIX : string :=
  getenv env "CATEGORY_PATH_PREFIX" "".
Definition CHANNEL_NAME_ENV : string :=
  strip is_space (getenv env "CHANNEL_NAME" "").
Definition ENV_ENTRY_IDS : string :=
  strip is_space (getenv env "ENTRY_IDS" "").

(** lines 44-60 *)
Definition start_session : M unit :=
  if negb (truthy PARTNER_ID) || negb (truthy ADMIN_SECRET) then
    run print CredentialsMissing;
    exit 1
  else
    do partner_id <- lift (py_int PARTNER_ID);
    do ks <- call (SessionStart ADMIN_SECRET USER_ID partner_id PRIVILEGES)
                  (session_start api ADMIN_SECRET USER_ID partner_id
                                 PRIVILEGES);
    match ks with
    | Ok _ => ret tt
    | Raise e => raise e
    end.

(** lines 63-71 *)
Definition read_entry_ids : M (list string) :=
  do entry_ids <-
    (if truthy ENV_ENTRY_IDS then ret (entry_ids_of ENV_ENTRY_IDS)
     else
       do raw <- input "Entry ID(s) (comma-separated if multiple): ";
       ret (entry_ids_of (strip is_space raw)));
  match entry_ids with
  | [] => run print NoEntryIds; exit 1
  | _ => ret entry_ids
  end.

(** lines 73-97 *)
Definition read_category_id : M string :=
  if USE_CATEGORY_NAME then
    if negb (truthy CATEGORY_PATH_PREFIX) then
      run print PrefixMissing;
      exit 1
    else
      do channel_name <-
        (if truthy CHANNEL_NAME_ENV then ret CHANNEL_NAME_ENV
         else
           do a <- input "Channel name (e.g., Canvas course ID): ";
           ret (strip is_space a));
      let full_name := CATEGORY_PATH_PREFIX +:+ channel_name in
      do r <- call (CategoryList full_name) (category_list api full_name);
      match r with
      | Raise e => raise e
      | Ok cat_objs =>
          match default [] cat_objs with
          | [] => run print (NoCategoryFound full_name); exit 1
          | first :: _ =>
              let category_id := pretty (category_id first) in
              run print (FoundCategory category_id full_name);
              ret category_id
          end
      end
  else
    do a <- input "Category ID: ";
    let category_id := strip is_space a in
    if negb (truthy category_id) then
      run print NoCategoryId;
      exit 1
    else
      run print (UsingCategory category_id);
      ret category_id.

(** lines 44-97: what the loop works on *)
Definition prepare : M (list string * string) :=
  run start_session;
  do entry_ids <- read_entry_ids;
  do category_id <- read_category_id;
  ret (entry_ids, category_id).

(** The loop of lines 142-173, run on the platform as [prepare] left
    it *)
Definition loop (entry_ids : list string) (category_id : string)
    : M unit :=
  fun w =>
    let '(o, lw) :=
      Republish.process_entries loop_api entry_ids category_id
        (Republish.mkworld (server w) []) in
    (o, mkworld (Republish.server lw) (stdin w)
                (trace w ++ map Looped (Republish.trace lw))).

Definition script : M unit :=
  do p <- prepare;
  loop (fst p) (snd p).
End Run.

End RepublishScript.

(** ** download-entries.py: [main] and [get_kaltura_client]

    [main] up to the listing has prompts, a call and lines of its own; what
    the rest of the run logs is carried along as [Ran] events. *)

Module DownloaderScript.
Import Text.

Inductive request : Type :=
| SessionStart (admin_secret : string) (partner_id : string).

Inductive message : Type :=
| SelectMethod
| OptionTag
| OptionCategory
| OptionEntryIds
| OptionOwner
| InvalidChoice
| InvalidIdentifier.

Inductive event : Type :=
| Called (r : request)
| Printed (m : message)
| Prompted (text : string)
| Ran (e : Downloader.event).

Record world (S D : Type) : Type := mkworld {
  server : S;
  disk : D;
  stdin : list string;
  trace : list event
}.
Arguments mkworld {S D}.
Arguments server {S D}.
Arguments disk {S D}.
Arguments stdin {S D}.
Arguments trace {S D}.

(** [method_mapping] (lines 270-272) *)
Definition method_mapping (method_choice : string) : option string :=
  if String.eqb method_choice "1" then Some "tag"
  else if String.eqb method_choice "2" then Some "category"
  else if String.eqb method_choice "3" then Some "entry_ids"
  else if String.eqb method_choice "4" then Some "owner_id"
  else None.

Section Run.
Context {S D : Type} (api : Downloader.remote S)
        (fs : Downloader.filesystem D).
(** [client.session.start(admin_secret, "admin", ADMIN, partner_id, ...)] *)
Context (session_start : string -> string -> S -> result string * S).
Context (urlparse_path : string -> result string).

(** A stretch of the run that belongs to the functions of
    [Downloader]: it starts from the platform and the disk as they are
    and its log is appended. *)
Definition ran {A} (m : M (Downloader.world S D) A) : M (world S D) A :=
  fun w =>
    let '(o, dw) := m (Downloader.mkworld (server w) (disk w) []) in
    (o, mkworld (Downloader.server dw) (Downloader.disk dw) (stdin w)
                (trace w ++ map Ran (Downloader.trace dw))).

Abbreviation M := (M (world S D)).

Definition log (ev : event) : M unit :=
  fun w =>
    (Return tt, mkworld (server w) (disk w) (stdin w) (trace w ++ [ev])).

Definition print (m : message) : M unit := log (Printed m).

Definition input (text : string) : M string :=
  fun w =>
    match stdin w with
    | line :: rest =>
        (Return line,
         mkworld (server w) (disk w) rest (trace w ++ [Prompted text]))
    | [] =>
        (Uncaught EOFError,
         mkworld (server w) (disk w) [] (trace w ++ [Prompted text]))
    end.

(** [get_kaltura_client] (lines 38-47): an exception of the session
    start is not caught *)
Definition get_kaltura_client (partner_id admin_secret : string) : M unit :=
  fun w =>
    let '(res, s') := session_start admin_secret partner_id (server w) in
    let w' := mkworld s' (disk w) (stdin w)
                (trace w ++ [Called (SessionStart admin_secret partner_id)]) in
    match res with
    | Ok _ => (Return tt, w')
    | Raise e => (Uncaught e, w')
    end.

(** [main] (lines 255-298); [fuel] bounds each [while] loop *)
Definition main (fuel : nat) : M unit :=
  do partner_id <- input "Enter your Partner ID: ";
  do admin_secret <- input "Enter your Admin Secret: ";
  run get_kaltura_client (strip is_space partner_id)
                         (strip is_space admin_secret);
  run print SelectMethod;
  run print OptionTag;
  run print OptionCategory;
  run print OptionEntryIds;
  run print OptionOwner;
  do method_choice <-
    input "Enter the number corresponding to your choice: ";
  match method_mapping (strip is_space method_choice) with
  | None => print InvalidChoice
  | Some method =>
      do identifier <- input "Enter the identifier: ";
      let identifier := strip is_space identifier in
      if RepublishScript.truthy identifier then
        ran (Downloader.main_from_listing api fs urlparse_path fuel
                                          method identifier)
      else print InvalidIdentifier
  end.
End Run.

End DownloaderScript.

(** ** Vocabulary of the further properties *)

(** What a chunk of each mode looks like: a yearly chunk stays within one
    calendar year and a monthly chunk within one calendar month, and each
    ends with its period unless the range ends first; a weekly chunk ends
    six days after its start, or at the end of the range; a daily chunk is a
    single day. *)
Definition chunk_fits (interval_type : Z) (end_date : Calendar.date)
    (c : Calendar.date * Calendar.date) : Prop :=
  if interval_type =? 1 then
    Calendar.year (snd c) = Calendar.year (fst c) /\
    (snd c = end_date \/
     (Calendar.month (snd c) = 12 /\ Calendar.day (snd c) = 31))
  else if interval_type =? 2 then
    Calendar.year (snd c) = Calendar.year (fst c) /\
    Calendar.month (snd c) = Calendar.month (fst c) /\
    (snd c = end_date \/
     Calendar.day (snd c)
     = Calendar.days_in_month (Calendar.year (fst c)) (Calendar.month (fst c)))
  else if interval_type =? 3 then
    Calendar.toordinal (snd c)
    = Z.min (Calendar.toordinal (fst c) + 6) (Calendar.toordinal end_date)
  else snd c = fst c.

(** The number of occurrences of the character [x] in [s] *)
Fixpoint count_char (x : ascii) (s : string) : nat :=
  match s with
  | String c s' => (if Ascii.eqb c x then 1 else 0) + count_char x s'
  | EmptyString => 0
  end.

Definition sum_Z (l : list Z) : Z := fold_right Z.add 0 l.

(** The platform answers the Reporter's query [filter], from page
    [pageIndex] and state [s] on, with the non-empty pages [pages] and then
    an empty page, which leaves it in state [s_end]. *)
Fixpoint reporter_serves {S : Type} (api : Reporter.remote S)
    (filter : Reporter.media_filter) (pageIndex : Z) (s : S)
    (pages : list (list Reporter.media_entry)) (s_end : S) : Prop :=
  match pages with
  | [] => Reporter.media_list api filter pageIndex s = (Ok [], s_end)
  | page :: rest =>
      page <> [] /\
      exists s1,
        Reporter.media_list api filter pageIndex s = (Ok page, s1) /\
        reporter_serves api filter (pageIndex + 1) s1 rest s_end
  end.

(** What a chunk query without enrichment logs for these pages: one list
    call and one line per page, and the list call that finds the empty
    page. *)
Fixpoint reporter_page_events (filter : Reporter.media_filter)
    (pageIndex : Z) (pages : list (list Reporter.media_entry))
    : list Reporter.event :=
  match pages with
  | [] => [Reporter.Called (Reporter.MediaList filter pageIndex)]
  | page :: rest =>
      Reporter.Called (Reporter.MediaList filter pageIndex) ::
      Reporter.Printed
        (Reporter.ProcessingPage pageIndex (Z.of_nat (length page))) ::
      reporter_page_events filter (pageIndex + 1) rest
  end.

(** The flavor count of an entry when the enrichment is off (line 247) *)
Definition listed_flavor_count (entry : Reporter.media_entry) : Z :=
  Z.of_nat (length (Text.split (Reporter.flavorParamsIds entry) ",")).

(** ** More servers for the examples *)

Module MoreExamples.

(** An entry whose media type is not among [Examples.media_types] *)
Definition unnamed_type_entry : Reporter.media_entry :=
  Reporter.mkmedia_entry "1_odd" "Untitled" 99 None 1700000000 1700000500
    None 0 "" "" "teacher" "".

(** A platform whose first page holds [Examples.sample_entry] and
    [unnamed_type_entry] *)
Definition reporter_unnamed_type : Reporter.remote unit :=
  Reporter.mkremote unit
    (fun _ _ _ s => (Ok "ks", s))
    (fun _ pageIndex s =>
       if pageIndex =? 1
       then (Ok [Examples.sample_entry; unnamed_type_entry], s)
       else (Ok [], s))
    (fun _ s => (Ok [], s))
    (fun _ s => (Raise (KalturaException "FLAVOR_ASSET_ID_NOT_FOUND"), s)).

(** The epoch seconds of the first and of the last second of a day, for a
    machine on UTC *)
Definition day_start (d : Calendar.date) : result Z :=
  Ok ((Calendar.toordinal d - 719163) * 86400).

Definition day_end (d : Calendar.date) : result Z :=
  Ok ((Calendar.toordinal d - 719163) * 86400 + 86399).

Definition lecture (id : string) (seconds : Z) : Reporter.media_entry :=
  Reporter.mkmedia_entry id "Lecture" 1 (Some seconds) 1700000000
    1700000500 None 0 "" "" "teacher" "0".

(** A platform with one entry of 3600 seconds created in January 2024 and
    one of 7200 seconds created later *)
Definition reporter_two_chunks : Reporter.remote unit :=
  Reporter.mkremote unit
    (fun _ _ _ s => (Ok "ks", s))
    (fun f pageIndex s =>
       if pageIndex =? 1 then
         if Reporter.createdAtLessThanOrEqual f <=? 1706745599
         then (Ok [lecture "1_jan" 3600], s)
         else (Ok [lecture "1_feb" 7200], s)
       else (Ok [], s))
    (fun _ s => (Ok [], s))
    (fun _ s => (Raise (KalturaException "FLAVOR_ASSET_ID_NOT_FOUND"), s)).

(** January and February 2024, by month, without export *)
Definition two_months_config : Reporter.config :=
  Reporter.mkconfig 123 false "" "" "" "" None
    (Calendar.mkdate 2024 1 1) (Calendar.mkdate 2024 2 29) 2.

(** [Examples.sample_config] with a restriction interval of 7 *)
Definition config_interval_7 : Reporter.config :=
  Reporter.mkconfig 123 true "" "finals" "" "" None
    (Calendar.mkdate 2024 1 15) (Calendar.mkdate 2024 3 10) 7.

End MoreExamples.

(** The label of a chunk in the summary (lines 323-326) *)
Definition chunk_label (c : Calendar.date * Calendar.date) : string :=
  Reporter.strftime_ymd (fst c) +:+ " to " +:+ Reporter.strftime_ymd (snd c).

(** The counter of entries and the list of rows of a chunk query are in
    step. *)
Definition in_step (c : Reporter.counters) : Prop :=
  Reporter.c_entry_count c = Z.of_nat (length (Reporter.c_all_entries c)).

(** The seconds that a detail row counts for *)
Definition row_seconds (row : Reporter.detail_row) : Z :=
  default 0 (Reporter.row_duration_sec row).

(** The seconds counted by a chunk query are those of its detail rows. *)
Definition durations_add_up (c : Reporter.counters) : Prop :=
  Reporter.c_total_duration c
  = sum_Z (map row_seconds (Reporter.c_all_entries c)).

(** A summary row holds what its chunk query counted: the entries, the
    seconds as minutes and the kilobytes as megabytes, each quotient rounded
    to two decimals. *)
Definition row_of_counters (c : Reporter.counters)
    (row : Reporter.summary_row) : Prop :=
  exists minutes megabytes,
    PyFloat.truediv_int (Reporter.c_total_duration c) 60 = Ok minutes /\
    PyFloat.truediv_int (Reporter.c_total_flavor_size c) 1024 = Ok megabytes /\
    Reporter.entry_count row = Reporter.c_entry_count c /\
    Reporter.total_duration_minutes row = PyFloat.round2 minutes /\
    Reporter.flavor_size_sum row = PyFloat.round2 megabytes.

(** The lines of the totals table among the events of a run *)
Fixpoint total_lines (evs : list Reporter.event) : list (string * string) :=
  match evs with
  | [] => []
  | Reporter.Printed (Reporter.TotalLine label value) :: rest =>
      (label, value) :: total_lines rest
  | _ :: rest => total_lines rest
  end.

(** A prompt among the lines a run of the Reporter printed *)
Definition is_prompt (ev : Reporter.event) : bool :=
  match ev with
  | Reporter.Printed (Reporter.Prompt _) => true
  | _ => false
  end.

(** One of the two lines that introduce the interval prompt (lines
    108-109) *)
Definition is_interval_line (ev : Reporter.event) : bool :=
  match ev with
  | Reporter.Printed Reporter.SelectInterval
  | Reporter.Printed Reporter.IntervalChoices => true
  | _ => false
  end.

Definition prompts_in (evs : list Reporter.event) : nat :=
  length (List.filter is_prompt evs).

Definition interval_lines_in (evs : list Reporter.event) : nat :=
  length (List.filter is_interval_line evs).

(** Between the worlds [w] and [w'] the Reporter only asked: the platform
    is as it was; what was printed is prompts, at most [n] of them, and at
    most [k] lines that introduce the interval prompt; and each line taken
    from the input answers one prompt. *)
Definition asks {S : Type} (n k : nat) (w w' : Reporter.world S) : Prop :=
  Reporter.server w' = Reporter.server w /\
  exists evs used,
    Reporter.trace w' = Reporter.trace w ++ evs /\
    forallb (fun ev => is_prompt ev || is_interval_line ev) evs = true /\
    (prompts_in evs <= n)%nat /\
    (interval_lines_in evs <= k)%nat /\
    Reporter.stdin w = used ++ Reporter.stdin w' /\
    (length used <= prompts_in evs)%nat.

(** The computation [m] only asks, at most [n] times and with at most [k]
    lines before the interval prompt, from any world and however it ends. *)
Definition only_asks {S A : Type} (n k : nat) (m : M (Reporter.world S) A)
    : Prop :=
  forall w o w', m w = (o, w') -> asks n k w w'.

(** The platform answers the Downloader's listing with filter [f], from page
    [pageIndex] and state [s] on, with the non-empty pages [pages] and then
    with [final], which leaves it in state [s_end]. *)
Fixpoint downloader_serves {S : Type} (api : Downloader.remote S)
    (f : Downloader.entry_filter) (pageIndex : Z) (s : S)
    (pages : list (list Downloader.entry))
    (final : result (list Downloader.entry)) (s_end : S) : Prop :=
  match pages with
  | [] => Downloader.baseEntry_list api f pageIndex s = (final, s_end)
  | page :: rest =>
      page <> [] /\
      exists s1,
        Downloader.baseEntry_list api f pageIndex s = (Ok page, s1) /\
        downloader_serves api f (pageIndex + 1) s1 rest final s_end
  end.

(** [n] list calls in a row, from page [pageIndex] on *)
Fixpoint listing_calls (f : Downloader.entry_filter) (pageIndex : Z) (n : nat)
    : list Downloader.event :=
  match n with
  | O => []
  | S n' =>
      Downloader.Called (Downloader.BaseEntryList f pageIndex) ::
      listing_calls f (pageIndex + 1) n'
  end.

(** The filter that [get_entries] sets for a method (lines 72-82) *)
Definition method_filter (method identifier : string)
    : option Downloader.entry_filter :=
  if String.eqb method "tag" then Some (Downloader.tagsLike identifier)
  else if String.eqb method "category"
       then Some (Downloader.categoryAncestorIdIn identifier)
  else if String.eqb method "entry_ids" then Some (Downloader.idIn identifier)
  else if String.eqb method "owner_id"
       then Some (Downloader.userIdEqual identifier)
  else None.

(** The remote calls among the events of a Downloader run, in order *)
Fixpoint downloader_calls (evs : list Downloader.event)
    : list Downloader.request :=
  match evs with
  | [] => []
  | Downloader.Called r :: rest => r :: downloader_calls rest
  | _ :: rest => downloader_calls rest
  end.

(** The paths a stretch of a Downloader run wrote, in order *)
Fixpoint wrote_paths (evs : list Downloader.event) : list string :=
  match evs with
  | [] => []
  | Downloader.Wrote p :: rest => p :: wrote_paths rest
  | _ :: rest => wrote_paths rest
  end.

(** The file system keeps what exists: no operation of the script makes a
    path that exists disappear, and a path opened for writing exists
    afterwards. *)
Definition keeps_files {D : Type} (fs : Downloader.filesystem D) : Prop :=
  (forall q d r d' p,
      Downloader.os_makedirs fs q d = (r, d') ->
      Downloader.os_path_exists fs p d = true ->
      Downloader.os_path_exists fs p d' = true) /\
  (forall q d r d' p,
      Downloader.open_wb fs q d = (r, d') ->
      Downloader.os_path_exists fs p d = true ->
      Downloader.os_path_exists fs p d' = true) /\
  (forall q chunk d r d' p,
      Downloader.file_write fs q chunk d = (r, d') ->
      Downloader.os_path_exists fs p d = true ->
      Downloader.os_path_exists fs p d' = true) /\
  (forall q d d',
      Downloader.open_wb fs q d = (Ok tt, d') ->
      Downloader.os_path_exists fs q d' = true).

(** From [w] to [w'] a Downloader run only added to its log; the paths it
    opened for writing are pairwise distinct, none of them existed in [w]
    and all of them exist in [w']; and what existed in [w] exists in
    [w']. *)
Definition fresh_step {S D : Type} (fs : Downloader.filesystem D)
    (w w' : Downloader.world S D) : Prop :=
  exists evs,
    Downloader.trace w' = Downloader.trace w ++ evs /\
    NoDup (wrote_paths evs) /\
    (forall p, In p (wrote_paths evs) ->
               Downloader.os_path_exists fs p (Downloader.disk w) = false /\
               Downloader.os_path_exists fs p (Downloader.disk w') = true) /\
    (forall p, Downloader.os_path_exists fs p (Downloader.disk w) = true ->
               Downloader.os_path_exists fs p (Downloader.disk w') = true).

(** From [w] to [w'] a Downloader run only added to its log. *)
Definition trace_grows {S D : Type} (w w' : Downloader.world S D) : Prop :=
  exists evs, Downloader.trace w' = Downloader.trace w ++ evs.

(** Every run of [m], however it ends, relates the world it started from to
    the world it leaves by [R]. *)
Definition keeps {W A : Type} (R : W -> W -> Prop) (m : M W A) : Prop :=
  forall w o w', m w = (o, w') -> R w w'.

(** The path that the name [name] gets in the download folder does not
    exist in [w]. *)
Definition join_free {S D : Type} (fs : Downloader.filesystem D)
    (name : string) (w : Downloader.world S D) : Prop :=
  Downloader.os_path_exists fs
    (Text.join Downloader.DOWNLOAD_FOLDER name) (Downloader.disk w) = false.

(** The remote calls among the events of a Republish run, in order *)
Fixpoint calls_of (evs : list Republish.event) : list Republish.request :=
  match evs with
  | [] => []
  | Republish.Called r :: rest => r :: calls_of rest
  | _ :: rest => calls_of rest
  end.

(** The call sequences of one entry of the Republish loop: list, delete
    unless the association is not active, list to verify, add, list to
    verify; a sequence ends early where a call fails or a check stops the
    entry. *)
Definition republish_sequences (entry_id category_id : string)
    : list (list Republish.request) :=
  let l := Republish.CategoryEntryList category_id entry_id in
  let d := Republish.CategoryEntryDelete entry_id category_id in
  let a := Republish.CategoryEntryAdd category_id entry_id in
  [ [l]; [l; d]; [l; l]; [l; d; l]; [l; l; a]; [l; d; l; a];
    [l; l; a; l]; [l; d; l; a; l] ].

(** An entry ID as the Republish loop gets it: not empty, without
    whitespace around it and without a comma *)
Definition clean_id (id : string) : Prop :=
  id <> "" /\ Text.strip Text.is_space id = id /\ count_char "," id = 0%nat.

(** A platform that reports one association and sends no object *)
Definition republish_no_objects : Republish.remote unit :=
  Republish.mkremote unit
    (fun _ _ s => (Ok (Republish.mklist_response (Some 1) []), s))
    (fun _ _ s => (Ok tt, s))
    (fun _ _ s => (Ok tt, s)).

(** An event of the loop among the events of the Republish script *)
Definition is_looped (ev : RepublishScript.event) : bool :=
  match ev with
  | RepublishScript.Looped _ => true
  | _ => false
  end.

(** From [w] to [w'] the Republish script only added to its log, and
    nothing of the loop. *)
Definition before_loop {S : Type} (w w' : RepublishScript.world S) : Prop :=
  exists evs,
    RepublishScript.trace w' = RepublishScript.trace w ++ evs /\
    forallb (fun ev => negb (is_looped ev)) evs = true.

(** [m] belongs to the preparation: it logs nothing of the loop, and when
    it exits the status is 1. *)
Definition prepares {S A : Type} (m : M (RepublishScript.world S) A) : Prop :=
  forall w o w',
    m w = (o, w') ->
    before_loop w w' /\ (forall status, o = Exit status -> status = 1).

(** An event of the functions of [Downloader] among the events of [main] *)
Definition is_ran (ev : DownloaderScript.event) : bool :=
  match ev with
  | DownloaderScript.Ran _ => true
  | _ => false
  end.

(** The filter that a choice of the menu of [main] stands for *)
Definition choice_filter (method_choice identifier : string)
    : option Downloader.entry_filter :=
  if String.eqb method_choice "1" then Some (Downloader.tagsLike identifier)
  else if String.eqb method_choice "2"
       then Some (Downloader.categoryAncestorIdIn identifier)
  else if String.eqb method_choice "3" then Some (Downloader.idIn identifier)
  else if String.eqb method_choice "4"
       then Some (Downloader.userIdEqual identifier)
  else None.

(** A platform for the examples of the Republish script: every session
    starts, and every category name is that of category 42. *)
Definition script_platform : RepublishScript.remote (list (string * string * Z)) :=
  RepublishScript.mkremote (list (string * string * Z))
    (fun _ _ _ _ s => (Ok "ks", s))
    (fun _ s => (Ok (Some [RepublishScript.mkcategory 42]), s)).

(** * Properties of the calendar *)

Section CalendarFacts.
Import Calendar.

Lemma days_before_year_succ y :
  days_before_year (y + 1) = days_before_year y + 365 + b2z (is_leap y).
Proof.
  unfold days_before_year, is_leap, b2z. cbv zeta.
  replace (y + 1 - 1) with y by lia.
  destruct (y mod 4 =? 0) eqn:E4; destruct (y mod 100 =? 0) eqn:E100;
    destruct (y mod 400 =? 0) eqn:E400; simpl;
    rewrite ?Z.eqb_eq, ?Z.eqb_neq in *;
    Z.to_euclidean_division_equations; lia.
Qed.

Lemma b2z_range b : 0 <= b2z b <= 1.
Proof. destruct b; simpl; lia. Qed.

Lemma days_before_year_mono y1 y2 :
  y1 <= y2 -> days_before_year y1 <= days_before_year y2.
Proof.
  intros H. replace y2 with (y1 + (y2 - y1)) by lia.
  assert (Hk : 0 <= y2 - y1) by lia. revert Hk.
  generalize (y2 - y1). clear H y2.
  apply (natlike_ind (fun k => days_before_year y1 <= days_before_year (y1 + k))).
  - rewrite Z.add_0_r. lia.
  - intros k Hk IH. replace (y1 + Z.succ k) with (y1 + k + 1) by lia.
    rewrite days_before_year_succ. pose proof (b2z_range (is_leap (y1 + k))). lia.
Qed.

(** The closed form of [days_before_year] on the digits that [ord2ymd]
    extracts. *)
Lemma days_before_year_digits a b c d :
  0 <= b <= 3 -> 0 <= c <= 24 -> 0 <= d <= 3 ->
  days_before_year (a * 400 + 1 + b * 100 + c * 4 + d)
  = a * 146097 + b * 36524 + c * 1461 + d * 365.
Proof.
  intros Hb Hc Hd. unfold days_before_year. cbv zeta.
  Z.to_euclidean_division_equations. lia.
Qed.

Lemma is_leap_digits a b c d :
  0 <= b <= 3 -> 0 <= c <= 24 -> 0 <= d <= 3 ->
  is_leap (a * 400 + 1 + b * 100 + c * 4 + d)
  = (d =? 3) && (negb (c =? 24) || (b =? 3)).
Proof.
  intros Hb Hc Hd. unfold is_leap.
  apply eq_true_iff_eq.
  rewrite !andb_true_iff, !orb_true_iff, !negb_true_iff, !Z.eqb_eq, !Z.eqb_neq.
  Z.to_euclidean_division_equations. lia.
Qed.

Lemma month_day_table :
  forallb (fun k => month_day_good (Z.of_nat k) false) (seq 0 365) &&
  forallb (fun k => month_day_good (Z.of_nat k) true) (seq 0 366) = true.
Proof. vm_compute. reflexivity. Qed.

Lemma month_day_spec n leapyear :
  0 <= n < 365 + b2z leapyear ->
  month_day_good n leapyear = true.
Proof.
  intros Hn. pose proof month_day_table as T.
  apply andb_true_iff in T. destruct T as [T0 T1].
  rewrite forallb_forall in T0, T1.
  replace n with (Z.of_nat (Z.to_nat n)) by lia.
  destruct leapyear; simpl in Hn; [apply T1 | apply T0];
    apply in_seq; lia.
Qed.

Lemma ord2ymd_unfold n :
  ord2ymd n =
    let n0 := n - 1 in
    let n400 := n0 / DI400Y in
    let r0 := n0 mod DI400Y in
    let n100 := r0 / DI100Y in
    let r1 := r0 mod DI100Y in
    let n4 := r1 / DI4Y in
    let r2 := r1 mod DI4Y in
    let n1 := r2 / 365 in
    let r3 := r2 mod 365 in
    let y := n400 * 400 + 1 + n100 * 100 + n4 * 4 + n1 in
    if (n1 =? 4) || (n100 =? 4) then mkdate (y - 1) 12 31
    else
      let leapyear := (n1 =? 3) && (negb (n4 =? 24) || (n100 =? 3)) in
      let '(m, d) := month_day r3 leapyear in mkdate y m d.
Proof.
  unfold ord2ymd, month_day. cbv zeta.
  repeat match goal with |- context [if ?b then _ else _] => destruct b end;
    reflexivity.
Qed.

Lemma days_in_month_alt y m :
  days_in_month y m = DAYS_IN_MONTH m + b2z ((m =? 2) && is_leap y).
Proof.
  unfold days_in_month. destruct ((m =? 2) && is_leap y) eqn:E; simpl; [|lia].
  apply andb_true_iff in E. destruct E as [E _]. apply Z.eqb_eq in E.
  subst m. reflexivity.
Qed.

(** [fromordinal] is a right inverse of [toordinal] on the supported
    ordinals, and lands on well-formed dates. *)
Lemma ord2ymd_sound n :
  1 <= n <= MAXORDINAL ->
  date_valid (ord2ymd n) = true /\ toordinal (ord2ymd n) = n.
Proof.
  intros Hn. rewrite ord2ymd_unfold. cbv zeta.
  unfold DI400Y, DI100Y, DI4Y, MAXORDINAL in *.
  set (n0 := n - 1).
  set (n400 := n0 / 146097). set (r0 := n0 mod 146097).
  set (n100 := r0 / 36524). set (r1 := r0 mod 36524).
  set (n4 := r1 / 1461). set (r2 := r1 mod 1461).
  set (n1 := r2 / 365). set (r3 := r2 mod 365).
  assert (Hdig : 0 <= n400 <= 24 /\ 0 <= n100 <= 4 /\ 0 <= n4 <= 24 /\
                 0 <= n1 <= 4 /\ 0 <= r3 < 365 /\
                 n0 = n400 * 146097 + n100 * 36524 + n4 * 1461 + n1 * 365 + r3 /\
                 (n100 = 4 -> n4 = 0 /\ n1 = 0 /\ r3 = 0) /\
                 (n1 = 4 -> r3 = 0) /\ (n4 = 24 -> n100 < 4 -> n1 < 4)).
  { subst n400 r0 n100 r1 n4 r2 n1 r3 n0.
    Z.to_euclidean_division_equations. lia. }
  clearbody n400 n100 n4 n1 r3 r0 r1 r2.
  destruct Hdig as (H400 & H100 & H4 & H1 & H3 & Hsum & Hc100 & Hc1 & Hc4).
  destruct ((n1 =? 4) || (n100 =? 4)) eqn:Esp.
  - (* the last day of a leap year *)
    apply orb_true_iff in Esp. rewrite !Z.eqb_eq in Esp.
    assert (Hy : exists b c, 0 <= b <= 3 /\ 0 <= c <= 24 /\
                 n400 * 400 + 1 + n100 * 100 + n4 * 4 + n1 - 1
                 = (n400 * 400 + 1 + b * 100 + c * 4 + 3) /\
                 n0 + 1 = n400 * 146097 + b * 36524 + c * 1461 + 3 * 365 + 366 /\
                 (c <> 24 \/ b = 3)).
    { destruct (Z.eq_dec n100 4) as [E|E].
      - exists 3, 24. lia.
      - exists n100, n4. lia. }
    destruct Hy as (b & c & Hb & Hc & Hyear & Hord & Hleap).
    rewrite Hyear.
    assert (HL : is_leap (n400 * 400 + 1 + b * 100 + c * 4 + 3) = true).
    { rewrite is_leap_digits by lia. 
      apply andb_true_iff. split; [reflexivity|].
      apply orb_true_iff. rewrite negb_true_iff, Z.eqb_neq, Z.eqb_eq. lia. }
    split.
    + unfold date_valid, check_date_fields, days_in_month, MINYEAR, MAXYEAR. simpl.
      repeat (apply andb_true_iff; split); try reflexivity; apply Z.leb_le; lia.
    + unfold toordinal, ymd2ord, days_before_month. simpl.
      rewrite HL, days_before_year_digits by lia. simpl. lia.
  - apply orb_false_iff in Esp. rewrite !Z.eqb_neq in Esp.
    set (leapyear := (n1 =? 3) && (negb (n4 =? 24) || (n100 =? 3))).
    assert (HL : is_leap (n400 * 400 + 1 + n100 * 100 + n4 * 4 + n1) = leapyear).
    { apply is_leap_digits; lia. }
    assert (Hr3 : 0 <= r3 < 365 + b2z leapyear) by (pose proof (b2z_range leapyear); lia).
    pose proof (month_day_spec r3 leapyear Hr3) as Hmd.
    unfold month_day_good in Hmd.
    destruct (month_day r3 leapyear) as [m d].
    rewrite !andb_true_iff, !Z.leb_le, Z.eqb_eq in Hmd.
    destruct Hmd as ((((Hm1 & Hm12) & Hd1) & Hd2) & Hdoy).
    split.
    + unfold date_valid, check_date_fields, MINYEAR, MAXYEAR. simpl.
      rewrite days_in_month_alt, HL.
      repeat (apply andb_true_iff; split); apply Z.leb_le; lia.
    + unfold toordinal, ymd2ord, days_before_month. simpl.
      rewrite HL, days_before_year_digits by lia. lia.
Qed.

Lemma date_valid_fields d :
  date_valid d = true ->
  1 <= year d <= 9999 /\ 1 <= month d <= 12 /\
  1 <= day d <= days_in_month (year d) (month d).
Proof.
  unfold date_valid, check_date_fields, MINYEAR, MAXYEAR.
  rewrite !andb_true_iff, !Z.leb_le. lia.
Qed.

Lemma date_valid_intro y m d :
  1 <= y <= 9999 -> 1 <= m <= 12 -> 1 <= d <= days_in_month y m ->
  date_valid (mkdate y m d) = true.
Proof.
  intros. unfold date_valid, check_date_fields, MINYEAR, MAXYEAR. simpl.
  rewrite !andb_true_iff, !Z.leb_le. lia.
Qed.

Ltac month_cases m :=
  let H := fresh in
  assert (H : m = 1 \/ m = 2 \/ m = 3 \/ m = 4 \/ m = 5 \/ m = 6 \/
              m = 7 \/ m = 8 \/ m = 9 \/ m = 10 \/ m = 11 \/ m = 12) by lia;
  repeat (destruct H as [H | H]; [subst m |]); [.. | subst m].

Lemma days_in_month_range y m : 1 <= m <= 12 -> 28 <= days_in_month y m <= 31.
Proof.
  intros Hm. unfold days_in_month.
  month_cases m; destruct (is_leap y); simpl; lia.
Qed.

Lemma days_before_month_succ y m :
  1 <= m < 12 ->
  days_before_month y (m + 1) = days_before_month y m + days_in_month y m.
Proof.
  intros Hm. unfold days_before_month, days_in_month.
  month_cases m; try lia; destruct (is_leap y); simpl; lia.
Qed.

Lemma days_before_month_december y :
  days_before_month y 12 + days_in_month y 12 = 365 + b2z (is_leap y).
Proof.
  unfold days_before_month, days_in_month. destruct (is_leap y); simpl; lia.
Qed.

Lemma days_before_month_mono y m1 m2 :
  1 <= m1 -> m1 < m2 -> m2 <= 12 ->
  days_before_month y m1 + days_in_month y m1 <= days_before_month y m2.
Proof.
  intros H1 H12 H2.
  replace m2 with (m1 + 1 + (m2 - m1 - 1)) by lia.
  assert (Hk : 0 <= m2 - m1 - 1) by lia.
  assert (Hb : m1 + 1 + (m2 - m1 - 1) <= 12) by lia.
  revert Hk Hb. generalize (m2 - m1 - 1). clear H12 H2 m2.
  apply (natlike_ind (fun k => m1 + 1 + k <= 12 ->
    days_before_month y m1 + days_in_month y m1
    <= days_before_month y (m1 + 1 + k))).
  - intros Hb. rewrite Z.add_0_r, days_before_month_succ by lia. lia.
  - intros k Hk IH Hb.
    replace (m1 + 1 + Z.succ k) with (m1 + 1 + k + 1) by lia.
    rewrite days_before_month_succ by lia.
    pose proof (days_in_month_range y (m1 + 1 + k)). lia.
Qed.

Lemma ymd2ord_month_after y m :
  1 <= m <= 12 ->
  ymd2ord (fst (month_after y m)) (snd (month_after y m)) 1
  = ymd2ord y m (days_in_month y m) + 1.
Proof.
  intros Hm. unfold month_after, ymd2ord.
  destruct (m =? 12) eqn:E; simpl.
  - apply Z.eqb_eq in E. subst m.
    rewrite days_before_year_succ.
    pose proof (days_before_month_december y).
    unfold days_before_month at 1. simpl. lia.
  - apply Z.eqb_neq in E. rewrite days_before_month_succ by lia. lia.
Qed.

Lemma day_of_year_range y m d :
  1 <= m <= 12 -> 1 <= d <= days_in_month y m ->
  1 <= days_before_month y m + d <= 365 + b2z (is_leap y).
Proof.
  intros Hm Hd.
  assert (0 <= days_before_month y m).
  { unfold days_before_month.
    month_cases m; destruct (is_leap y); simpl; lia. }
  split; [lia|].
  destruct (Z.eq_dec m 12) as [->|Hne].
  - pose proof (days_before_month_december y). lia.
  - pose proof (days_before_month_mono y m 12).
    pose proof (days_before_month_december y).
    pose proof (days_in_month_range y 12). lia.
Qed.

Lemma toordinal_range d :
  date_valid d = true -> 1 <= toordinal d <= MAXORDINAL.
Proof.
  intros Hv. apply date_valid_fields in Hv. destruct Hv as (Hy & Hm & Hd).
  unfold toordinal, ymd2ord.
  pose proof (day_of_year_range _ _ _ Hm Hd) as Hdoy.
  pose proof (days_before_year_mono 1 (year d)) as Hlo.
  pose proof (days_before_year_mono (year d + 1) 10000) as Hhi.
  rewrite days_before_year_succ in Hhi.
  change (days_before_year 1) with 0 in Hlo.
  change (days_before_year 10000) with 3652059 in Hhi.
  unfold MAXORDINAL. lia.
Qed.

(** [toordinal] is strictly increasing for the tuple order. *)
Lemma toordinal_lt a b :
  date_valid a = true -> date_valid b = true ->
  cmp a b = Lt -> toordinal a < toordinal b.
Proof.
  intros Ha Hb Hc.
  apply date_valid_fields in Ha, Hb.
  destruct Ha as (Hya & Hma & Hda), Hb as (Hyb & Hmb & Hdb).
  unfold toordinal, ymd2ord. unfold cmp in Hc.
  pose proof (day_of_year_range _ _ _ Hma Hda) as Hdoya.
  pose proof (day_of_year_range _ _ _ Hmb Hdb) as Hdoyb.
  destruct (Z.compare_spec (year a) (year b)) as [Ey|Ey|Ey]; try discriminate.
  - rewrite <- Ey in *.
    destruct (Z.compare_spec (month a) (month b)) as [Em|Em|Em]; try discriminate.
    + rewrite <- Em in *. rewrite Z.compare_lt_iff in Hc. lia.
    + pose proof (days_before_month_mono (year a) (month a) (month b)). lia.
  - pose proof (days_before_year_mono (year a + 1) (year b)) as Hmono.
    rewrite days_before_year_succ in Hmono. lia.
Qed.

Lemma cmp_antisym a b : cmp b a = CompOpp (cmp a b).
Proof.
  unfold cmp.
  rewrite (Z.compare_antisym (year a) (year b)),
          (Z.compare_antisym (month a) (month b)),
          (Z.compare_antisym (day a) (day b)).
  destruct (year a ?= year b), (month a ?= month b), (day a ?= day b);
    reflexivity.
Qed.

Lemma cmp_eq a b : cmp a b = Eq -> a = b.
Proof.
  unfold cmp. destruct a as [ya ma da], b as [yb mb db]. simpl.
  destruct (Z.compare_spec ya yb); try discriminate.
  destruct (Z.compare_spec ma mb); try discriminate.
  intros H1. apply Z.compare_eq in H1. congruence.
Qed.

Lemma cmp_toordinal a b :
  date_valid a = true -> date_valid b = true ->
  cmp a b = (toordinal a ?= toordinal b).
Proof.
  intros Ha Hb. destruct (cmp a b) eqn:E.
  - apply cmp_eq in E. subst. symmetry. apply Z.compare_refl.
  - symmetry. apply Z.compare_lt_iff. apply toordinal_lt; assumption.
  - symmetry. apply Z.compare_gt_iff. apply toordinal_lt; try assumption.
    rewrite cmp_antisym, E. reflexivity.
Qed.

Lemma date_le_toordinal a b :
  date_valid a = true -> date_valid b = true ->
  date_le a b = (toordinal a <=? toordinal b).
Proof.
  intros Ha Hb. unfold date_le, Z.leb. rewrite cmp_toordinal by assumption.
  reflexivity.
Qed.

Lemma date_lt_toordinal a b :
  date_valid a = true -> date_valid b = true ->
  date_lt a b = (toordinal a <? toordinal b).
Proof.
  intros Ha Hb. unfold date_lt, Z.ltb. rewrite cmp_toordinal by assumption.
  reflexivity.
Qed.

Lemma toordinal_inj a b :
  date_valid a = true -> date_valid b = true ->
  toordinal a = toordinal b -> a = b.
Proof.
  intros Ha Hb E. apply cmp_eq. rewrite cmp_toordinal by assumption.
  rewrite E. apply Z.compare_refl.
Qed.

(** [fromordinal] inverts [toordinal] on well-formed dates. *)
Lemma fromordinal_toordinal d :
  date_valid d = true -> fromordinal (toordinal d) = d.
Proof.
  intros Hd. pose proof (toordinal_range d Hd) as Hr.
  destruct (ord2ymd_sound _ Hr) as [Hv Ho].
  apply toordinal_inj; assumption.
Qed.

Lemma add_days_ok d k :
  date_valid d = true ->
  1 <= toordinal d + k <= MAXORDINAL ->
  exists d', add_days d k = Ok d' /\ date_valid d' = true /\
             toordinal d' = toordinal d + k.
Proof.
  intros Hd Hr. unfold add_days.
  replace ((0 <? toordinal d + k) && (toordinal d + k <=? MAXORDINAL))
    with true by (symmetry; apply andb_true_iff; split;
                  [apply Z.ltb_lt | apply Z.leb_le]; lia).
  destruct (ord2ymd_sound _ Hr) as [Hv Ho].
  exists (fromordinal (toordinal d + k)). auto.
Qed.

Lemma add_days_overflow d k :
  MAXORDINAL < toordinal d + k -> add_days d k = Raise OverflowError.
Proof.
  intros H. unfold add_days.
  replace (toordinal d + k <=? MAXORDINAL) with false
    by (symmetry; apply Z.leb_gt; lia).
  rewrite andb_false_r. reflexivity.
Qed.
End CalendarFacts.

(** * The Reporter's interval chunking *)

Section IntervalRanges.
Import Calendar Reporter.

Lemma last_supported_end_ordinal t :
  supported_interval t ->
  date_valid (last_supported_end t) = true /\
  toordinal (last_supported_end t)
  = if t =? 1 then 3651694 else if t =? 2 then 3652028
    else if t =? 3 then 3652052 else 3652058.
Proof. intros [-> | [-> | [-> | ->]]]; split; reflexivity. Qed.

Lemma replace_day_ok d dd :
  date_valid d = true -> 1 <= dd <= 28 ->
  replace d None None (Some dd) = Ok (mkdate (year d) (month d) dd).
Proof.
  intros Hd Hdd. apply date_valid_fields in Hd. destruct Hd as (Hy & Hm & _).
  change (replace d None None (Some dd)) with (new_date (year d) (month d) dd).
  unfold new_date.
  pose proof (days_in_month_range (year d) (month d) Hm).
  change (check_date_fields (year d) (month d) dd)
    with (date_valid (mkdate (year d) (month d) dd)).
  rewrite date_valid_intro; [reflexivity | lia ..].
Qed.

Lemma before_december_9999 cur :
  date_valid cur = true ->
  toordinal cur <= 3652028 ->
  year cur <= 9998 \/ month cur <= 11.
Proof.
  intros Hv Hbound.
  pose proof (date_valid_fields _ Hv) as (Hy & Hm & Hd).
  destruct (Z_le_gt_dec (year cur) 9998) as [|Hy9]; [left; assumption | right].
  destruct (Z_le_gt_dec (month cur) 11) as [|Hm12]; [assumption | exfalso].
  unfold toordinal, ymd2ord in Hbound.
  replace (year cur) with 9999 in Hbound by lia.
  replace (month cur) with 12 in Hbound by lia.
  change (days_before_year 9999) with 3651694 in Hbound.
  change (days_before_month 9999 12) with 334 in Hbound. lia.
Qed.

(** The last-day-of-month computation of the monthly mode. *)
Lemma monthly_next_date cur :
  date_valid cur = true ->
  toordinal cur <= 3652028 ->
  next_date_of cur 2
  = Ok (mkdate (year cur) (month cur) (days_in_month (year cur) (month cur))).
Proof.
  intros Hv Hbound.
  pose proof (date_valid_fields _ Hv) as (Hy & Hm & Hd).
  set (y := year cur) in *. set (m := month cur) in *.
  pose proof (days_in_month_range y m Hm) as Hdim.
  assert (Hnot : y <= 9998 \/ m <= 11) by (apply before_december_9999; assumption).
  pose proof (ymd2ord_month_after y m Hm) as Hafter.
  destruct (month_after y m) as [y' m'] eqn:Ema. simpl in Hafter.
  assert (Hy' : 1 <= y' <= 9999 /\ 1 <= m' <= 12).
  { unfold month_after in Ema. destruct (m =? 12) eqn:E12.
    - apply Z.eqb_eq in E12. inversion Ema. lia.
    - apply Z.eqb_neq in E12. inversion Ema. lia. }
  pose proof (days_in_month_range y' m' (proj2 Hy')) as Hdim'.
  assert (Hv28 : date_valid (mkdate y m 28) = true)
    by (apply date_valid_intro; lia).
  assert (Hv32 : date_valid (mkdate y' m' (32 - days_in_month y m)) = true)
    by (apply date_valid_intro; lia).
  assert (Hv1 : date_valid (mkdate y' m' 1) = true)
    by (apply date_valid_intro; lia).
  assert (Hvl : date_valid (mkdate y m (days_in_month y m)) = true)
    by (apply date_valid_intro; lia).
  unfold next_date_of. change (2 =? 1) with false. change (2 =? 2) with true.
  cbv iota.
  rewrite replace_day_ok by (assumption || lia). fold y m. cbn [bind_result].
  (* the 28th plus four days is in the following month *)
  destruct (add_days_ok (mkdate y m 28) 4 Hv28) as (d32 & Hadd & Hvd32 & Hod32).
  { pose proof (toordinal_range _ Hv28). pose proof (toordinal_range _ Hv32).
    unfold toordinal, ymd2ord in *. simpl in *. lia. }
  rewrite Hadd. cbn [bind_result].
  assert (Ed32 : d32 = mkdate y' m' (32 - days_in_month y m)).
  { apply toordinal_inj; try assumption.
    rewrite Hod32. unfold toordinal, ymd2ord in *. simpl in *. lia. }
  subst d32.
  rewrite replace_day_ok by (assumption || lia). cbn [bind_result year month].
  (* the day before the first of that month *)
  unfold sub_days. change (Z.opp 1) with (-1).
  destruct (add_days_ok (mkdate y' m' 1) (-1) Hv1) as (dl & Hsub & Hvdl & Hodl).
  { pose proof (toordinal_range _ Hv1). pose proof (toordinal_range _ Hvl).
    unfold toordinal, ymd2ord in *. simpl in *. lia. }
  rewrite Hsub. f_equal.
  apply toordinal_inj; try assumption.
  rewrite Hodl. unfold toordinal, ymd2ord in *. simpl in *. lia.
Qed.

(** Every supported mode computes a chunk end on or after [current], and
    the day after it still exists. *)
Lemma next_date_of_ok t cur :
  supported_interval t ->
  date_valid cur = true ->
  toordinal cur <= toordinal (last_supported_end t) ->
  exists nd, next_date_of cur t = Ok nd /\ date_valid nd = true /\
             toordinal cur <= toordinal nd < MAXORDINAL.
Proof.
  intros Ht Hv Hb.
  destruct (last_supported_end_ordinal t Ht) as [_ Hord]. rewrite Hord in Hb.
  clear Hord.
  pose proof (date_valid_fields _ Hv) as (Hy & Hm & Hd).
  pose proof (days_in_month_range (year cur) _ Hm) as Hdim.
  pose proof (day_of_year_range _ _ _ Hm Hd) as Hdoy.
  destruct Ht as [-> | [-> | [-> | ->]]]; simpl in Hb.
  - (* yearly *)
    exists (mkdate (year cur) 12 31).
    assert (Hv31 : date_valid (mkdate (year cur) 12 31) = true)
      by (apply date_valid_intro; [lia | lia | unfold days_in_month; simpl; lia]).
    split; [| split; [assumption |]].
    + change (next_date_of cur 1) with (new_date (year cur) 12 31).
      unfold new_date.
      change (check_date_fields (year cur) 12 31)
        with (date_valid (mkdate (year cur) 12 31)).
      rewrite Hv31. reflexivity.
    + pose proof (days_before_month_december (year cur)) as Hdec.
      unfold days_in_month in Hdec. simpl in Hdec.
      unfold toordinal, ymd2ord in *. simpl.
      assert (year cur <= 9998).
      { destruct (Z_le_gt_dec (year cur) 9998); [assumption | exfalso].
        pose proof (days_before_year_mono 9999 (year cur)) as Hmono.
        change (days_before_year 9999) with 3651694 in Hmono. lia. }
      pose proof (days_before_year_mono (year cur + 1) 9999) as Hmono.
      rewrite days_before_year_succ in Hmono.
      change (days_before_year 9999) with 3651694 in Hmono.
      unfold MAXORDINAL. lia.
  - (* monthly *)
    rewrite monthly_next_date by assumption.
    eexists. split; [reflexivity |].
    set (y := year cur) in *. set (m := month cur) in *.
    assert (Hvl : date_valid (mkdate y m (days_in_month y m)) = true)
      by (apply date_valid_intro; lia).
    split; [assumption |].
    assert (Hlt : toordinal (mkdate y m (days_in_month y m)) < MAXORDINAL).
    { assert (Hnot : y <= 9998 \/ m <= 11)
        by (apply before_december_9999; assumption).
      pose proof (ymd2ord_month_after y m Hm) as Hafter.
      assert (Hv1 : date_valid (mkdate (fst (month_after y m))
                                       (snd (month_after y m)) 1) = true).
      { unfold month_after. destruct (m =? 12) eqn:E12; simpl.
        - apply Z.eqb_eq in E12. apply date_valid_intro;
            [lia | lia | unfold days_in_month; simpl; lia].
        - apply Z.eqb_neq in E12.
          pose proof (days_in_month_range y (m + 1)).
          apply date_valid_intro; lia. }
      apply toordinal_range in Hv1.
      unfold toordinal in *. simpl in *. lia. }
    split; [| assumption].
    unfold toordinal, ymd2ord. simpl. fold y m. lia.
  - (* weekly *)
    destruct (add_days_ok cur 6 Hv) as (nd & Hadd & Hvnd & Hond).
    { pose proof (toordinal_range _ Hv). unfold MAXORDINAL. lia. }
    exists nd. unfold next_date_of. simpl.
    repeat split; try assumption; unfold MAXORDINAL; lia.
  - (* daily *)
    exists cur. unfold next_date_of. simpl.
    repeat split; try assumption; unfold MAXORDINAL; lia.
Qed.

Lemma date_min_toordinal a b :
  date_valid a = true -> date_valid b = true ->
  date_valid (date_min a b) = true /\
  toordinal (date_min a b) = Z.min (toordinal a) (toordinal b).
Proof.
  intros Ha Hb. unfold date_min. rewrite date_lt_toordinal by assumption.
  destruct (Z.ltb_spec (toordinal b) (toordinal a)); split; auto; lia.
Qed.

Lemma interval_loop_spec t E :
  supported_interval t ->
  date_valid E = true ->
  toordinal E <= toordinal (last_supported_end t) ->
  forall fuel cur,
    date_valid cur = true ->
    (toordinal E < toordinal cur -> (1 <= fuel)%nat ->
     interval_loop fuel cur E t = ([], StopIteration)) /\
    (toordinal cur <= toordinal E ->
     toordinal E - toordinal cur + 2 <= Z.of_nat fuel ->
     exists cs, interval_loop fuel cur E t = (cs, StopIteration) /\
                tiles (toordinal cur) (toordinal E) cs).
Proof.
  intros Ht HE Hsup. induction fuel as [| fuel IH]; intros cur Hcur.
  - split; intros; lia.
  - split.
    + intros Hgt _. simpl. rewrite date_le_toordinal by assumption.
      destruct (Z.leb_spec (toordinal cur) (toordinal E)); [lia | reflexivity].
    + intros Hle Hfuel. simpl. rewrite date_le_toordinal by assumption.
      destruct (Z.leb_spec (toordinal cur) (toordinal E)); [| lia].
      destruct (next_date_of_ok t cur Ht Hcur) as (nd & Hnd & Hvnd & Hond);
        [lia |].
      rewrite Hnd.
      destruct (add_days_ok nd 1 Hvnd) as (cur' & Hadd & Hvcur' & Hocur').
      { pose proof (toordinal_range _ Hvnd). lia. }
      rewrite Hadd.
      destruct (date_min_toordinal nd E Hvnd HE) as [Hvmin Homin].
      destruct (IH cur' Hvcur') as [IHstop IHgo].
      destruct (Z_lt_le_dec (toordinal E) (toordinal cur')) as [Hdone | Hmore].
      * rewrite IHstop by lia.
        exists [(cur, date_min nd E)]. split; [reflexivity |].
        simpl. repeat split; try assumption; lia.
      * destruct IHgo as (cs & Hcs & Htiles); [lia | lia |].
        rewrite Hcs. exists ((cur, date_min nd E) :: cs).
        split; [reflexivity |]. simpl.
        repeat split; try assumption; try lia.
        replace (toordinal (date_min nd E) + 1) with (toordinal cur') by lia.
        assumption.
Qed.

Lemma tiles_nonempty lo hi cs : tiles lo hi cs -> lo <= hi -> cs <> [].
Proof. destruct cs; simpl; [lia | discriminate]. Qed.

Lemma tiles_Forall lo hi cs :
  tiles lo hi cs ->
  Forall (fun c => date_valid (fst c) = true /\ date_valid (snd c) = true /\
                   lo <= toordinal (fst c) /\
                   toordinal (fst c) <= toordinal (snd c) <= hi) cs.
Proof.
  revert lo. induction cs as [| c rest IH]; intros lo Ht; [constructor |].
  simpl in Ht. destruct Ht as (Hs & He & Hlo & Hr & Hrest).
  constructor; [repeat split; try assumption; lia |].
  eapply Forall_impl; [apply (IH _ Hrest) |].
  simpl. intros c' (? & ? & ? & ?). repeat split; try assumption; lia.
Qed.

Lemma tiles_head lo hi c cs :
  tiles lo hi (c :: cs) -> toordinal (fst c) = lo.
Proof. simpl. tauto. Qed.

Lemma tiles_last lo hi cs c :
  tiles lo hi cs -> last cs = Some c -> toordinal (snd c) = hi.
Proof.
  revert lo. induction cs as [| c0 rest IH]; intros lo Ht Hl; [discriminate |].
  simpl in Ht. destruct Ht as (Hs & He & Hlo & Hr & Hrest).
  destruct rest as [| c1 rest'].
  - simpl in Hl. inversion Hl; subst. simpl in Hrest. lia.
  - apply (IH _ Hrest). exact Hl.
Qed.

Lemma tiles_adjacent lo hi cs (i : nat) c1 c2 :
  tiles lo hi cs ->
  cs !! i = Some c1 -> cs !! S i = Some c2 ->
  add_days (snd c1) 1 = Ok (fst c2).
Proof.
  revert lo i. induction cs as [| c0 rest IH]; intros lo i Ht H1 H2;
    [discriminate |].
  simpl in Ht. destruct Ht as (Hs & He & Hlo & Hr & Hrest).
  destruct i as [| i].
  - simpl in H1, H2. inversion H1; subst c0. clear H1.
    destruct rest as [| c rest']; [discriminate |].
    simpl in H2. inversion H2; subst c. clear H2.
    simpl in Hrest. destruct Hrest as (Hs2 & _ & Ho2 & _).
    destruct (add_days_ok (snd c1) 1 He) as (d' & Hadd & Hvd' & Hod').
    { pose proof (toordinal_range _ Hs2). pose proof (toordinal_range _ He). lia. }
    rewrite Hadd. f_equal. apply toordinal_inj; try assumption. lia.
  - simpl in H1, H2. eapply IH; eassumption.
Qed.

Lemma in_chunk_toordinal d c :
  date_valid d = true -> date_valid (fst c) = true ->
  date_valid (snd c) = true ->
  in_chunk d c = (toordinal (fst c) <=? toordinal d) &&
                 (toordinal d <=? toordinal (snd c)).
Proof.
  intros. unfold in_chunk. rewrite !date_le_toordinal by assumption.
  reflexivity.
Qed.

(** Each day of [lo .. hi] lies in exactly one chunk, any other day in
    none. *)
Lemma tiles_cover lo hi cs d :
  tiles lo hi cs -> lo <= hi + 1 -> date_valid d = true ->
  length (List.filter (in_chunk d) cs)
  = if (lo <=? toordinal d) && (toordinal d <=? hi) then 1%nat else 0%nat.
Proof.
  intros Ht Hlohi Hd. revert lo Ht Hlohi.
  induction cs as [| c rest IH]; intros lo Ht Hlohi.
  - simpl in *. subst lo.
    destruct (Z.leb_spec (hi + 1) (toordinal d)),
             (Z.leb_spec (toordinal d) hi); simpl; try reflexivity; lia.
  - simpl in Ht. destruct Ht as (Hs & He & Hlo & Hr & Hrest).
    simpl. rewrite in_chunk_toordinal by assumption.
    specialize (IH _ Hrest ltac:(lia)).
    destruct (Z.leb_spec (toordinal (fst c)) (toordinal d)),
             (Z.leb_spec (toordinal d) (toordinal (snd c))),
             (Z.leb_spec lo (toordinal d)),
             (Z.leb_spec (toordinal d) hi),
             (Z.leb_spec (toordinal (snd c) + 1) (toordinal d));
      simpl in *; try lia; rewrite ?IH; try reflexivity.
Qed.

Lemma fuel_of_range S E :
  toordinal S <= toordinal E ->
  toordinal E - toordinal S + 2
  <= Z.of_nat (Datatypes.S (Datatypes.S (Z.to_nat (toordinal E - toordinal S)))).
Proof. intros. lia. Qed.
End IntervalRanges.

(** The monthly example of the specification. *)
Example get_interval_ranges_monthly_2024 :
  Reporter.get_interval_ranges
    (Calendar.mkdate 2024 1 15) (Calendar.mkdate 2024 3 10) 2
  = ([ (Calendar.mkdate 2024 1 15, Calendar.mkdate 2024 1 31);
       (Calendar.mkdate 2024 2 1, Calendar.mkdate 2024 2 29);
       (Calendar.mkdate 2024 3 1, Calendar.mkdate 2024 3 10) ],
     Reporter.StopIteration).
Proof. vm_compute. reflexivity. Qed.

(** Claim C1, as the code has it.  For well-formed dates [S <= E], a mode in
    {1, 2, 3, 4} and [E] no later than the last end date the mode supports
    (9998-12-31 yearly, 9999-11-30 monthly, 9999-12-24 weekly, 9999-12-30
    daily), [get_interval_ranges] ends normally and the pairs it yields
    satisfy: every pair has start <= end <= E; the first pair starts at S
    and the last ends at E; each pair starts the day after the previous one
    ends; and every day of [S, E] lies in exactly one pair while every other
    day lies in none.  Monthly chunking of 2024-01-15 through 2024-03-10
    yields (01-15, 01-31), (02-01, 02-29), (03-01, 03-10). *)
Theorem get_interval_ranges_partition :
  (forall (start_date end_date : Calendar.date) (interval_type : Z),
      Calendar.date_valid start_date = true ->
      Calendar.date_valid end_date = true ->
      Calendar.date_le start_date end_date = true ->
      supported_interval interval_type ->
      Calendar.date_le end_date (Reporter.last_supported_end interval_type)
      = true ->
      exists chunks,
        Reporter.get_interval_ranges start_date end_date interval_type
        = (chunks, Reporter.StopIteration) /\
        Forall (fun c => Calendar.date_le (fst c) (snd c) = true /\
                         Calendar.date_le (snd c) end_date = true) chunks /\
        fst <$> head chunks = Some start_date /\
        snd <$> last chunks = Some end_date /\
        (forall (i : nat) c1 c2,
            chunks !! i = Some c1 -> chunks !! S i = Some c2 ->
            Calendar.add_days (snd c1) 1 = Ok (fst c2)) /\
        (forall d, Calendar.date_valid d = true ->
            length (List.filter (Reporter.in_chunk d) chunks)
            = if Calendar.date_le start_date d && Calendar.date_le d end_date
              then 1%nat else 0%nat)) /\
  Reporter.get_interval_ranges
    (Calendar.mkdate 2024 1 15) (Calendar.mkdate 2024 3 10) 2
  = ([ (Calendar.mkdate 2024 1 15, Calendar.mkdate 2024 1 31);
       (Calendar.mkdate 2024 2 1, Calendar.mkdate 2024 2 29);
       (Calendar.mkdate 2024 3 1, Calendar.mkdate 2024 3 10) ],
     Reporter.StopIteration).
Proof.
  split; [| exact get_interval_ranges_monthly_2024].
  intros S0 E t HS HE HSE Ht Hsup.
  destruct (last_supported_end_ordinal t Ht) as [Hvsup _].
  rewrite date_le_toordinal in HSE, Hsup by assumption.
  apply Z.leb_le in HSE, Hsup.
  destruct (interval_loop_spec t E Ht HE Hsup
              (S (S
                 (Z.to_nat (Calendar.toordinal E - Calendar.toordinal S0))))
              S0 HS) as [_ Hgo].
  destruct (Hgo HSE (fuel_of_range S0 E HSE)) as (chunks & Hrun & Htiles).
  exists chunks. split; [exact Hrun |].
  pose proof (tiles_Forall _ _ _ Htiles) as Hall.
  pose proof (tiles_nonempty _ _ _ Htiles HSE) as Hne.
  repeat split.
  - eapply Forall_impl; [exact Hall |].
    simpl. intros c (Hs & He & Hlo & Hr).
    rewrite !date_le_toordinal by assumption.
    split; apply Z.leb_le; lia.
  - destruct chunks as [| c rest]; [congruence |].
    simpl. f_equal. apply toordinal_inj; try assumption.
    + simpl in Htiles. tauto.
    + apply (tiles_head _ _ _ _ Htiles).
  - destruct (last chunks) as [c |] eqn:Hl.
    + simpl. f_equal.
      assert (Hin : c ∈ chunks) by (apply last_Some_elem_of; exact Hl).
      rewrite Forall_forall in Hall. destruct (Hall c Hin) as (_ & He & _).
      apply toordinal_inj; try assumption.
      apply (tiles_last _ _ _ _ Htiles Hl).
    + apply last_None in Hl. congruence.
  - intros i c1 c2. apply (tiles_adjacent _ _ _ _ _ _ Htiles).
  - intros d Hd. rewrite (tiles_cover _ _ _ d Htiles) by (assumption || lia).
    rewrite !date_le_toordinal by assumption. reflexivity.
Qed.

Lemma get_interval_ranges_partition_witness :
  exists chunks,
    Reporter.get_interval_ranges
      (Calendar.mkdate 2023 12 30) (Calendar.mkdate 2024 1 9) 3
    = (chunks, Reporter.StopIteration) /\
    Forall (fun c => Calendar.date_le (fst c) (snd c) = true /\
                     Calendar.date_le (snd c) (Calendar.mkdate 2024 1 9) = true)
           chunks /\
    fst <$> head chunks = Some (Calendar.mkdate 2023 12 30) /\
    snd <$> last chunks = Some (Calendar.mkdate 2024 1 9) /\
    (forall (i : nat) c1 c2,
        chunks !! i = Some c1 -> chunks !! S i = Some c2 ->
        Calendar.add_days (snd c1) 1 = Ok (fst c2)) /\
    (forall d, Calendar.date_valid d = true ->
        length (List.filter (Reporter.in_chunk d) chunks)
        = if Calendar.date_le (Calendar.mkdate 2023 12 30) d &&
             Calendar.date_le d (Calendar.mkdate 2024 1 9)
          then 1%nat else 0%nat).
Proof.
  apply (proj1 get_interval_ranges_partition
           (Calendar.mkdate 2023 12 30) (Calendar.mkdate 2024 1 9) 3).
  - reflexivity.
  - reflexivity.
  - reflexivity.
  - right. right. left. reflexivity.
  - reflexivity.
Defined.

(** Claim C1 as worded fails at the end of the supported calendar: weekly
    chunking of 9999-12-30 through 9999-12-31 raises [OverflowError] while
    computing the first chunk end and yields no pair, so the range is not
    covered. *)
Lemma get_interval_ranges_overflow :
  Calendar.date_valid (Calendar.mkdate 9999 12 30) = true /\
  Calendar.date_valid (Calendar.mkdate 9999 12 31) = true /\
  Calendar.date_le (Calendar.mkdate 9999 12 30) (Calendar.mkdate 9999 12 31)
  = true /\
  Reporter.get_interval_ranges
    (Calendar.mkdate 9999 12 30) (Calendar.mkdate 9999 12 31) 3
  = ([], Reporter.Raised OverflowError).
Proof. repeat split; vm_compute; reflexivity. Qed.

(** * Strings, patterns and the two filename cleanups *)

Section TextFacts.
Import Text Regex.

Lemma append_cons c (s r : string) : String c s +:+ r = String c (s +:+ r).
Proof. reflexivity. Qed.

Lemma append_empty_l (s : string) : "" +:+ s = s.
Proof. reflexivity. Qed.

Lemma append_empty_r s : s +:+ "" = s.
Proof.
  induction s as [| c s IH]; [reflexivity |].
  rewrite append_cons, IH. reflexivity.
Qed.

Lemma append_assoc (a b c : string) : (a +:+ b) +:+ c = a +:+ (b +:+ c).
Proof.
  induction a as [| x a IH]; [reflexivity |].
  rewrite !append_cons, IH. reflexivity.
Qed.

Lemma take_drop n s : take n s +:+ drop n s = s.
Proof.
  revert s. induction n as [| n IH]; intros [| c s]; try reflexivity.
  cbn [take drop]. rewrite append_cons, IH. reflexivity.
Qed.

Lemma drop_empty n : drop n "" = "".
Proof. destruct n; reflexivity. Qed.

Lemma drop_succ n c s : drop (S n) (String c s) = drop n s.
Proof. reflexivity. Qed.

Lemma startswith_append w r : startswith (w +:+ r) w = true.
Proof.
  induction w as [| c w IH]; [reflexivity |].
  rewrite append_cons. cbn [startswith].
  rewrite Ascii.eqb_refl. exact IH.
Qed.

Lemma contains_drop w s (j : nat) :
  contains w s = false -> startswith (drop j s) w = false.
Proof.
  revert j. induction s as [| c s IH]; intros j H.
  - rewrite drop_empty. simpl in H. apply orb_false_iff in H. tauto.
  - simpl in H. apply orb_false_iff in H. destruct H as [H0 H1].
    destruct j as [| j]; [exact H0 |]. simpl. apply IH. exact H1.
Qed.

Lemma contains_tail w c s : contains w (String c s) = false -> contains w s = false.
Proof. simpl. intros H. apply orb_false_iff in H. tauto. Qed.

(** A repetition that succeeds gave the rest of the pattern some suffix. *)
Lemma try_counts_Some k s n lo r :
  try_counts k s n lo = Some r ->
  exists j r', (lo <= j <= n)%nat /\ k (drop j s) = Some r' /\ r = (j + r')%nat.
Proof.
  induction n as [| n IH]; cbn [try_counts].
  - destruct (Nat.ltb_spec 0 lo); [discriminate |].
    destruct (k (drop 0 s)) as [r' |] eqn:E; [| discriminate].
    intros [= <-]. exists O, r'. repeat split; try assumption; lia.
  - destruct (Nat.ltb_spec (S n) lo); [discriminate |].
    destruct (k (drop (S n) s)) as [r' |] eqn:E.
    + intros [= <-]. exists (S n), r'. repeat split; try assumption; lia.
    + intros H1. destruct (IH H1) as (j & r' & Hj & Hk & Hr).
      exists j, r'. repeat split; try assumption; lia.
Qed.

Lemma match_here_lits w p s n :
  match_here (lits w ++ p) s = Some n ->
  exists rest m, s = w +:+ rest /\ match_here p rest = Some m /\
                 n = (String.length w + m)%nat.
Proof.
  revert s n. induction w as [| c w IH]; intros s n H; simpl in *.
  - exists s, n. auto.
  - destruct s as [| x s]; [discriminate |].
    destruct (Ascii.eqb_spec x c) as [-> | Hne]; [| discriminate].
    destruct (match_here (lits w ++ p) s) as [m |] eqn:E; [| discriminate].
    simpl in H. injection H as <-.
    destruct (IH _ _ E) as (rest & m' & -> & Hm & ->).
    exists rest, m'. auto.
Qed.

Lemma sub_no_match p repl s : no_match p s -> sub p repl s = s.
Proof.
  unfold sub. induction s as [| c s IH]; simpl; intros [H0 H1].
  - rewrite H0. reflexivity.
  - rewrite H0. rewrite IH by assumption. reflexivity.
Qed.

(** [re.sub] changes nothing when, at every position, the pattern does not
    match or replacing from there gives the text back. *)
Lemma sub_fixed p repl s :
  (forall pre t, s = pre +:+ t ->
                 match_here p t = None \/ sub_from p repl t 0 = t) ->
  sub p repl s = s.
Proof.
  unfold sub. intros H.
  assert (G : forall t pre, s = pre +:+ t -> sub_from p repl t 0 = t).
  { induction t as [| c t IH]; intros pre Hs.
    - destruct (H pre "" Hs) as [Hn | Hf]; [| exact Hf].
      simpl. rewrite Hn. reflexivity.
    - destruct (H pre (String c t) Hs) as [Hn | Hf]; [| exact Hf].
      simpl. rewrite Hn. f_equal.
      apply (IH (pre +:+ String c "")). rewrite append_assoc. exact Hs. }
  apply (G s ""). reflexivity.
Qed.

(** A pattern that asks for the literal [w] after a repetition matches only
    where [w] occurs. *)
Lemma star_lits_match cls w p s n :
  match_here (Star cls :: lits w ++ p) s = Some n ->
  exists j rest m, (j <= span cls s)%nat /\ drop j s = w +:+ rest /\
                   match_here p rest = Some m /\
                   n = (j + (String.length w + m))%nat.
Proof.
  intros E. cbn [match_here] in E. apply try_counts_Some in E.
  destruct E as (j & r' & Hj & Hk & ->).
  apply match_here_lits in Hk. destruct Hk as (rest & m & Hs & Hm & ->).
  exists j, rest, m. repeat split; try assumption; lia.
Qed.

Lemma star_lits_no_match cls w p s :
  contains w s = false -> no_match (Star cls :: lits w ++ p) s.
Proof.
  assert (G : forall t, contains w t = false ->
                        match_here (Star cls :: lits w ++ p) t = None).
  { intros t H.
    destruct (match_here (Star cls :: lits w ++ p) t) as [n |] eqn:E;
      [| reflexivity].
    apply star_lits_match in E. destruct E as (j & rest & m & _ & Hs & _).
    pose proof (contains_drop w t j H) as Hp.
    rewrite Hs, startswith_append in Hp. discriminate. }
  induction s as [| c s IH]; intros H.
  - split; [apply G; exact H | exact I].
  - split; [apply G; exact H |]. apply IH. eapply contains_tail; eassumption.
Qed.

(** The characters a repetition may take are all in its class. *)
Lemma last_char_in_span cls s (j : nat) :
  (1 <= j <= span cls s)%nat -> drop j s = "" ->
  exists c, last_char s = Some c /\ cls c = true.
Proof.
  revert j. induction s as [| c s IH]; intros j Hj Hd; simpl in *; [lia |].
  destruct (cls c) eqn:Ec; [| lia].
  destruct j as [| j]; [lia |]. simpl in Hd.
  destruct s as [| c' s']; [eauto |].
  destruct j as [| j]; [discriminate |].
  destruct (IH (S j)) as (x & Hx & Hcx); [simpl in *; lia | exact Hd |].
  exists x. split; [exact Hx | exact Hcx].
Qed.

Lemma last_char_drop s (j : nat) c :
  drop j s = String c "" -> last_char s = Some c.
Proof.
  revert j. induction s as [| x s IH]; intros j Hd.
  - rewrite drop_empty in Hd. discriminate.
  - destruct j as [| j].
    + simpl in Hd. injection Hd as -> ->. reflexivity.
    + simpl in Hd. specialize (IH _ Hd).
      destruct s; [discriminate | exact IH].
Qed.

Lemma at_end_inv s :
  at_end s = true -> s = "" \/ s = String "010"%char "".
Proof.
  destruct s as [| c [| c' s']]; simpl; intros H; try discriminate; auto.
  apply Ascii.eqb_eq in H. subst. auto.
Qed.

(** [cls+$] matches only a text whose last character is in the class. *)
Lemma plus_end_match cls s n :
  cls "010"%char = true ->
  match_here [Plus cls; EndAnchor] s = Some n ->
  exists c, last_char s = Some c /\ cls c = true.
Proof.
  intros Hnl H. cbn [match_here] in H. apply try_counts_Some in H.
  destruct H as (j & r' & Hj & Hk & _).
  destruct (at_end (drop j s)) eqn:E; [| discriminate].
  apply at_end_inv in E. destruct E as [E | E].
  - apply (last_char_in_span cls s j); assumption.
  - exists "010"%char. split; [| exact Hnl]. eapply last_char_drop; eassumption.
Qed.

Lemma plus_end_no_match cls s :
  cls "010"%char = true ->
  (forall c, last_char s = Some c -> cls c = false) ->
  no_match [Plus cls; EndAnchor] s.
Proof.
  intros Hnl. induction s as [| c s IH]; intros Hlast.
  - split; [reflexivity | exact I].
  - split.
    + destruct (match_here [Plus cls; EndAnchor] (String c s)) as [n |] eqn:E;
        [| reflexivity].
      apply plus_end_match in E; [| exact Hnl].
      destruct E as (x & Hx & Hcx). rewrite (Hlast x Hx) in Hcx. discriminate.
    + destruct s as [| c' s']; [split; [reflexivity | exact I] |].
      apply IH. intros x Hx. apply Hlast. exact Hx.
Qed.

Lemma splitext_append p base ext :
  splitext p = (base, ext) -> base +:+ ext = p.
Proof.
  unfold splitext.
  destruct (rfind "/" p <? rfind "." p);
    [destruct (some_not_dot _ _) |];
    intros [= <- <-]; auto using take_drop, append_empty_r.
Qed.

Lemma rstrip_fixed f s :
  (forall c, last_char s = Some c -> f c = false) -> rstrip f s = s.
Proof.
  induction s as [| c s IH]; intros H; [reflexivity |].
  simpl. destruct s as [| c' s'].
  - simpl. rewrite (H c eq_refl). reflexivity.
  - rewrite IH by (intros x Hx; apply H; exact Hx). reflexivity.
Qed.

Lemma lstrip_fixed f s :
  (forall c, first_char s = Some c -> f c = false) -> lstrip f s = s.
Proof.
  destruct s as [| c s]; intros H; [reflexivity |].
  simpl. rewrite (H c eq_refl). reflexivity.
Qed.

Lemma strip_fixed f s :
  (forall c, first_char s = Some c -> f c = false) ->
  (forall c, last_char s = Some c -> f c = false) ->
  strip f s = s.
Proof.
  intros Hf Hl. unfold strip. rewrite lstrip_fixed by assumption.
  apply rstrip_fixed. assumption.
Qed.

Lemma length_append (a b : string) :
  String.length (a +:+ b) = (String.length a + String.length b)%nat.
Proof.
  induction a as [| c a IH]; [reflexivity |].
  rewrite append_cons. simpl. rewrite IH. reflexivity.
Qed.

Lemma drop_append (a b : string) : drop (String.length a) (a +:+ b) = b.
Proof.
  induction a as [| c a IH]; [reflexivity |].
  rewrite append_cons. simpl. exact IH.
Qed.

Lemma endswith_append a suffix : endswith (a +:+ suffix) suffix = true.
Proof.
  unfold endswith. rewrite length_append.
  apply andb_true_iff. split; [apply Nat.leb_le; lia |].
  replace (String.length a + String.length suffix - String.length suffix)%nat
    with (String.length a) by lia.
  rewrite drop_append. apply String.eqb_refl.
Qed.

Lemma last_char_append pre t :
  t <> "" -> last_char (pre +:+ t) = last_char t.
Proof.
  intros Ht. induction pre as [| c pre IH]; [reflexivity |].
  rewrite append_cons. cbn [last_char]. rewrite IH.
  destruct (pre +:+ t) eqn:E; [| reflexivity].
  destruct pre; [rewrite append_empty_l in E; congruence | discriminate].
Qed.

Lemma last_char_of_drop s (j : nat) u :
  drop j s = u -> u <> "" -> last_char s = last_char u.
Proof.
  intros Hd Hu. rewrite <- (take_drop j s), Hd. apply last_char_append. exact Hu.
Qed.

(** When a repetition of one character took at least one character, that
    character stands right before what follows. *)
Lemma span_char_before x s (j : nat) u :
  (1 <= j <= span (is_char x) s)%nat -> drop j s = u ->
  exists a, s = a +:+ String x u.
Proof.
  revert j. induction s as [| c s IH]; intros j Hj Hd; simpl in Hj; [lia |].
  destruct (is_char x c) eqn:Ec; [| lia].
  apply Ascii.eqb_eq in Ec. subst c.
  destruct j as [| [| j]]; [lia | |].
  - simpl in Hd. subst u. exists "". reflexivity.
  - destruct (IH (S j)) as (a & Ha); [lia | exact Hd |].
    exists (String x a). rewrite append_cons, <- Ha. reflexivity.
Qed.
End TextFacts.

(** ** The Downloader's cleanup *)

Section DownloaderCleanup.
Import Text Regex Downloader.

(** A name whose base holds no [(Source)] and ends in no separator is left
    as it is. *)
Lemma cleanup_fixed filename base ext :
  splitext filename = (base, ext) ->
  contains "(Source)" base = false ->
  (forall c, last_char base = Some c -> separator c = false) ->
  cleanup filename = filename.
Proof.
  intros Hsplit Hsrc Hlast. unfold cleanup. simpl. rewrite Hsplit.
  rewrite (sub_no_match source_marker).
  - rewrite (sub_no_match trailing_separators).
    + apply splitext_append. exact Hsplit.
    + apply plus_end_no_match; [reflexivity | exact Hlast].
  - apply (star_lits_no_match space_or_underscore "(Source)"
             [Star space_or_underscore]). exact Hsrc.
Qed.
End DownloaderCleanup.

(** ** The Reporter's [clean_filename] *)

Section ReporterCleanup.
Import Text Regex Reporter.

Lemma underscores_before_mp4_fixed s :
  (forall c, last_char s = Some c -> is_space c = false) ->
  endswith s "_.mp4" = false ->
  sub underscores_before_mp4 ".mp4" s = s.
Proof.
  intros Hlast Hend. apply sub_fixed. intros pre t Hs.
  destruct (match_here underscores_before_mp4 t) as [n |] eqn:E;
    [right | left; reflexivity].
  apply (star_lits_match (is_char "_"%char) ".mp4" [EndAnchor]) in E.
  destruct E as (j & rest & m & Hj & Hd & Hm & _).
  cbn [match_here] in Hm.
  destruct (at_end rest) eqn:Eend; [| discriminate].
  apply at_end_inv in Eend. destruct Eend as [-> | ->].
  - (* the text from here on is underscores and ".mp4" *)
    destruct j as [| j].
    + simpl in Hd. subst t. reflexivity.
    + exfalso.
      destruct (span_char_before "_"%char t (S j) (".mp4" +:+ "")) as (a & Ha);
        [lia | exact Hd |].
      rewrite Hs, Ha, <- append_assoc in Hend.
      change (String "_"%char (".mp4" +:+ "")) with "_.mp4" in Hend.
      rewrite endswith_append in Hend. discriminate.
  - (* a final newline would be trailing whitespace *)
    exfalso.
    assert (Ht : t <> "").
    { intros ->. rewrite drop_empty in Hd. discriminate. }
    assert (Hl : last_char s = Some "010"%char).
    { rewrite Hs, (last_char_append pre t Ht).
      rewrite (last_char_of_drop t j _ Hd) by discriminate. reflexivity. }
    specialize (Hlast _ Hl). discriminate.
Qed.

(** A name with no [(Source)], no underscore right before a final [.mp4]
    and no whitespace around it is left as it is. *)
Lemma clean_filename_fixed name :
  contains "(Source)" name = false ->
  endswith name "_.mp4" = false ->
  (forall c, first_char name = Some c -> is_space c = false) ->
  (forall c, last_char name = Some c -> is_space c = false) ->
  clean_filename name = name.
Proof.
  intros Hsrc Hend Hfirst Hlast. unfold clean_filename.
  rewrite (sub_no_match source_marker)
    by (apply (star_lits_no_match is_space "(Source)" []); exact Hsrc).
  rewrite underscores_before_mp4_fixed by assumption.
  apply strip_fixed; assumption.
Qed.
End ReporterCleanup.

(** Claim C5, as the code has it.  A name that is already clean is a fixed
    point of each cleanup.  Downloader: when the base of the name (what
    [os.path.splitext] leaves before the extension) holds no [(Source)] and
    does not end in an underscore, a dash or whitespace, [cleanup] returns
    the name.  Reporter: when the name holds no [(Source)], has no underscore
    right before a final [.mp4] and neither starts nor ends with whitespace,
    [clean_filename] returns the name.  Both send ["Lecture_1_(Source).mp4"]
    to ["Lecture_1.mp4"] and ["Lecture_1.mp4"] to itself. *)
Theorem cleanup_fixed_points :
  (forall filename base ext,
      Text.splitext filename = (base, ext) ->
      Text.contains "(Source)" base = false ->
      (forall c, Text.last_char base = Some c -> Downloader.separator c = false) ->
      Downloader.cleanup filename = filename) /\
  (forall name,
      Text.contains "(Source)" name = false ->
      Text.endswith name "_.mp4" = false ->
      (forall c, Text.first_char name = Some c -> Text.is_space c = false) ->
      (forall c, Text.last_char name = Some c -> Text.is_space c = false) ->
      Reporter.clean_filename name = name) /\
  Downloader.cleanup "Lecture_1_(Source).mp4" = "Lecture_1.mp4" /\
  Downloader.cleanup "Lecture_1.mp4" = "Lecture_1.mp4" /\
  Reporter.clean_filename "Lecture_1_(Source).mp4" = "Lecture_1.mp4" /\
  Reporter.clean_filename "Lecture_1.mp4" = "Lecture_1.mp4".
Proof.
  split; [exact cleanup_fixed |].
  split; [exact clean_filename_fixed |].
  repeat split; vm_compute; reflexivity.
Qed.

Lemma cleanup_fixed_points_witness :
  Downloader.cleanup "Week 2 - Intro.mp4" = "Week 2 - Intro.mp4" /\
  Reporter.clean_filename "Week 2 - Intro.mp4" = "Week 2 - Intro.mp4".
Proof.
  split.
  - apply (proj1 cleanup_fixed_points "Week 2 - Intro.mp4" "Week 2 - Intro" ".mp4").
    + vm_compute. reflexivity.
    + vm_compute. reflexivity.
    + intros c Hc. vm_compute in Hc. injection Hc as <-. vm_compute. reflexivity.
  - apply (proj1 (proj2 cleanup_fixed_points) "Week 2 - Intro.mp4").
    + vm_compute. reflexivity.
    + vm_compute. reflexivity.
    + intros c Hc. vm_compute in Hc. injection Hc as <-. vm_compute. reflexivity.
    + intros c Hc. vm_compute in Hc. injection Hc as <-. vm_compute. reflexivity.
Defined.

(** Claim C5 as worded fails: removing one [(Source)] can bring the pieces of
    another together, and a second cleanup then changes the name again. *)
Lemma cleanup_not_idempotent :
  Downloader.cleanup "clip_(Source(Source)).mp4" = "clip_(Source).mp4" /\
  Downloader.cleanup (Downloader.cleanup "clip_(Source(Source)).mp4")
  <> Downloader.cleanup "clip_(Source(Source)).mp4" /\
  Reporter.clean_filename "clip_(Source(Source)).mp4" = "clip_(Source).mp4" /\
  Reporter.clean_filename (Reporter.clean_filename "clip_(Source(Source)).mp4")
  <> Reporter.clean_filename "clip_(Source(Source)).mp4".
Proof.
  repeat split; try (vm_compute; reflexivity); vm_compute; discriminate.
Qed.

(** * The Category Republish Workflow *)

Section RepublishFacts.
Import Republish.
Context {S : Type} (api : remote S).

Lemma app_assoc3 {A} (a b c : list A) : (a ++ b) ++ c = a ++ (b ++ c).
Proof. symmetry. apply app_assoc. Qed.

(** The Remove step only lists and deletes. *)
Lemma remove_from_category_trace entry_id category_id w o w' :
  remove_from_category api entry_id category_id w = (o, w') ->
  exists evs, trace w' = trace w ++ evs /\ forallb (fun e => negb (is_add e)) evs = true.
Proof.
  unfold remove_from_category, bind, call, print, log, ret, raise.
  destruct (categoryEntry_list api category_id entry_id (server w))
    as [[resp | e] s1]; simpl.
  - destruct (is_active resp) as [[|] | e]; simpl.
    + destruct (categoryEntry_delete api entry_id category_id s1)
        as [[[] | e] s2]; simpl; intros [= <- <-]; simpl;
        rewrite ?app_assoc3; eexists; split; reflexivity.
    + intros [= <- <-]; simpl. rewrite ?app_assoc3. eexists; split; reflexivity.
    + intros [= <- <-]; simpl. eexists; split; reflexivity.
  - intros [= <- <-]; simpl. eexists; split; reflexivity.
Qed.

Lemma entry_in_category_trace entry_id category_id w o w' :
  entry_in_category api entry_id category_id w = (o, w') ->
  trace w' = trace w ++ [Called (CategoryEntryList category_id entry_id)].
Proof.
  unfold entry_in_category, bind, call, ret, raise.
  destruct (categoryEntry_list api category_id entry_id (server w))
    as [[resp | e] s1]; simpl; intros [= <- <-]; reflexivity.
Qed.

Lemma process_entry_unfold entry_id category_id w :
  process_entry api entry_id category_id w
  = match remove_from_category api entry_id category_id
            (announced entry_id category_id w) with
    | (Return ok, w1) =>
        if negb ok then print RemovalFailedSkipping w1
        else
          match entry_in_category api entry_id category_id w1 with
          | (Return present, w2) =>
              if negb present then
                (run print (ConfirmedRemoved entry_id category_id);
                 run print Adding;
                 do ok <- add_to_category api entry_id category_id;
                 if negb ok then print AddFailedSkipping
                 else
                   do added_check <- entry_in_category api entry_id category_id;
                   if added_check
                   then print (ConfirmedAdded entry_id category_id)
                   else print FailedToConfirmAddition) w2
              else print FailedToConfirmRemoval w2
          | (Uncaught e, w2) => (Uncaught e, w2)
          | (Exit n, w2) => (Exit n, w2)
          | (OutOfFuel, w2) => (OutOfFuel, w2)
          end
    | (Uncaught e, w1) => (Uncaught e, w1)
    | (Exit n, w1) => (Exit n, w1)
    | (OutOfFuel, w1) => (OutOfFuel, w1)
    end.
Proof.
  unfold process_entry, announced.
  unfold bind at 1 2 3. unfold print at 1 2 3. unfold log at 1 2 3.
  cbn [server trace]. rewrite !app_assoc3. cbn [app].
  unfold bind at 1.
  destruct (remove_from_category api entry_id category_id _) as [[ok | e | n |] w1];
    try reflexivity.
  destruct ok; cbn [negb]; [| reflexivity].
  unfold bind at 1.
  destruct (entry_in_category api entry_id category_id w1) as [[present | e | n |] w2];
    try reflexivity.
  destruct present; reflexivity.
Qed.

(** When the association is listed but not active, and the verification
    query gets the same answer, the entry ends with "Failed to confirm
    removal": neither a delete nor an add call is issued. *)
Lemma process_entry_not_active entry_id category_id w resp s1 s2 :
  categoryEntry_list api category_id entry_id (server w) = (Ok resp, s1) ->
  has_matches resp = true ->
  is_active resp = Ok false ->
  categoryEntry_list api category_id entry_id s1 = (Ok resp, s2) ->
  process_entry api entry_id category_id w
  = (Return tt,
     mkworld s2
       (trace w ++
        [Printed Separator; Printed (Processing entry_id category_id);
         Printed Removing;
         Called (CategoryEntryList category_id entry_id);
         Printed (NotActiveSkippingRemoval entry_id category_id);
         Called (CategoryEntryList category_id entry_id);
         Printed FailedToConfirmRemoval])).
Proof.
  intros H1 Hm Ha H2. rewrite process_entry_unfold.
  unfold announced, remove_from_category, entry_in_category,
    bind, call, print, log, ret. cbn [server trace].
  rewrite H1. cbn. rewrite Ha. cbn. rewrite H2. cbn. rewrite Hm. cbn.
  rewrite !app_assoc3. reflexivity.
Qed.
End RepublishFacts.

(** Claim C7.  When the Remove step succeeded and the verification query
    that follows still reports the association as present, the entry ends
    with the line "Failed to confirm removal": between the start of the entry
    and that line no add call is issued, and the run goes on with the next
    entry IDs from the world the entry left. *)
Theorem verification_failure_skips_add :
  forall (S : Type) (api : Republish.remote S)
         (entry_id category_id : string) (rest : list string)
         (w w1 w2 : Republish.world S),
    Republish.remove_from_category api entry_id category_id
      (announced entry_id category_id w) = (Return true, w1) ->
    Republish.entry_in_category api entry_id category_id w1 = (Return true, w2) ->
    let w3 := Republish.mkworld (Republish.server w2)
                (Republish.trace w2 ++
                 [Republish.Printed Republish.FailedToConfirmRemoval]) in
    Republish.process_entry api entry_id category_id w = (Return tt, w3) /\
    (exists evs, Republish.trace w3 = Republish.trace w ++ evs /\
                 forallb (fun e => negb (is_add e)) evs = true) /\
    Republish.process_entries api (entry_id :: rest) category_id w
    = Republish.process_entries api rest category_id w3.
Proof.
  intros S api entry_id category_id rest w w1 w2 Hrem Hver w3.
  assert (Hpe : Republish.process_entry api entry_id category_id w = (Return tt, w3)).
  { rewrite process_entry_unfold, Hrem. cbn [negb]. rewrite Hver. reflexivity. }
  split; [exact Hpe |]. split.
  - destruct (remove_from_category_trace api _ _ _ _ _ Hrem) as (evs1 & Ht1 & Hn1).
    pose proof (entry_in_category_trace api _ _ _ _ _ Hver) as Ht2.
    subst w3. cbn [Republish.trace]. rewrite Ht2, Ht1.
    unfold announced. cbn [Republish.trace].
    rewrite !app_assoc3. eexists. split; [reflexivity |].
    rewrite !forallb_app, Hn1. reflexivity.
  - cbn [Republish.process_entries]. unfold bind at 1. rewrite Hpe. reflexivity.
Qed.

Lemma verification_failure_skips_add_witness :
  let w : Republish.world (list (string * string * Z)) :=
    Republish.mkworld [("1_abc", "42", 1)] [] in
  exists w3,
    Republish.process_entry Republish.platform "1_abc" "42" w = (Return tt, w3) /\
    (exists evs, Republish.trace w3 = Republish.trace w ++ evs /\
                 forallb (fun e => negb (is_add e)) evs = true) /\
    Republish.process_entries Republish.platform ["1_abc"; "1_def"] "42" w
    = Republish.process_entries Republish.platform ["1_def"] "42" w3.
Proof.
  intros w.
  pose (r1 := Republish.remove_from_category Republish.platform "1_abc" "42"
                (announced "1_abc" "42" w)).
  pose (r2 := Republish.entry_in_category Republish.platform "1_abc" "42" (snd r1)).
  eexists.
  apply (verification_failure_skips_add _ Republish.platform "1_abc" "42"
           ["1_def"] w (snd r1) (snd r2)).
  - vm_compute. reflexivity.
  - vm_compute. reflexivity.
Defined.

(** Claim C4 at an entry whose association with category 42 exists in the
    pending state (status 1): the Remove step skips the delete call and
    warns, but the verification query still lists the association, so the
    entry ends with "Failed to confirm removal" and no add call is made. *)
Lemma not_active_association_is_not_readded :
  let w : Republish.world (list (string * string * Z)) :=
    Republish.mkworld [("1_abc", "42", 1)] [] in
  let '(o, w') := Republish.process_entries Republish.platform ["1_abc"] "42" w in
  o = Return tt /\
  Republish.trace w'
  = [ Republish.Printed Republish.Separator;
      Republish.Printed (Republish.Processing "1_abc" "42");
      Republish.Printed Republish.Removing;
      Republish.Called (Republish.CategoryEntryList "42" "1_abc");
      Republish.Printed (Republish.NotActiveSkippingRemoval "1_abc" "42");
      Republish.Called (Republish.CategoryEntryList "42" "1_abc");
      Republish.Printed Republish.FailedToConfirmRemoval ] /\
  Republish.server w' = [("1_abc", "42", 1)].
Proof. vm_compute. repeat split; reflexivity. Qed.

(** * The Entry Downloader *)

Section DownloaderFacts.
Import Downloader.
Context {S D : Type} (api : remote S) (fs : filesystem D).

(** The events of a detail fetch: at most one [baseEntry.get] per attempt,
    and no flavor call. *)
Lemma get_entry_details_from_trace attempts eid (w : world S D) o w' :
  get_entry_details_from api attempts eid w = (o, w') ->
  exists evs,
    trace w' = trace w ++ evs /\
    (length (List.filter is_get evs) <= length attempts)%nat /\
    forallb (fun e => negb (is_flavor_call e)) evs = true.
Proof.
  revert w. induction attempts as [| attempt rest IH]; intros w H.
  - cbn in H. injection H as <- <-. cbn. eexists. split; [reflexivity |].
    split; [cbn; lia | reflexivity].
  - cbn [get_entry_details_from] in H. unfold bind at 1 in H. unfold call in H.
    destruct (baseEntry_get api eid (server w)) as [[details | e] s1].
    + cbn in H. injection H as <- <-. cbn. eexists. split; [reflexivity |].
      split; [cbn; lia | reflexivity].
    + destruct e; cbn in H;
        try (injection H as <- <-; cbn; eexists; split; [reflexivity |];
             split; [cbn; lia | reflexivity]).
      apply IH in H. destruct H as (evs & Ht & Hn & Hf).
      cbn [trace] in Ht. rewrite Ht, <- !app_assoc. cbn [app].
      eexists. split; [reflexivity |].
      split; [cbn; lia | cbn; exact Hf].
Qed.


Lemma get_download_url_no_media_type e (w : world S D) :
  mediaType e = None -> get_download_url api e w = (Return None, w).
Proof.
  intros H. unfold get_download_url, has_mediaType. rewrite H. reflexivity.
Qed.

Lemma get_download_url_image e (w : world S D) details w1 :
  has_mediaType e = true ->
  get_entry_details api (entry_id e) w = (Return (Some details), w1) ->
  mediaType details = Some 2 ->
  get_download_url api e w = (Return (downloadUrl details), w1).
Proof.
  intros He Hd Hm. unfold get_download_url. rewrite He. cbn [negb].
  unfold bind. rewrite Hd, Hm. reflexivity.
Qed.

Lemma get_download_url_other e (w : world S D) details w1 media_type :
  has_mediaType e = true ->
  get_entry_details api (entry_id e) w = (Return (Some details), w1) ->
  mediaType details = Some media_type -> media_type <> 2 ->
  get_download_url api e w = get_flavor_download_url api e w1.
Proof.
  intros He Hd Hm Hne. unfold get_download_url. rewrite He. cbn [negb].
  unfold bind at 1. rewrite Hd, Hm.
  destruct (Z.eqb_spec media_type 2); [contradiction | reflexivity].
Qed.


Lemma get_flavor_download_url_original e (w : world S D) flavors f url s1 s2 :
  flavorAsset_list api (entry_id e) (server w) = (Ok flavors, s1) ->
  original_flavor flavors = Some f ->
  flavorAsset_getUrl api (flavor_id f) s1 = (Ok url, s2) ->
  get_flavor_download_url api e w
  = (Return (Some url),
     mkworld s2 (disk w)
       (trace w ++ [Called (FlavorAssetList (entry_id e));
                    Called (FlavorAssetGetUrl (flavor_id f))])).
Proof.
  intros Hl Ho Hu. unfold get_flavor_download_url, bind, call, ret.
  rewrite Hl, Ho. cbn [server disk trace]. rewrite Hu.
  rewrite <- app_assoc. reflexivity.
Qed.

(** The flavor that [original_flavor] picks is the first one flagged
    original. *)
Lemma original_flavor_first pre f post :
  Forall (fun x => isOriginal x = false) pre ->
  isOriginal f = true ->
  original_flavor (pre ++ f :: post) = Some f.
Proof.
  intros Hpre Hf. unfold original_flavor.
  induction Hpre as [| x pre Hx _ IH]; cbn.
  - rewrite Hf. reflexivity.
  - rewrite Hx. exact IH.
Qed.

Lemma original_flavor_none flavors :
  Forall (fun x => isOriginal x = false) flavors ->
  original_flavor flavors = None.
Proof.
  intros H. unfold original_flavor.
  induction H as [| x l Hx _ IH]; cbn; [reflexivity |].
  rewrite Hx. exact IH.
Qed.

Lemma get_flavor_download_url_no_original e (w : world S D) flavors s1 :
  flavorAsset_list api (entry_id e) (server w) = (Ok flavors, s1) ->
  original_flavor flavors = None ->
  get_flavor_download_url api e w
  = (Return None,
     mkworld s1 (disk w) (trace w ++ [Called (FlavorAssetList (entry_id e))])).
Proof.
  intros Hl Ho. unfold get_flavor_download_url, bind, call, ret.
  rewrite Hl, Ho. reflexivity.
Qed.

(** What [main] does with a listing: the entries without a media type are
    dropped before anything is counted or processed. *)
Lemma main_from_listing_after urlparse_path fuel method identifier
    (w w1 : world S D) listing :
  get_entries api fuel method identifier w = (Return listing, w1) ->
  main_from_listing api fs urlparse_path fuel method identifier w
  = match List.filter has_mediaType listing with
    | [] => print NoEntriesFound w1
    | e :: rest =>
        (run print (Found (Z.of_nat (length (e :: rest))));
         run process_all api fs urlparse_path fuel (e :: rest) 1;
         print AllComplete) w1
    end.
Proof.
  intros Hl. unfold main_from_listing, media_entries.
  unfold bind at 1. rewrite Hl.
  destruct (List.filter has_mediaType listing); reflexivity.
Qed.

Lemma media_entries_spec listing e :
  In e (media_entries listing) <-> In e listing /\ mediaType e <> None.
Proof.
  unfold media_entries. rewrite filter_In. unfold has_mediaType.
  destruct (mediaType e); split; intros [H1 H2]; split;
    try assumption; congruence.
Qed.
End DownloaderFacts.

(** Claim C6.  Entries without a media type never reach processing: once
    the listing has returned, [main] counts and processes the listed entries
    that have a media type, in the order listed, and nothing else, and
    [get_download_url] answers "no URL" for an entry without one without any
    remote call.  For an entry with a media type whose fetched details carry
    media type 2, the URL is the details' [downloadUrl] and no flavor call is
    made; with any other media type the URL is whatever
    [get_flavor_download_url] finds: the URL that the platform gives for the
    first flavor flagged original, and no URL, after the one list call, when
    no flavor is flagged. *)
Theorem media_type_routing :
  forall (S D : Type) (api : Downloader.remote S)
         (fs : Downloader.filesystem D)
         (urlparse_path : string -> result string),
    (forall fuel method identifier (w w1 : Downloader.world S D) listing,
        Downloader.get_entries api fuel method identifier w
        = (Return listing, w1) ->
        Downloader.main_from_listing api fs urlparse_path fuel method
          identifier w
        = match List.filter Downloader.has_mediaType listing with
          | [] => Downloader.print Downloader.NoEntriesFound w1
          | e :: rest =>
              (run Downloader.print
                     (Downloader.Found (Z.of_nat (length (e :: rest))));
               run Downloader.process_all api fs urlparse_path fuel
                     (e :: rest) 1;
               Downloader.print Downloader.AllComplete) w1
          end) /\
    (forall listing e,
        In e (List.filter Downloader.has_mediaType listing) <->
        In e listing /\ Downloader.mediaType e <> None) /\
    (forall e (w : Downloader.world S D),
        Downloader.mediaType e = None ->
        Downloader.get_download_url api e w = (Return None, w)) /\
    (forall e (w : Downloader.world S D) details w1,
        Downloader.has_mediaType e = true ->
        Downloader.get_entry_details api (Downloader.entry_id e) w
        = (Return (Some details), w1) ->
        Downloader.mediaType details = Some 2 ->
        Downloader.get_download_url api e w
        = (Return (Downloader.downloadUrl details), w1) /\
        exists evs,
          Downloader.trace w1 = Downloader.trace w ++ evs /\
          forallb (fun ev => negb (is_flavor_call ev)) evs = true) /\
    (forall e (w : Downloader.world S D) details w1 media_type,
        Downloader.has_mediaType e = true ->
        Downloader.get_entry_details api (Downloader.entry_id e) w
        = (Return (Some details), w1) ->
        Downloader.mediaType details = Some media_type -> media_type <> 2 ->
        Downloader.get_download_url api e w
        = Downloader.get_flavor_download_url api e w1) /\
    (forall e (w : Downloader.world S D) pre f post url s1 s2,
        Downloader.flavorAsset_list api (Downloader.entry_id e)
          (Downloader.server w) = (Ok (pre ++ f :: post), s1) ->
        Forall (fun x => Downloader.isOriginal x = false) pre ->
        Downloader.isOriginal f = true ->
        Downloader.flavorAsset_getUrl api (Downloader.flavor_id f) s1
        = (Ok url, s2) ->
        Downloader.get_flavor_download_url api e w
        = (Return (Some url),
           Downloader.mkworld s2 (Downloader.disk w)
             (Downloader.trace w ++
              [Downloader.Called
                 (Downloader.FlavorAssetList (Downloader.entry_id e));
               Downloader.Called
                 (Downloader.FlavorAssetGetUrl (Downloader.flavor_id f))]))) /\
    (forall e (w : Downloader.world S D) flavors s1,
        Downloader.flavorAsset_list api (Downloader.entry_id e)
          (Downloader.server w) = (Ok flavors, s1) ->
        Forall (fun x => Downloader.isOriginal x = false) flavors ->
        Downloader.get_flavor_download_url api e w
        = (Return None,
           Downloader.mkworld s1 (Downloader.disk w)
             (Downloader.trace w ++
              [Downloader.Called
                 (Downloader.FlavorAssetList (Downloader.entry_id e))]))).
Proof.
  intros S D api fs urlparse_path.
  split; [apply main_from_listing_after |].
  split; [apply media_entries_spec |].
  split; [apply get_download_url_no_media_type |].
  split.
  { intros e w details w1 He Hd Hm.
    split; [eapply get_download_url_image; eassumption |].
    unfold Downloader.get_entry_details in Hd.
    apply get_entry_details_from_trace in Hd.
    destruct Hd as (evs & Ht & _ & Hf). eauto. }
  split; [apply get_download_url_other |].
  split.
  { intros e w pre f post url s1 s2 Hl Hpre Hf Hu.
    apply (get_flavor_download_url_original api e w (pre ++ f :: post) f url
             s1 s2 Hl); [| exact Hu].
    apply original_flavor_first; assumption. }
  intros e w flavors s1 Hl Hnone.
  apply (get_flavor_download_url_no_original api e w flavors s1 Hl).
  apply original_flavor_none. exact Hnone.
Qed.

Lemma media_type_routing_witness :
  let w : Downloader.world unit (gset string) := Downloader.mkworld tt ∅ [] in
  let listed :=
    snd (Downloader.get_entries Examples.downloader_library 3 "tag" "exam" w) in
  Downloader.main_from_listing Examples.downloader_library Examples.plain_disk
    Examples.url_path 3 "tag" "exam" w
  = (run Downloader.print (Downloader.Found 2);
     run Downloader.process_all Examples.downloader_library
           Examples.plain_disk Examples.url_path 3
           [Examples.image_entry; Examples.video_entry] 1;
     Downloader.print Downloader.AllComplete) listed /\
  Downloader.get_download_url Examples.downloader_library
    Examples.playlist_entry w = (Return None, w) /\
  fst (Downloader.get_download_url Examples.downloader_library
         Examples.image_entry w)
  = Return (Some "https://cdn.example/p/1/raw/entry_id/1_img") /\
  fst (Downloader.get_download_url Examples.downloader_library
         Examples.video_entry w)
  = Return (Some "https://cdn.example/p/1/flavorId/1_f1/video.mp4").
Proof.
  intros w listed.
  pose proof (media_type_routing unit (gset string)
                Examples.downloader_library Examples.plain_disk
                Examples.url_path)
    as (Hmain & _ & Hnone & Himage & Hother & Horiginal & _).
  split; [| split; [| split]].
  - apply (Hmain 3%nat "tag" "exam" w listed
             [Examples.image_entry; Examples.playlist_entry;
              Examples.video_entry]).
    reflexivity.
  - apply Hnone. reflexivity.
  - pose (r := Downloader.get_entry_details Examples.downloader_library "1_img" w).
    destruct (Himage Examples.image_entry w Examples.image_entry (snd r))
      as [Hurl _]; [reflexivity | reflexivity | reflexivity |].
    rewrite Hurl. reflexivity.
  - pose (r := Downloader.get_entry_details Examples.downloader_library "1_vid" w).
    rewrite (Hother Examples.video_entry w Examples.video_entry (snd r) 1);
      [| reflexivity | reflexivity | reflexivity | discriminate].
    rewrite (Horiginal Examples.video_entry (snd r)
               [Downloader.mkflavor "1_f0" false]
               (Downloader.mkflavor "1_f1" true) []
               "https://cdn.example/p/1/flavorId/1_f1/video.mp4" tt tt);
      [reflexivity | reflexivity | | reflexivity | reflexivity].
    repeat constructor.
Defined.

(** Claim C2 at a folder that holds [video.mp4] and [video_1.mp4], on a
    disk where a path is its own name: the name derived for another
    [video.mp4] is [video_1_2.mp4], as soon as the loop is given its three
    rounds.  The second round of the loop splits the name of the first
    round, [video_1.mp4], so the counter is appended to [video_1] and not to
    the original base. *)
Lemma second_collision_name :
  forall rounds : nat,
    Downloader.cleanup "video.mp4" = "video.mp4" /\
    Downloader.free_name Examples.plain_disk (3 + rounds) Examples.two_videos
      "video.mp4" 0
    = Some "video_1_2.mp4" /\
    fst (Downloader.get_file_name Examples.downloader_library
           Examples.plain_disk Examples.url_path (3 + rounds)
           "https://cdn.example/p/1/flavorId/1_f1/video.mp4" 0
           (Downloader.mkworld tt Examples.two_videos []))
    = Return "video_1_2.mp4".
Proof. intros rounds. repeat split; vm_compute; reflexivity. Qed.

(** * The Downloader's collision loop *)

Section FreeName.
Import Text Downloader.

Lemma free_name_is_free {D : Type} (fs : filesystem D) fuel (d : D)
    filename counter r :
  free_name fs fuel d filename counter = Some r ->
  os_path_exists fs (join DOWNLOAD_FOLDER r) d = false.
Proof.
  revert filename counter. induction fuel as [| fuel IH];
    intros filename counter H; [discriminate |].
  cbn [free_name] in H.
  destruct (os_path_exists fs (join DOWNLOAD_FOLDER filename) d) eqn:E.
  - destruct (splitext filename) as [base ext]. eapply IH. exact H.
  - injection H as <-. exact E.
Qed.

(** What [get_file_name] has done when it returns: the disk is as it
    was, and the name is the one the collision loop made of the cleaned
    name: the name of the header when there is one, the last segment of
    the URL path otherwise. *)
Lemma get_file_name_returns {S D : Type} (api : remote S)
    (fs : filesystem D) urlparse_path fuel url counter (w : world S D)
    name w' :
  get_file_name api fs urlparse_path fuel url counter w = (Return name, w') ->
  disk w' = disk w /\
  exists filename,
    free_name fs fuel (disk w) (cleanup filename) counter = Some name /\
    let from_url :=
      exists path, urlparse_path url = Ok path /\ filename = basename path in
    match fst (requests_head api url (server w)) with
    | Ok (Some content_disp) =>
        if truthy (header_filename content_disp)
        then filename = default "" (header_filename content_disp)
        else from_url
    | _ => from_url
    end.
Proof.
  intros H. unfold get_file_name, bind, call, print, log, ret, raise in H.
  destruct (requests_head api url (server w)) as [[[content_disp |] | e] s1];
    cbn [fst server disk trace truthy] in *.
  - destruct (truthy (header_filename content_disp)).
    + destruct (free_name fs fuel _ _ counter) eqn:Hfree; [| discriminate].
      injection H as <- <-. split; [reflexivity |]. eauto.
    + destruct (urlparse_path url) as [path | e]; [| discriminate].
      cbn [disk] in H.
      destruct (free_name fs fuel _ _ counter) eqn:Hfree; [| discriminate].
      injection H as <- <-. split; [reflexivity |]. eauto 6.
  - destruct (urlparse_path url) as [path | e]; [| discriminate].
    cbn [disk] in H.
    destruct (free_name fs fuel _ _ counter) eqn:Hfree; [| discriminate].
    injection H as <- <-. split; [reflexivity |]. eauto 6.
  - destruct e; cbn [server disk trace truthy] in H; try discriminate.
    destruct (urlparse_path url) as [path | e]; [| discriminate].
    cbn [disk] in H.
    destruct (free_name fs fuel _ _ counter) eqn:Hfree; [| discriminate].
    injection H as <- <-. split; [reflexivity |]. eauto 6.
Qed.

Lemma take_nonempty (n : nat) s :
  (1 <= n)%nat -> s <> "" -> first_char (take n s) = first_char s.
Proof.
  intros Hn Hs. destruct n; [lia |]. destruct s; [congruence | reflexivity].
Qed.

Lemma rfind_nonneg_nonempty c s : 0 <= rfind c s -> s <> "".
Proof. destruct s; [simpl; lia | discriminate]. Qed.

Lemma rfind_lower c s : -1 <= rfind c s.
Proof.
  induction s as [| x s IH]; simpl; [lia |].
  destruct (0 <=? rfind c s) eqn:E; [apply Z.leb_le in E; lia |].
  destruct (Ascii.eqb x c); lia.
Qed.

(** The base that [splitext] returns begins like the name. *)
Lemma splitext_first_char p base ext :
  splitext p = (base, ext) -> first_char base = first_char p.
Proof.
  unfold splitext.
  destruct (Z.ltb_spec (rfind "/" p) (rfind "." p)) as [Hlt |];
    [| intros [= <- <-]; reflexivity].
  destruct (some_not_dot _ _) eqn:E; [| intros [= <- <-]; reflexivity].
  intros [= <- <-].
  pose proof (rfind_lower "/" p).
  apply take_nonempty.
  - destruct (Z.to_nat (rfind "." p - (rfind "/" p + 1))) eqn:En;
      [| lia].
    destruct (drop _ p); discriminate.
  - apply (rfind_nonneg_nonempty "."). lia.
Qed.

Lemma startswith_first_char s c :
  startswith s (String c "")
  = match first_char s with Some x => Ascii.eqb x c | None => false end.
Proof.
  destruct s as [| x s]; [reflexivity |]. simpl. apply andb_true_r.
Qed.

Lemma first_char_append (a b : string) :
  a <> "" -> first_char (a +:+ b) = first_char a.
Proof. destruct a; [congruence | reflexivity]. Qed.

Lemma join_download_folder name :
  join DOWNLOAD_FOLDER name
  = if startswith name "/" then name
    else DOWNLOAD_FOLDER +:+ "/" +:+ name.
Proof. unfold join. destruct (startswith name "/"); reflexivity. Qed.

(** The next candidate of the loop has a strictly longer path. *)
Lemma next_candidate_longer filename base ext counter :
  splitext filename = (base, ext) ->
  (String.length (join DOWNLOAD_FOLDER filename)
   < String.length
       (join DOWNLOAD_FOLDER (base +:+ "_" +:+ str_of_int counter +:+ ext)))%nat.
Proof.
  intros Hs.
  pose proof (splitext_append _ _ _ Hs) as Happ.
  pose proof (splitext_first_char _ _ _ Hs) as Hfc.
  assert (Hlen : (String.length filename
                  < String.length (base +:+ "_" +:+ str_of_int counter +:+ ext))%nat).
  { rewrite <- Happ, !length_append. simpl. lia. }
  assert (Hsw : startswith (base +:+ "_" +:+ str_of_int counter +:+ ext) "/"
                = startswith filename "/").
  { rewrite !startswith_first_char.
    destruct base as [| b0 base'].
    - destruct filename as [| f0 filename']; [reflexivity | discriminate].
    - rewrite first_char_append by discriminate. rewrite <- Hfc. reflexivity. }
  rewrite !join_download_folder, Hsw.
  destruct (startswith filename "/"); [exact Hlen |].
  rewrite !length_append in *. lia.
Qed.

Lemma at_least_shrinks (n n' : nat) (files : gset string) p :
  (n < n')%nat -> p ∈ files -> String.length p = n ->
  (size (at_least n' files) < size (at_least n files))%nat.
Proof.
  intros Hlt Hin Hlen. apply subset_size. unfold at_least. split.
  - intros q Hq. apply elem_of_filter in Hq. apply elem_of_filter.
    destruct Hq as [Hq1 Hq2]. split; [lia | exact Hq2].
  - intros Hsubset.
    assert (Hp : p ∈ filter (fun q => (n' <= String.length q)%nat) files).
    { apply Hsubset. apply elem_of_filter. split; [lia | exact Hin]. }
    apply elem_of_filter in Hp. destruct Hp as [Hp _]. lia.
Qed.

Lemma free_name_ends fuel :
  forall (files : gset string) filename counter,
    (size (at_least (String.length (join DOWNLOAD_FOLDER filename)) files)
     < fuel)%nat ->
    exists r,
      free_name Examples.plain_disk fuel files filename counter = Some r.
Proof.
  induction fuel as [| fuel IH]; intros files filename counter Hfuel; [lia |].
  cbn [free_name Examples.plain_disk os_path_exists].
  destruct (bool_decide (join DOWNLOAD_FOLDER filename ∈ files)) eqn:E;
    [| eauto].
  apply bool_decide_eq_true in E.
  destruct (splitext filename) as [base ext] eqn:Hs.
  apply IH.
  pose proof (next_candidate_longer filename base ext (counter + 1) Hs)
    as Hlonger.
  pose proof (at_least_shrinks _ _ files _ Hlonger E eq_refl). lia.
Qed.

Lemma at_least_size n (files : gset string) :
  (size (at_least n files) <= size files)%nat.
Proof.
  apply subseteq_size. unfold at_least. intros p Hp.
  apply elem_of_filter in Hp. tauto.
Qed.
End FreeName.

(** * The Reporter's chunk query *)

Section FetchFacts.
Import Reporter.
Context {S : Type} (api : remote S).
Context (media_types : Z -> option string)
        (str_timedelta : Z -> result string)
        (format_local : Z -> result string)
        (str_float : float -> string)
        (cfg : config).

Abbreviation process_page :=
  (Reporter.process_page api media_types str_timedelta format_local
                         str_float cfg).
Abbreviation fetch_loop :=
  (Reporter.fetch_loop api media_types str_timedelta format_local
                       str_float cfg).
Abbreviation fetch_entries_for_interval :=
  (Reporter.fetch_entries_for_interval api media_types str_timedelta
                                       format_local str_float cfg).







End FetchFacts.


(** * The Reporter's totals *)

Section Totals.
Import Reporter.
Context {S : Type} (api : remote S).
Context (media_types : Z -> option string)
        (str_timedelta : Z -> result string)
        (format_local : Z -> result string)
        (str_float : float -> string)
        (format_int : Z -> string)
        (day_start_ts day_end_ts : Calendar.date -> result Z)
        (cfg : config).

Abbreviation process_page :=
  (Reporter.process_page api media_types str_timedelta format_local
                         str_float cfg).
Abbreviation fetch_loop :=
  (Reporter.fetch_loop api media_types str_timedelta format_local
                       str_float cfg).
Abbreviation chunk_loop :=
  (Reporter.chunk_loop api media_types str_timedelta format_local str_float
                       day_start_ts day_end_ts cfg).

(** A detail row records the duration of its entry. *)
Lemma make_row_duration entry fc fs ofn row :
  make_row media_types str_timedelta format_local str_float entry fc fs ofn
  = Ok row ->
  row_duration_sec row = duration entry.
Proof.
  unfold make_row. intros H.
  destruct (media_types (mediaType entry)); [| discriminate].
  repeat match type of H with
         | bind_result ?x _ = _ =>
             destruct x; cbn [bind_result] in H; [| discriminate]
         end.
  injection H as <-. reflexivity.
Qed.

Lemma sum_Z_app l1 l2 : sum_Z (l1 ++ l2) = sum_Z l1 + sum_Z l2.
Proof.
  unfold sum_Z. induction l1 as [| x l1 IH]; cbn; [reflexivity |].
  rewrite IH. lia.
Qed.

Lemma process_page_seconds objects :
  forall c (w : world S) c' w',
    durations_add_up c ->
    process_page objects c w = (Return c', w') -> durations_add_up c'.
Proof.
  induction objects as [| entry rest IH]; intros c w c' w' Hc H.
  - cbn in H. injection H as <- <-. exact Hc.
  - cbn [Reporter.process_page] in H. unfold bind at 1 in H.
    destruct (entry_flavors api cfg entry w) as [[[[fc fs] ofn] | e | n |] w1];
      try discriminate.
    unfold bind at 1 in H.
    destruct (make_row media_types str_timedelta format_local str_float
                       entry fc fs ofn) as [row | e] eqn:Hrow;
      cbn [lift ret raise] in H; try discriminate.
    eapply IH; [| exact H].
    unfold durations_add_up in *. cbn [c_total_duration c_all_entries].
    rewrite map_app, sum_Z_app, <- Hc. cbn [map sum_Z fold_right].
    unfold row_seconds. rewrite (make_row_duration _ _ _ _ _ Hrow). lia.
Qed.

Lemma fetch_loop_seconds fuel :
  forall filter pageIndex c (w : world S) c' w',
    durations_add_up c ->
    fetch_loop fuel filter pageIndex c w = (Return c', w') ->
    durations_add_up c'.
Proof.
  induction fuel as [| fuel IH]; intros filter pageIndex c w c' w' Hc H;
    [discriminate |].
  cbn [Reporter.fetch_loop] in H. unfold bind at 1 in H. unfold call in H.
  destruct (media_list api filter pageIndex (server w)) as [[objects | e] s1].
  - destruct objects as [| obj rest].
    + cbn in H. injection H as <- <-. exact Hc.
    + unfold bind at 1 in H. unfold print at 1 in H. unfold log at 1 in H.
      cbn [server stdin trace] in H. unfold bind at 1 in H.
      destruct (Reporter.process_page api media_types str_timedelta
                  format_local str_float cfg (obj :: rest) c _)
        as [[c1 | e | n |] w2] eqn:Hpage; try discriminate.
      pose proof (process_page_seconds _ _ _ _ _ Hc Hpage) as Hc1.
      destruct (10000 <=? c_entry_count c1); [cbn in H; discriminate |].
      eapply IH; eassumption.
  - destruct e as [| | | | | | code | |]; cbn in H; try discriminate.
    destruct (String.eqb code "QUERY_EXCEEDED_MAX_MATCHES_ALLOWED");
      cbn in H; discriminate.
Qed.

Lemma summary_row_of_counters label c row :
  summary_row_of label c = Ok row ->
  range row = label /\ row_of_counters c row.
Proof.
  unfold summary_row_of, row_of_counters. intros H.
  destruct (PyFloat.truediv_int (c_total_duration c) 60) as [minutes |];
    cbn [bind_result] in H; [| discriminate].
  destruct (PyFloat.truediv_int (c_total_flavor_size c) 1024)
    as [megabytes |]; cbn [bind_result] in H; [| discriminate].
  injection H as <-. split; [reflexivity |].
  exists minutes, megabytes. repeat split; reflexivity.
Qed.

(** One round of the main loop: the row and the details of the chunk come
    from the counters that its query returned. *)
Lemma chunk_summary_returns interval_start interval_end (w : world S)
    row details w' :
  chunk_summary api media_types str_timedelta format_local str_float
    day_start_ts day_end_ts cfg interval_start interval_end w
  = (Return (row, details), w') ->
  exists start_ts end_ts c w1,
    day_start_ts interval_start = Ok start_ts /\
    day_end_ts interval_end = Ok end_ts /\
    fetch_entries_for_interval api media_types str_timedelta format_local
      str_float cfg start_ts end_ts w1 = (Return c, w') /\
    durations_add_up c /\
    range row = chunk_label (interval_start, interval_end) /\
    row_of_counters c row /\
    details = c_all_entries c.
Proof.
  unfold chunk_summary. intros H.
  unfold bind at 1 in H. unfold print at 1 in H. unfold log at 1 in H.
  destruct (day_start_ts interval_start) as [start_ts |];
    [| discriminate].
  destruct (day_end_ts interval_end) as [end_ts |]; [| discriminate].
  cbn [lift] in H. unfold bind at 1 in H. unfold ret at 1 in H.
  unfold bind at 1 in H. unfold ret at 1 in H.
  unfold bind at 1 in H.
  match type of H with
  | context [fetch_entries_for_interval _ _ _ _ _ _ _ _ ?w0] =>
      destruct (fetch_entries_for_interval api media_types str_timedelta
                  format_local str_float cfg start_ts end_ts w0)
        as [[c | e | n |] w2] eqn:Hfetch; try discriminate
  end.
  unfold bind at 1 in H.
  destruct (summary_row_of _ c) as [row0 | e] eqn:Hrow;
    cbn [lift ret raise] in H; [| discriminate].
  injection H as <- <- <-.
  apply summary_row_of_counters in Hrow. destruct Hrow as [Hlabel Hrow].
  eexists start_ts, end_ts, c, _.
  split; [reflexivity |]. split; [reflexivity |].
  split; [exact Hfetch |].
  split; [| split; [exact Hlabel | split; [exact Hrow | reflexivity]]].
  unfold fetch_entries_for_interval in Hfetch.
  eapply fetch_loop_seconds; [| exact Hfetch]. reflexivity.
Qed.

Lemma chunk_loop_rows chunks :
  forall summary details (w : world S) summary' details' w',
    chunk_loop chunks summary details w = (Return (summary', details'), w') ->
    exists counts new_rows,
      summary' = summary ++ new_rows /\
      details' = details ++ concat (map c_all_entries counts) /\
      map range new_rows = map chunk_label chunks /\
      Forall durations_add_up counts /\
      Forall2 row_of_counters counts new_rows.
Proof.
  induction chunks as [| [interval_start interval_end] rest IH];
    intros summary details w summary' details' w' H.
  - cbn in H. injection H as <- <- <-. exists [], [].
    cbn. rewrite !app_nil_r. repeat split; constructor.
  - cbn [Reporter.chunk_loop] in H. unfold bind at 1 in H.
    destruct (chunk_summary _ _ _ _ _ _ _ _ _ _ _)
      as [[[row more] | e | n |] w1] eqn:Hchunk; try discriminate.
    apply chunk_summary_returns in Hchunk.
    destruct Hchunk as (start_ts & end_ts & c & w0 & _ & _ & _ & Hsec &
                        Hlabel & Hrow & ->).
    cbn [fst snd] in H.
    destruct (IH _ _ _ _ _ _ H)
      as (counts & rows & -> & -> & Hlabels & Hsecs & Hrows).
    exists (c :: counts), (row :: rows).
    cbn [map concat]. rewrite <- !app_assoc. cbn [app].
    split; [reflexivity |]. split; [reflexivity |].
    split; [f_equal; assumption |].
    split; constructor; assumption.
Qed.

Lemma print_lines (lines : list message) (w : world S) :
  fold_right (fun m (k : M (world S) unit) => (run print m; k)) (ret tt)
    lines w
  = (Return tt,
     mkworld (server w) (stdin w) (trace w ++ map Printed lines)).
Proof.
  revert w. induction lines as [| m lines IH]; intros w.
  - cbn. rewrite app_nil_r. destruct w; reflexivity.
  - cbn [fold_right map]. unfold bind at 1. unfold print at 1.
    unfold log at 1. rewrite IH. cbn [server stdin trace].
    rewrite <- app_assoc. reflexivity.
Qed.

Lemma summary_lines (summary : list summary_row) :
  fold_right
    (fun row (k : M (world S) unit) =>
       run print (SummaryLine (range row) (format_int (entry_count row))
                    (PyFloat.format_2f (total_duration_minutes row)));
       k)
    (ret tt) summary
  = fold_right (fun m (k : M (world S) unit) => (run print m; k)) (ret tt)
      (map (fun row =>
              SummaryLine (range row) (format_int (entry_count row))
                (PyFloat.format_2f (total_duration_minutes row)))
           summary).
Proof.
  induction summary as [| row rest IH]; cbn; [reflexivity |].
  rewrite IH. reflexivity.
Qed.

(** What the report prints: a line per chunk, then the totals. *)
Lemma print_report_lines py_sum summary (w : world S) :
  let minutes := py_sum (map total_duration_minutes summary) in
  let hours := PrimFloat.div minutes 60 in
  let days := PrimFloat.div hours 24 in
  print_report format_int py_sum summary w
  = (Return tt,
     mkworld (server w) (stdin w)
       (trace w ++
        Printed SummaryHeader ::
        map (fun row =>
               Printed (SummaryLine (range row) (format_int (entry_count row))
                          (PyFloat.format_2f (total_duration_minutes row))))
            summary ++
        [ Printed TotalsHeader;
          Printed (TotalLine "Entries:"
                     (PyFloat.rjust 15
                        (format_int
                           (fold_left Z.add (map entry_count summary) 0))));
          Printed (TotalLine "Duration (mins):" (show_total minutes));
          Printed (TotalLine "Duration (hours):" (show_total hours));
          Printed (TotalLine "Duration (days):" (show_total days));
          Printed (TotalLine "Duration (months):"
                     (show_total (PrimFloat.div days 30.4375)));
          Printed (TotalLine "Duration (years):"
                     (show_total (PrimFloat.div days 365.25)));
          Printed (TotalLine "Flavor Size (GB):"
                     (show_total
                        (PrimFloat.div
                           (py_sum (map flavor_size_sum summary)) 1024))) ])).
Proof.
  intros minutes hours days. unfold print_report.
  unfold bind at 1. unfold print at 1. unfold log at 1.
  unfold bind at 1. rewrite (summary_lines summary), print_lines.
  cbn [server stdin trace].
  unfold bind, print, log, final_totals.
  cbn [server stdin trace total_entries total_minutes total_hours total_days
       total_months total_years total_flavor_size_sum].
  rewrite <- !app_assoc. cbn [app]. rewrite map_map.
  repeat (rewrite <- app_assoc; cbn [app]). reflexivity.
Qed.
End Totals.

(** Claim C9.  When the loop over the chunks comes to its end, each new
    summary row holds what the query of its chunk counted: the seconds of the
    chunk (the durations of its detail rows added up) divided by 60 and
    rounded to two decimals as minutes, the kilobytes divided by 1024 and
    rounded as megabytes.  The totals table then shows the sum of the rows'
    minutes; hours = minutes / 60; days = hours / 24; months =
    days / 30.4375; years = days / 365.25; gigabytes = the sum of the rows'
    megabytes / 1024, each with two decimals.  The rounding of a row is a
    rounding: 100 seconds are 1.67 minutes, 50 seconds 0.83, 125 seconds
    2.08, 7 seconds 0.12, and 128 kilobytes are 0.12 megabytes.  For chunks
    of 3600 and 7200 seconds, with the summation of either Python version,
    the report of a whole run shows 180.00 minutes, 3.00 hours and 0.12
    days (0.125 with two decimals). *)
Theorem grand_totals_arithmetic :
  forall (S : Type) (api : Reporter.remote S) media_types str_timedelta
         format_local str_float format_int day_start_ts day_end_ts cfg,
    (forall chunks summary details (w : Reporter.world S) summary' details' w',
        Reporter.chunk_loop api media_types str_timedelta format_local
          str_float day_start_ts day_end_ts cfg chunks summary details w
        = (Return (summary', details'), w') ->
        exists counts new_rows,
          summary' = summary ++ new_rows /\
          details' = details ++ concat (map Reporter.c_all_entries counts) /\
          map Reporter.range new_rows = map chunk_label chunks /\
          Forall durations_add_up counts /\
          Forall2 row_of_counters counts new_rows) /\
    (forall py_sum summary (w : Reporter.world S),
        let minutes := py_sum (map Reporter.total_duration_minutes summary) in
        let hours := PrimFloat.div minutes 60 in
        let days := PrimFloat.div hours 24 in
        let months := PrimFloat.div days 30.4375 in
        let years := PrimFloat.div days 365.25 in
        let gigabytes :=
          PrimFloat.div (py_sum (map Reporter.flavor_size_sum summary)) 1024 in
        Reporter.print_report format_int py_sum summary w
        = (Return tt,
           Reporter.mkworld (Reporter.server w) (Reporter.stdin w)
             (Reporter.trace w ++
              Reporter.Printed Reporter.SummaryHeader ::
              map (fun row =>
                     Reporter.Printed
                       (Reporter.SummaryLine (Reporter.range row)
                          (format_int (Reporter.entry_count row))
                          (PyFloat.format_2f
                             (Reporter.total_duration_minutes row))))
                  summary ++
              map Reporter.Printed
                [ Reporter.TotalsHeader;
                  Reporter.TotalLine "Entries:"
                    (PyFloat.rjust 15
                       (format_int
                          (fold_left Z.add
                             (map Reporter.entry_count summary) 0)));
                  Reporter.TotalLine "Duration (mins):"
                    (Reporter.show_total minutes);
                  Reporter.TotalLine "Duration (hours):"
                    (Reporter.show_total hours);
                  Reporter.TotalLine "Duration (days):"
                    (Reporter.show_total days);
                  Reporter.TotalLine "Duration (months):"
                    (Reporter.show_total months);
                  Reporter.TotalLine "Duration (years):"
                    (Reporter.show_total years);
                  Reporter.TotalLine "Flavor Size (GB):"
                    (Reporter.show_total gigabytes) ]))) /\
    (map (fun seconds =>
            Reporter.summary_row_of "chunk"
              (Reporter.mkcounters 1 seconds 128 []))
         [100; 50; 125; 7; 3600]
     = map (fun hundredths =>
              Ok (Reporter.mksummary_row "chunk" 1
                    (PrimFloat.div (PyFloat.of_int hundredths) 100)
                    (PrimFloat.div 12 100)))
           [167; 83; 208; 12; 6000]) /\
    (forall py_sum,
        py_sum = PyFloat.sum_plain \/ py_sum = PyFloat.sum_compensated ->
        let finished :=
          Reporter.main_execution MoreExamples.reporter_two_chunks
            Examples.media_types Examples.as_text Examples.as_text
            (fun _ => "0.0") (fun n => pretty n) MoreExamples.day_start
            MoreExamples.day_end "20240310_120000" Examples.writable py_sum
            MoreExamples.two_months_config (Reporter.mkworld tt [] []) in
        fst finished = Return tt /\
        total_lines (Reporter.trace (snd finished))
        = [ ("Entries:", "              2");
            ("Duration (mins):", "         180.00");
            ("Duration (hours):", "           3.00");
            ("Duration (days):", "           0.12");
            ("Duration (months):", "           0.00");
            ("Duration (years):", "           0.00");
            ("Flavor Size (GB):", "           0.00") ]).
Proof.
  intros S api media_types str_timedelta format_local str_float format_int
         day_start_ts day_end_ts cfg.
  split; [intros chunks; apply chunk_loop_rows |].
  split; [intros py_sum summary w; apply print_report_lines |].
  split; [vm_compute; reflexivity |].
  intros py_sum [-> | ->]; vm_compute; split; reflexivity.
Qed.

Lemma grand_totals_arithmetic_witness :
  let w : Reporter.world unit := Reporter.mkworld tt [] [] in
  exists (counts : list Reporter.counters)
         (new_rows : list Reporter.summary_row),
    map Reporter.range new_rows
    = ["2024-01-01 to 2024-01-31"; "2024-02-01 to 2024-02-29"] /\
    Forall durations_add_up counts /\
    Forall2 row_of_counters counts new_rows.
Proof.
  intros w.
  pose (chunks := [ (Calendar.mkdate 2024 1 1, Calendar.mkdate 2024 1 31);
                    (Calendar.mkdate 2024 2 1, Calendar.mkdate 2024 2 29) ]).
  pose (r := Reporter.chunk_loop MoreExamples.reporter_two_chunks
               Examples.media_types Examples.as_text Examples.as_text
               (fun _ => "0.0") MoreExamples.day_start MoreExamples.day_end
               MoreExamples.two_months_config chunks [] [] w).
  destruct (proj1 (grand_totals_arithmetic unit
                     MoreExamples.reporter_two_chunks
                     Examples.media_types Examples.as_text Examples.as_text
                     (fun _ => "0.0") (fun n => pretty n)
                     MoreExamples.day_start MoreExamples.day_end
                     MoreExamples.two_months_config)
              chunks [] [] w
              (match fst r with Return p => fst p | _ => [] end)
              (match fst r with Return p => snd p | _ => [] end)
              (snd r))
    as (counts & new_rows & _ & _ & Hlabels & Hsecs & Hrows).
  - vm_compute. reflexivity.
  - exists counts, new_rows. repeat split; assumption.
Defined.

(** * The Reporter's switches: CSV export and the enrichment prompts *)

Section Switches.
Import Reporter.
Context {S : Type} (api : remote S).
Context (pytz_timezone : string -> result unit)
        (py_int : string -> result Z)
        (strptime_date : string -> result Calendar.date)
        (today : Calendar.date)
        (now_stamp : string)
        (write_csv : string -> result unit).

Lemma py_bool_true x :
  py_bool x = true <-> exists v, x = Some v /\ v <> "".
Proof.
  destruct x as [[| c s] |]; simpl; split; try discriminate.
  - intros (v & [= <-] & Hv). congruence.
  - intros _. eexists. split; [reflexivity | discriminate].
  - reflexivity.
  - intros (v & Hv & _). discriminate.
Qed.

Lemma py_bool_some v : py_bool (Some v) = true <-> v <> "".
Proof.
  rewrite py_bool_true. split.
  - intros (v' & [= <-] & Hv). exact Hv.
  - intros Hv. exists v. split; [reflexivity | exact Hv].
Qed.











(** With an empty answer to the source-name prompt, no URL is fetched. *)
Lemma entry_flavors_no_source_name cfg entry (w : world S) flavors s1 :
  FLAVOR_SIZE cfg <> "" ->
  FLAVOR_SOURCE_NAME cfg = Some "" ->
  flavorAsset_list api (entry_id entry) (server w) = (Ok flavors, s1) ->
  entry_flavors api cfg entry w
  = (Return (Z.of_nat (length flavors),
             fold_left Z.add (map size flavors) 0, None),
     mkworld s1 (stdin w)
       (trace w ++ [Called (FlavorAssetList (entry_id entry))])).
Proof.
  intros Hon Hsn Hl. apply py_bool_some in Hon.
  unfold entry_flavors, flavor_size_enabled, source_name_enabled.
  rewrite Hon, Hsn. unfold bind, call, print, log, ret.
  rewrite Hl. reflexivity.
Qed.


End Switches.



(** * Remote calls that fail: who tries again *)

Section DownloaderCalls.
Import Downloader.
Context {S D : Type} (api : remote S) (fs : filesystem D).








Lemma downloader_calls_app evs1 evs2 :
  downloader_calls (evs1 ++ evs2)
  = downloader_calls evs1 ++ downloader_calls evs2.
Proof.
  induction evs1 as [| ev evs1 IH]; [reflexivity |].
  destruct ev; cbn; rewrite IH; reflexivity.
Qed.

Lemma write_chunks_quiet file_path chunks :
  forall (w : world S D) o w',
    write_chunks fs file_path chunks w = (o, w') ->
    (exists r, o = Return r) /\ server w' = server w /\ trace w' = trace w.
Proof.
  induction chunks as [| chunk rest IH]; intros w o w' H.
  - cbn in H. injection H as <- <-. eauto.
  - cbn [write_chunks] in H. unfold and_then, bind, on_disk in H.
    destruct (file_write fs file_path chunk (disk w)) as [[[] | e] d1].
    + apply IH in H. cbn [server trace] in H. exact H.
    + cbn in H. injection H as <- <-. cbn. eauto.
Qed.

(** However a download ends, it has made one GET request and no other
    call. *)
Lemma download_file_one_get url filename (w : world S D) o w' :
  download_file api fs url filename w = (o, w') ->
  exists evs,
    trace w' = trace w ++ evs /\
    downloader_calls evs = [RequestsGet url].
Proof.
  unfold download_file, and_then. intros H.
  unfold bind at 1 in H. unfold bind at 1 in H. unfold call at 1 in H.
  destruct (requests_get api url (server w)) as [[[] | e] s1].
  - unfold bind at 1 in H. unfold on_disk at 1 in H. cbn [server disk trace] in H.
    destruct (os_makedirs fs DOWNLOAD_FOLDER (disk w)) as [[[] | e] d1].
    + unfold bind at 1 in H. unfold on_disk at 1 in H.
      cbn [server disk trace] in H.
      destruct (open_wb fs _ d1) as [[[] | e] d2].
      * unfold bind at 1 in H. unfold log at 1 in H.
        cbn [server disk trace] in H.
        unfold bind at 1 in H. unfold stream at 1 in H.
        cbn [server disk trace] in H.
        destruct (iter_content api url s1) as [[chunks ending] s2].
        unfold bind at 1 in H. cbn [fst snd] in H.
        destruct (write_chunks fs _ chunks _) as [o1 w1] eqn:Hw.
        apply write_chunks_quiet in Hw. cbn [server trace] in Hw.
        destruct Hw as ([r ->] & _ & Ht).
        destruct r as [[] | e].
        -- destruct ending as [e |].
           ++ cbn [ret] in H.
              destruct e; cbn in H; injection H as <- <-; cbn [trace];
                rewrite ?Ht, <- ?app_assoc; eexists; split;
                try reflexivity; reflexivity.
           ++ cbn in H. injection H as <- <-. rewrite Ht, <- app_assoc.
              eexists; split; reflexivity.
        -- cbn [ret] in H.
           destruct e; cbn in H; injection H as <- <-; cbn [trace];
             rewrite ?Ht, <- ?app_assoc; eexists; split;
             try reflexivity; reflexivity.
      * cbn [ret] in H.
        destruct e; cbn in H; injection H as <- <-; cbn [trace];
          rewrite <- ?app_assoc; eexists; split; try reflexivity; reflexivity.
    + cbn [ret] in H.
      destruct e; cbn in H; injection H as <- <-; cbn [trace];
        rewrite <- ?app_assoc; eexists; split; try reflexivity; reflexivity.
  - cbn [ret] in H.
    destruct e; cbn in H; injection H as <- <-; cbn [trace];
      rewrite <- ?app_assoc; eexists; split; try reflexivity; reflexivity.
Qed.
End DownloaderCalls.

Section ReporterCalls.
Import Reporter.
Context {S : Type} (api : remote S).
Context (media_types : Z -> option string)
        (str_timedelta : Z -> result string)
        (format_local : Z -> result string)
        (str_float : float -> string)
        (cfg : config).




End ReporterCalls.

Section RepublishCalls.
Import Republish.
Context {S : Type} (api : remote S).




End RepublishCalls.

Section ScriptCalls.
Context {S : Type}.


Import RepublishScript.
Context (api : remote S) (py_int : string -> result Z)
        (env : gmap string string).



End ScriptCalls.



(** * Further properties *)

(** Property X1 (Downloader, [get_file_name], lines 147-183).  On any file
    system, when [get_file_name] returns a name it has left the disk as it
    was, and the path of that name in the download folder is one for which
    [os.path.exists] answers no: the collision loop returns only a path that
    it has just found absent.  (Whether another path names the same file is
    for the file system to say.) *)
Theorem derived_name_is_unused :
  forall (S D : Type) (api : Downloader.remote S)
         (fs : Downloader.filesystem D)
         (urlparse_path : string -> result string)
         (fuel : nat) (url : string) (counter : Z)
         (w : Downloader.world S D) (name : string) (w' : Downloader.world S D),
    Downloader.get_file_name api fs urlparse_path fuel url counter w
    = (Return name, w') ->
    Downloader.disk w' = Downloader.disk w /\
    Downloader.os_path_exists fs
      (Text.join Downloader.DOWNLOAD_FOLDER name) (Downloader.disk w')
    = false.
Proof.
  intros S D api fs urlparse_path fuel url counter w name w' H.
  apply get_file_name_returns in H.
  destruct H as (Hdisk & filename & Hfree & _).
  split; [exact Hdisk |]. rewrite Hdisk.
  eapply free_name_is_free. exact Hfree.
Qed.

Lemma derived_name_is_unused_witness :
  Downloader.os_path_exists Examples.plain_disk
    (Text.join Downloader.DOWNLOAD_FOLDER "video_1_2.mp4") Examples.two_videos
  = false.
Proof.
  pose (w := Downloader.mkworld tt Examples.two_videos []
             : Downloader.world unit (gset string)).
  pose (r := Downloader.get_file_name Examples.downloader_library
               Examples.plain_disk Examples.url_path 4
               "https://cdn.example/p/1/flavorId/1_f1/video.mp4" 0 w).
  apply (derived_name_is_unused unit (gset string)
           Examples.downloader_library Examples.plain_disk Examples.url_path
           4 "https://cdn.example/p/1/flavorId/1_f1/video.mp4" 0 w
           "video_1_2.mp4" (snd r)).
  vm_compute. reflexivity.
Defined.

(** Property X2 (Reporter, [get_interval_ranges], monthly mode, lines
    142-145).  From any date up to 9999-11-30, the end the monthly mode computes
    for a chunk is the last day of the month the chunk starts in, leap-year
    February included. *)
Theorem monthly_chunk_ends_with_its_month :
  forall current : Calendar.date,
    Calendar.date_valid current = true ->
    Calendar.date_le current (Calendar.mkdate 9999 11 30) = true ->
    Reporter.next_date_of current 2
    = Ok (Calendar.mkdate (Calendar.year current) (Calendar.month current)
            (Calendar.days_in_month (Calendar.year current)
               (Calendar.month current))).
Proof.
  intros current Hv Hle. apply monthly_next_date; [exact Hv |].
  rewrite date_le_toordinal in Hle by (exact Hv || reflexivity).
  apply Z.leb_le in Hle. exact Hle.
Qed.

Lemma monthly_chunk_ends_with_its_month_witness :
  Reporter.next_date_of (Calendar.mkdate 2024 2 10) 2
  = Ok (Calendar.mkdate 2024 2 29).
Proof.
  apply (monthly_chunk_ends_with_its_month (Calendar.mkdate 2024 2 10));
    reflexivity.
Defined.

(** Property X3 (Republish, lines 109-172).  When the platform lists no
    association of the entry with the category, before and after the Remove
    step, the step makes no delete call, prints its warning and reports
    success, the verification confirms the removal and the add call is
    made. *)
Theorem missing_association_is_added :
  forall (S : Type) (api : Republish.remote S)
         (entry_id category_id : string) (w : Republish.world S)
         (resp resp' : Republish.list_response) (s1 s2 : S),
    Republish.categoryEntry_list api category_id entry_id (Republish.server w)
    = (Ok resp, s1) ->
    Republish.has_matches resp = false ->
    Republish.categoryEntry_list api category_id entry_id s1 = (Ok resp', s2) ->
    Republish.has_matches resp' = false ->
    exists o w' evs,
      Republish.process_entry api entry_id category_id w = (o, w') /\
      Republish.trace w'
      = Republish.trace w ++
        [ Republish.Printed Republish.Separator;
          Republish.Printed (Republish.Processing entry_id category_id);
          Republish.Printed Republish.Removing;
          Republish.Called (Republish.CategoryEntryList category_id entry_id);
          Republish.Printed
            (Republish.NotActiveSkippingRemoval entry_id category_id);
          Republish.Called (Republish.CategoryEntryList category_id entry_id);
          Republish.Printed (Republish.ConfirmedRemoved entry_id category_id);
          Republish.Printed Republish.Adding;
          Republish.Called (Republish.CategoryEntryAdd category_id entry_id) ]
        ++ evs.
Proof.
  intros S api entry_id category_id w resp resp' s1 s2 H1 Hm1 H2 Hm2.
  rewrite process_entry_unfold.
  unfold announced, Republish.remove_from_category, Republish.entry_in_category,
    Republish.is_active, Republish.add_to_category,
    bind, Republish.call, Republish.print, Republish.log, ret.
  cbn [Republish.server Republish.trace].
  rewrite H1. cbn. rewrite Hm1. cbn. rewrite H2. cbn. rewrite Hm2. cbn.
  destruct (Republish.categoryEntry_add api category_id entry_id s2)
    as [[[] | e] s3]; cbn.
  - destruct (Republish.categoryEntry_list api category_id entry_id s3)
      as [[resp3 | e] s4]; cbn.
    + destruct (Republish.has_matches resp3); cbn;
        do 3 eexists; (split; [reflexivity |]); cbn;
        rewrite <- !app_assoc; cbn; reflexivity.
    + do 3 eexists. split; [reflexivity |]. cbn.
      rewrite <- !app_assoc. cbn. reflexivity.
  - do 3 eexists. split; [reflexivity |]. cbn.
    rewrite <- !app_assoc. cbn. reflexivity.
Qed.

Lemma missing_association_is_added_witness :
  let w : Republish.world (list (string * string * Z)) :=
    Republish.mkworld [] [] in
  exists o w' evs,
    Republish.process_entry Republish.platform "1_abc" "42" w = (o, w') /\
    Republish.trace w'
    = Republish.trace w ++
      [ Republish.Printed Republish.Separator;
        Republish.Printed (Republish.Processing "1_abc" "42");
        Republish.Printed Republish.Removing;
        Republish.Called (Republish.CategoryEntryList "42" "1_abc");
        Republish.Printed (Republish.NotActiveSkippingRemoval "1_abc" "42");
        Republish.Called (Republish.CategoryEntryList "42" "1_abc");
        Republish.Printed (Republish.ConfirmedRemoved "1_abc" "42");
        Republish.Printed Republish.Adding;
        Republish.Called (Republish.CategoryEntryAdd "42" "1_abc") ]
      ++ evs.
Proof.
  intros w.
  apply (missing_association_is_added _ Republish.platform "1_abc" "42" w
           (Republish.mklist_response (Some 0) [])
           (Republish.mklist_response (Some 0) []) [] []);
    reflexivity.
Defined.

(** * More on the Reporter's chunks *)

Section ChunkShapes.
Import Calendar Reporter.

(** Each pair the loop yields starts on or before [E] and ends at the
    smaller of the computed chunk end and [E]. *)
Lemma interval_loop_chunks E t fuel :
  forall cur cs fin,
    interval_loop fuel cur E t = (cs, fin) ->
    Forall (fun c => date_le (fst c) E = true /\
                     exists nd, next_date_of (fst c) t = Ok nd /\
                                snd c = date_min nd E) cs.
Proof.
  induction fuel as [| fuel IH]; intros cur cs fin H.
  - injection H as <- <-. constructor.
  - cbn [interval_loop] in H.
    destruct (date_le cur E) eqn:Hle; [| injection H as <- <-; constructor].
    destruct (next_date_of cur t) as [nd | e] eqn:Hnd;
      [| injection H as <- <-; constructor].
    destruct (add_days nd 1) as [cur' | e].
    + destruct (interval_loop fuel cur' E t) as [rest fin'] eqn:Hrest.
      injection H as <- <-. constructor.
      * split; [exact Hle |]. exists nd. split; [exact Hnd | reflexivity].
      * eapply IH. exact Hrest.
    + injection H as <- <-. constructor; [| constructor].
      split; [exact Hle |]. exists nd. split; [exact Hnd | reflexivity].
Qed.

Lemma get_interval_ranges_tiles S0 E t :
  date_valid S0 = true -> date_valid E = true ->
  date_le S0 E = true -> supported_interval t ->
  date_le E (last_supported_end t) = true ->
  exists chunks,
    get_interval_ranges S0 E t = (chunks, StopIteration) /\
    tiles (toordinal S0) (toordinal E) chunks.
Proof.
  intros HS HE HSE Ht Hsup.
  destruct (last_supported_end_ordinal t Ht) as [Hvsup _].
  rewrite date_le_toordinal in HSE, Hsup by assumption.
  apply Z.leb_le in HSE, Hsup.
  destruct (interval_loop_spec t E Ht HE Hsup
              (Datatypes.S (Datatypes.S (Z.to_nat (toordinal E - toordinal S0))))
              S0 HS) as [_ Hgo].
  exact (Hgo HSE (fuel_of_range S0 E HSE)).
Qed.

(** A date from [a] up to a day of [a]'s month lies in that month. *)
Lemma between_same_month a b d :
  date_le a b = true ->
  date_lt b (mkdate (year a) (month a) d) = true ->
  year b = year a /\ month b = month a.
Proof.
  unfold date_le, date_lt, cmp. cbn [year month day].
  destruct (Z.compare_spec (year a) (year b)),
           (Z.compare_spec (year b) (year a)); try discriminate; try lia.
  destruct (Z.compare_spec (month a) (month b)),
           (Z.compare_spec (month b) (month a)); try discriminate; try lia.
Qed.

Lemma between_same_year a b m d :
  date_le a b = true ->
  date_lt b (mkdate (year a) m d) = true ->
  year b = year a.
Proof.
  unfold date_le, date_lt, cmp. cbn [year month day].
  destruct (Z.compare_spec (year a) (year b)),
           (Z.compare_spec (year b) (year a)); try discriminate; lia.
Qed.

Lemma date_min_cases nd E :
  (date_lt E nd = true /\ date_min nd E = E) \/
  (date_lt E nd = false /\ date_min nd E = nd).
Proof. unfold date_min. destruct (date_lt E nd); auto. Qed.
End ChunkShapes.

(** Property X4 (Reporter, [get_interval_ranges], lines 139-157).  Under the
    conditions of the partition theorem every pair that is yielded has the
    shape of its mode: a yearly pair stays within one calendar year and ends
    on 31 December or at the end of the range; a monthly pair stays within
    one calendar month and ends on its last day or at the end of the range;
    a weekly pair ends six days after its start or at the end of the range;
    a daily pair is a single day. *)
Theorem chunks_fit_interval :
  forall (start_date end_date : Calendar.date) (interval_type : Z),
    Calendar.date_valid start_date = true ->
    Calendar.date_valid end_date = true ->
    Calendar.date_le start_date end_date = true ->
    supported_interval interval_type ->
    Calendar.date_le end_date (Reporter.last_supported_end interval_type)
    = true ->
    Forall (chunk_fits interval_type end_date)
           (fst (Reporter.get_interval_ranges start_date end_date
                                              interval_type)).
Proof.
  intros S0 E t HS HE HSE Ht Hsup.
  destruct (get_interval_ranges_tiles S0 E t HS HE HSE Ht Hsup)
    as (chunks & Hrun & Htiles).
  pose proof (interval_loop_chunks E t _ _ _ _ Hrun) as Hshape.
  pose proof (tiles_Forall _ _ _ Htiles) as Hvalid.
  rewrite Hrun. cbn [fst].
  destruct (last_supported_end_ordinal t Ht) as [Hvsup Hosup].
  rewrite date_le_toordinal in Hsup by assumption. apply Z.leb_le in Hsup.
  rewrite Forall_forall in *. intros c Hc.
  destruct (Hshape c Hc) as (Hle & nd & Hnd & Hsnd).
  destruct (Hvalid c Hc) as (Hvs & Hve & Hlo & Hhi).
  unfold chunk_fits.
  destruct Ht as [-> | [-> | [-> | ->]]]; cbn [Z.eqb Pos.eqb].
  - (* yearly *)
    change (Reporter.next_date_of (fst c) 1)
      with (Calendar.new_date (Calendar.year (fst c)) 12 31) in Hnd.
    unfold Calendar.new_date in Hnd.
    destruct (Calendar.check_date_fields _ 12 31); [| discriminate].
    injection Hnd as <-.
    destruct (date_min_cases (Calendar.mkdate (Calendar.year (fst c)) 12 31) E)
      as [[Hlt Hmin] | [Hlt Hmin]]; rewrite Hsnd, Hmin.
    + split; [| left; reflexivity].
      eapply between_same_year; eassumption.
    + split; [reflexivity | right; split; reflexivity].
  - (* monthly *)
    rewrite monthly_next_date in Hnd by (assumption || (simpl in Hosup; lia)).
    injection Hnd as <-.
    destruct (date_min_cases
                (Calendar.mkdate (Calendar.year (fst c)) (Calendar.month (fst c))
                   (Calendar.days_in_month (Calendar.year (fst c))
                      (Calendar.month (fst c)))) E)
      as [[Hlt Hmin] | [Hlt Hmin]]; rewrite Hsnd, Hmin.
    + destruct (between_same_month _ _ _ Hle Hlt) as [Hy Hm].
      repeat split; [exact Hy | exact Hm | left; reflexivity].
    + repeat split. right. reflexivity.
  - (* weekly *)
    change (Reporter.next_date_of (fst c) 3) with (Calendar.add_days (fst c) 6)
      in Hnd.
    destruct (add_days_ok (fst c) 6 Hvs) as (nd' & Hadd & Hvnd & Hond).
    { pose proof (toordinal_range _ Hvs). simpl in Hosup.
      unfold Calendar.MAXORDINAL. lia. }
    rewrite Hadd in Hnd. injection Hnd as <-.
    rewrite Hsnd. destruct (date_min_toordinal nd' E Hvnd HE) as [_ Hmin].
    rewrite Hmin, Hond. reflexivity.
  - (* daily *)
    change (Reporter.next_date_of (fst c) 4) with (Ok (fst c)) in Hnd.
    injection Hnd as <-. rewrite Hsnd.
    unfold Calendar.date_min.
    rewrite date_lt_toordinal, date_le_toordinal in * by assumption.
    apply Z.leb_le in Hle.
    destruct (Z.ltb_spec (Calendar.toordinal E) (Calendar.toordinal (fst c)));
      [lia | reflexivity].
Qed.

Lemma chunks_fit_interval_witness :
  Forall (chunk_fits 2 (Calendar.mkdate 2024 3 10))
         (fst (Reporter.get_interval_ranges
                 (Calendar.mkdate 2024 1 15) (Calendar.mkdate 2024 3 10) 2)).
Proof.
  apply (chunks_fit_interval (Calendar.mkdate 2024 1 15)
           (Calendar.mkdate 2024 3 10) 2).
  - reflexivity.
  - reflexivity.
  - reflexivity.
  - right. left. reflexivity.
  - reflexivity.
Defined.

(** * More on the Reporter's chunk query *)

Section QueryFacts.
Import Reporter.
Context {S : Type} (api : remote S).
Context (media_types : Z -> option string)
        (str_timedelta : Z -> result string)
        (format_local : Z -> result string)
        (str_float : float -> string)
        (cfg : config).

Abbreviation make_row :=
  (Reporter.make_row media_types str_timedelta format_local str_float).
Abbreviation process_page :=
  (Reporter.process_page api media_types str_timedelta format_local
                         str_float cfg).
Abbreviation fetch_loop :=
  (Reporter.fetch_loop api media_types str_timedelta format_local
                       str_float cfg).

Lemma mkcounters_eq a a' b b' c c' d d' :
  a = a' -> b = b' -> c = c' -> d = d' ->
  mkcounters a b c d = mkcounters a' b' c' d'.
Proof. congruence. Qed.

(** Whatever the flavor calls answer, [entry_flavors] returns. *)
Lemma entry_flavors_returns entry (w : world S) :
  exists r w', entry_flavors api cfg entry w = (Return r, w').
Proof.
  unfold entry_flavors, bind, call, print, log, ret.
  destruct (flavor_size_enabled cfg); [| eauto].
  destruct (flavorAsset_list api (entry_id entry) (server w))
    as [[flavors | e] s2]; cbn; [| eauto].
  destruct (if source_name_enabled cfg then _ else _) as [sf |];
    cbn; [| eauto].
  destruct (flavorAsset_getUrl api (flavor_id sf) s2) as [[url | e] s3];
    cbn; eauto.
Qed.

Lemma entry_flavors_off entry (w : world S) :
  flavor_size_enabled cfg = false ->
  entry_flavors api cfg entry w
  = (Return (listed_flavor_count entry, 0, None), w).
Proof. unfold entry_flavors. intros ->. reflexivity. Qed.

(** A page with an entry whose media type has no name does not come to
    its end: an exception leaves it. *)
Lemma process_page_unknown_type objects :
  Exists (fun entry => media_types (mediaType entry) = None) objects ->
  forall c (w : world S),
    exists e w', process_page objects c w = (Uncaught e, w').
Proof.
  induction objects as [| entry rest IH]; intros Hex c w.
  - inversion Hex.
  - cbn [Reporter.process_page]. unfold bind at 1.
    destruct (entry_flavors_returns entry w) as ([[fc fs] ofn] & w1 & ->).
    unfold bind at 1.
    destruct (make_row entry fc fs ofn) as [row | e] eqn:Hrow.
    + cbn [lift ret]. apply IH.
      inversion Hex as [? ? Hhere | ? ? Hlater]; subst; [| exact Hlater].
      unfold Reporter.make_row in Hrow. rewrite Hhere in Hrow.
      discriminate.
    + cbn [lift raise]. eauto.
Qed.

(** Without enrichment a page of entries whose rows can be made is
    processed without any call: the counters grow by the page. *)
Lemma process_page_off objects rows :
  flavor_size_enabled cfg = false ->
  Forall2 (fun entry row =>
             make_row entry (listed_flavor_count entry) 0 None = Ok row)
          objects rows ->
  forall c (w : world S),
    process_page objects c w
    = (Return (mkcounters
                 (c_entry_count c + Z.of_nat (length objects))
                 (c_total_duration c
                  + sum_Z (map (fun e => default 0 (duration e)) objects))
                 (c_total_flavor_size c)
                 (c_all_entries c ++ rows)), w).
Proof.
  intros Hoff Hrows.
  induction Hrows as [| entry row rest rows' Hrow _ IH]; intros c w.
  - cbn. rewrite !Z.add_0_r, app_nil_r. destruct c; reflexivity.
  - cbn [Reporter.process_page]. unfold bind at 1.
    rewrite entry_flavors_off by exact Hoff.
    unfold bind at 1. rewrite Hrow. cbn [lift ret]. rewrite IH.
    cbn [c_entry_count c_total_duration c_total_flavor_size c_all_entries
         length map sum_Z fold_right].
    do 2 f_equal. apply mkcounters_eq;
      [lia | unfold sum_Z; lia | lia | rewrite <- app_assoc; reflexivity].
Qed.

(** With the entry of the unnamed type reached, the exception is
    [KeyError]. *)
Lemma process_page_key_error pre rows entry post :
  flavor_size_enabled cfg = false ->
  Forall2 (fun entry row =>
             make_row entry (listed_flavor_count entry) 0 None = Ok row)
          pre rows ->
  media_types (mediaType entry) = None ->
  forall c (w : world S),
    process_page (pre ++ entry :: post) c w = (Uncaught KeyError, w).
Proof.
  intros Hoff Hrows Hunknown.
  induction Hrows as [| e row rest rows' Hrow _ IH]; intros c w.
  - cbn [app Reporter.process_page]. unfold bind at 1.
    rewrite entry_flavors_off by exact Hoff.
    unfold bind at 1. unfold Reporter.make_row. rewrite Hunknown.
    reflexivity.
  - cbn [app Reporter.process_page]. unfold bind at 1.
    rewrite entry_flavors_off by exact Hoff.
    unfold bind at 1. rewrite Hrow. cbn [lift ret]. apply IH.
Qed.

Lemma fetch_loop_off filter pages :
  flavor_size_enabled cfg = false ->
  forall fuel pageIndex c (w : world S) s_end rows,
    (length pages < fuel)%nat ->
    reporter_serves api filter pageIndex (server w) pages s_end ->
    Forall2 (fun entry row =>
               make_row entry (listed_flavor_count entry) 0 None = Ok row)
            (concat pages) rows ->
    c_entry_count c + Z.of_nat (length (concat pages)) < 10000 ->
    fetch_loop fuel filter pageIndex c w
    = (Return (mkcounters
                 (c_entry_count c + Z.of_nat (length (concat pages)))
                 (c_total_duration c
                  + sum_Z (map (fun e => default 0 (duration e))
                               (concat pages)))
                 (c_total_flavor_size c)
                 (c_all_entries c ++ rows)),
       mkworld s_end (stdin w)
         (trace w ++ reporter_page_events filter pageIndex pages)).
Proof.
  intros Hoff. induction pages as [| page rest IH];
    intros fuel pageIndex c w s_end rows Hfuel Hserves Hrows Hcount.
  - destruct fuel as [| fuel]; [cbn in Hfuel; lia |].
    cbn in Hserves. cbn [concat] in Hrows. inversion Hrows; subst.
    cbn [Reporter.fetch_loop]. unfold bind at 1. unfold call.
    rewrite Hserves. cbn. rewrite !Z.add_0_r, app_nil_r.
    destruct c; reflexivity.
  - destruct fuel as [| fuel]; [cbn in Hfuel; lia |].
    cbn [length] in Hfuel.
    destruct Hserves as (Hne & s1 & Hlist & Hrest).
    cbn [concat] in Hrows, Hcount.
    apply Forall2_app_inv_l in Hrows.
    destruct Hrows as (rows1 & rows2 & Hrows1 & Hrows2 & ->).
    rewrite length_app in Hcount.
    cbn [Reporter.fetch_loop]. unfold bind at 1. unfold call.
    rewrite Hlist.
    destruct page as [| entry page']; [congruence |].
    unfold bind at 1. unfold print at 1. unfold log at 1.
    cbn [server stdin trace]. unfold bind at 1.
    rewrite (process_page_off (entry :: page') rows1 Hoff Hrows1).
    cbn [c_entry_count].
    destruct (Z.leb_spec 10000
                (c_entry_count c + Z.of_nat (length (entry :: page'))));
      [lia |].
    rewrite (IH fuel (pageIndex + 1) _ _ s_end rows2);
      [| lia | exact Hrest | exact Hrows2 | cbn [c_entry_count]; lia].
    cbn [c_entry_count c_total_duration c_total_flavor_size c_all_entries
         server stdin trace concat reporter_page_events].
    rewrite <- !app_assoc. cbn [app].
    change (entry :: page' ++ concat rest)
      with ((entry :: page') ++ concat rest).
    do 2 f_equal. apply mkcounters_eq;
      [rewrite length_app; lia | rewrite map_app, sum_Z_app; lia
       | reflexivity | reflexivity].
Qed.
End QueryFacts.

Section ListFields.
Import Text.

(** [s.split(",")] has one piece more than [s] has commas. *)
Lemma split_from_comma s piece :
  length (split_from "," s 0 piece) = S (count_char "," s).
Proof.
  revert piece. induction s as [| c s IH]; intros piece; [reflexivity |].
  cbn [split_from startswith count_char String.length Nat.sub].
  rewrite andb_true_r.
  destruct (Ascii.eqb c ","); cbn [length]; rewrite IH; reflexivity.
Qed.

Lemma count_char_append x (a b : string) :
  count_char x (a +:+ b) = (count_char x a + count_char x b)%nat.
Proof.
  induction a as [| c a IH]; [reflexivity |].
  rewrite append_cons. cbn [count_char]. rewrite IH. lia.
Qed.

Lemma replace_char_count old new s :
  count_char old new = 0%nat ->
  count_char old (replace_char old new s) = 0%nat.
Proof.
  intros Hnew. induction s as [| c s IH]; [reflexivity |].
  cbn [replace_char]. rewrite count_char_append, IH.
  destruct (Ascii.eqb c old) eqn:E; [lia |].
  cbn [count_char]. rewrite E. reflexivity.
Qed.

Lemma replace_char_length old x s :
  String.length (replace_char old (String x "") s) = String.length s.
Proof.
  induction s as [| c s IH]; [reflexivity |].
  cbn [replace_char]. rewrite length_append, IH.
  destruct (Ascii.eqb c old); reflexivity.
Qed.

Lemma replace_char_absent old new s :
  count_char old s = 0%nat -> replace_char old new s = s.
Proof.
  induction s as [| c s IH]; [reflexivity |].
  cbn [count_char replace_char].
  destruct (Ascii.eqb c old); [discriminate |].
  intros H. rewrite IH by exact H. rewrite append_cons, append_empty_l.
  reflexivity.
Qed.
End ListFields.

Section ReportRuns.
Import Reporter.
Context {S : Type} (api : remote S).
Context (media_types : Z -> option string)
        (str_timedelta : Z -> result string)
        (format_local : Z -> result string)
        (str_float : float -> string)
        (format_int : Z -> string)
        (day_start_ts day_end_ts : Calendar.date -> result Z)
        (now_stamp : string)
        (write_csv : string -> result unit)
        (py_sum : list float -> float)
        (cfg : config).

Abbreviation main_execution :=
  (Reporter.main_execution api media_types str_timedelta format_local
     str_float format_int day_start_ts day_end_ts now_stamp write_csv
     py_sum cfg).

(** Property X5 (Reporter, [get_interval_ranges] and the main loop, lines
    136-157 and 311-313).  A restriction interval other than 1, 2, 3 or 4
    is rejected only when the first chunk is asked for: the generator
    raises [ValueError] before it yields anything, and the run ends with
    that error without a query, a report or a file. *)
Theorem invalid_interval_aborts :
  forall w : world S,
    Calendar.date_le (START_DATE cfg) (END_DATE cfg) = true ->
    ~ supported_interval (RESTRICTION_INTERVAL cfg) ->
    get_interval_ranges (START_DATE cfg) (END_DATE cfg)
                        (RESTRICTION_INTERVAL cfg)
    = ([], Raised ValueError) /\
    main_execution w = (Uncaught ValueError, w).
Proof.
  intros w Hle Hbad.
  assert (Hnext : next_date_of (START_DATE cfg) (RESTRICTION_INTERVAL cfg)
                  = Raise ValueError).
  { unfold next_date_of, supported_interval in *.
    destruct (Z.eqb_spec (RESTRICTION_INTERVAL cfg) 1); [tauto |].
    destruct (Z.eqb_spec (RESTRICTION_INTERVAL cfg) 2); [tauto |].
    destruct (Z.eqb_spec (RESTRICTION_INTERVAL cfg) 3); [tauto |].
    destruct (Z.eqb_spec (RESTRICTION_INTERVAL cfg) 4); [tauto |].
    reflexivity. }
  assert (Hgen : get_interval_ranges (START_DATE cfg) (END_DATE cfg)
                                     (RESTRICTION_INTERVAL cfg)
                 = ([], Raised ValueError)).
  { unfold get_interval_ranges. cbn [interval_loop].
    rewrite Hle, Hnext. reflexivity. }
  split; [exact Hgen |].
  unfold Reporter.main_execution. rewrite Hgen. reflexivity.
Qed.

(** Property X6 (Reporter, the enrichment of one entry, lines 217-247).
    Whatever the two flavor calls answer, the enrichment of an entry ends
    normally: no exception of [flavorAsset.list] or [flavorAsset.getUrl]
    stops the report, and the prompts still to be answered are left
    alone. *)
Theorem enrichment_failures_are_contained :
  forall (entry : media_entry) (w : world S),
  exists r w',
    entry_flavors api cfg entry w = (Return r, w') /\ stdin w' = stdin w.
Proof.
  intros entry w.
  unfold entry_flavors, bind, call, print, log, ret.
  destruct (flavor_size_enabled cfg); [| eauto].
  destruct (flavorAsset_list api (entry_id entry) (server w))
    as [[flavors | e] s2]; cbn; [| eauto].
  destruct (if source_name_enabled cfg then _ else _) as [sf |];
    cbn; [| eauto].
  destruct (flavorAsset_getUrl api (flavor_id sf) s2) as [[url | e] s3];
    cbn; eauto.
Qed.

(** Property X7 (Reporter, [fetch_entries_for_interval], lines 211-283).
    When a page that the platform returns holds an entry whose media type
    is not a key of [media_types], the chunk query does not return: an
    exception ends it and the rows collected so far are lost.  Without
    enrichment, when the rows of the entries before it on the page can be
    made, the exception is the [KeyError] of that entry, raised before
    anything else is asked of the platform. *)
Theorem unknown_media_type_stops_the_query :
  forall fuel filter pageIndex c (w : world S) objects s1,
    media_list api filter pageIndex (server w) = (Ok objects, s1) ->
    Exists (fun entry => media_types (mediaType entry) = None) objects ->
    (exists e w',
        Reporter.fetch_loop api media_types str_timedelta format_local
          str_float cfg (Datatypes.S fuel) filter pageIndex c w
        = (Uncaught e, w')) /\
    (forall pre rows entry post,
        objects = pre ++ entry :: post ->
        media_types (mediaType entry) = None ->
        flavor_size_enabled cfg = false ->
        Forall2 (fun entry row =>
                   Reporter.make_row media_types str_timedelta format_local
                     str_float entry (listed_flavor_count entry) 0 None
                   = Ok row)
                pre rows ->
        Reporter.fetch_loop api media_types str_timedelta format_local
          str_float cfg (Datatypes.S fuel) filter pageIndex c w
        = (Uncaught KeyError,
           mkworld s1 (stdin w)
             (trace w ++
              [Called (MediaList filter pageIndex);
               Printed (ProcessingPage pageIndex
                          (Z.of_nat (length objects)))]))).
Proof.
  intros fuel filter pageIndex c w objects s1 Hlist Hex.
  split.
  - cbn [Reporter.fetch_loop]. unfold bind at 1. unfold call. rewrite Hlist.
    destruct objects as [| entry rest]; [inversion Hex |].
    unfold bind at 1. unfold print at 1. unfold log at 1.
    cbn [server stdin trace]. unfold bind at 1.
    destruct (process_page_unknown_type api media_types str_timedelta
                format_local str_float cfg (entry :: rest) Hex c
                (mkworld s1 (stdin w)
                   ((trace w ++ [Called (MediaList filter pageIndex)]) ++
                    [Printed (ProcessingPage pageIndex
                                (Z.of_nat (length (entry :: rest))))])))
      as (e & w' & ->).
    eauto.
  - intros pre rows entry post Hobjects Hunknown Hoff Hrows.
    cbn [Reporter.fetch_loop]. unfold bind at 1. unfold call. rewrite Hlist.
    destruct objects as [| first rest];
      [destruct pre; discriminate |].
    unfold bind at 1. unfold print at 1. unfold log at 1.
    cbn [server stdin trace]. unfold bind at 1.
    rewrite Hobjects.
    rewrite (process_page_key_error api media_types str_timedelta
               format_local str_float cfg pre rows entry post Hoff Hrows
               Hunknown).
    rewrite <- app_assoc. reflexivity.
Qed.

(** Property X8 (Reporter, [fetch_entries_for_interval], lines 160-301).
    Without enrichment, when the platform answers the chunk's query with
    pages of fewer than 10,000 entries in all and then with an empty page,
    and a row can be made for each of these entries (its media type has a
    name and its times are within the range of the library), the query
    returns the number of entries, the sum of their durations (a missing
    duration counts as 0), flavor size 0 and the rows of the entries in the
    order of the pages; it makes one list call per page, pages 1, 2, ...
    in turn, and no other call. *)
Theorem query_without_enrichment :
  forall start_ts end_ts (w : world S) pages s_end rows,
    flavor_size_enabled cfg = false ->
    reporter_serves api (build_filter cfg start_ts end_ts) 1 (server w)
                    pages s_end ->
    Forall2 (fun entry row =>
               Reporter.make_row media_types str_timedelta format_local
                 str_float entry (listed_flavor_count entry) 0 None
               = Ok row)
            (concat pages) rows ->
    Z.of_nat (length (concat pages)) < 10000 ->
    fetch_entries_for_interval api media_types str_timedelta format_local
      str_float cfg start_ts end_ts w
    = (Return (mkcounters
                 (Z.of_nat (length (concat pages)))
                 (sum_Z (map (fun e => default 0 (duration e))
                             (concat pages)))
                 0 rows),
       mkworld s_end (stdin w)
         (trace w ++
          reporter_page_events (build_filter cfg start_ts end_ts) 1
                               pages)).
Proof.
  intros start_ts end_ts w pages s_end rows Hoff Hserves Hrows Hcount.
  unfold Reporter.fetch_entries_for_interval.
  assert (Hfuel : (length pages < Z.to_nat 10001)%nat).
  { assert (Hlen : (length pages <= length (concat pages))%nat).
    { clear - Hserves. revert Hserves. generalize 1 (server w).
      induction pages as [| page rest IH]; intros i s H; [cbn; lia |].
      cbn in H. destruct H as (Hne & s1 & _ & Hrest).
      cbn [concat length]. rewrite length_app.
      specialize (IH _ _ Hrest).
      destruct page; [congruence | cbn [length]; lia]. }
    lia. }
  rewrite (fetch_loop_off api media_types str_timedelta format_local
             str_float cfg (build_filter cfg start_ts end_ts) pages Hoff
             (Z.to_nat 10001) 1 (mkcounters 0 0 0 []) w s_end rows
             Hfuel Hserves Hrows).
  - cbn [c_entry_count c_total_duration c_total_flavor_size
         c_all_entries app]. reflexivity.
  - cbn [c_entry_count]. lia.
Qed.

(** Property X9 (Reporter, line 247).  Without enrichment the flavor count
    of an entry is the number of commas of its [flavorParamsIds] plus one,
    so an entry with an empty [flavorParamsIds] is reported with one
    flavor; no call is made for it. *)
Theorem flavor_count_without_enrichment :
  forall (entry : media_entry) (w : world S),
    flavor_size_enabled cfg = false ->
    entry_flavors api cfg entry w
    = (Return (Z.of_nat (count_char "," (flavorParamsIds entry)) + 1,
               0, None), w).
Proof.
  intros entry w Hoff. unfold entry_flavors. rewrite Hoff.
  unfold Text.split. rewrite split_from_comma.
  rewrite Nat2Z.inj_succ. unfold Z.succ. reflexivity.
Qed.
End ReportRuns.

(** Property X10 (Reporter, rows of the details file, lines 274-275).  In
    every row the categories and the tags of the entry have each comma
    replaced by a semicolon: no comma is left, the length is unchanged, and
    a list without commas is kept as it is. *)
Theorem row_lists_use_semicolons :
  forall media_types str_timedelta format_local str_float
         (entry : Reporter.media_entry) flavor_count flavor_size_sum
         original_filename row,
    Reporter.make_row media_types str_timedelta format_local str_float entry
      flavor_count flavor_size_sum original_filename = Ok row ->
    (count_char "," (Reporter.row_categories row) = 0%nat /\
     String.length (Reporter.row_categories row)
     = String.length (Reporter.categories entry) /\
     (count_char "," (Reporter.categories entry) = 0%nat ->
      Reporter.row_categories row = Reporter.categories entry)) /\
    (count_char "," (Reporter.row_tags row) = 0%nat /\
     String.length (Reporter.row_tags row)
     = String.length (Reporter.tags entry) /\
     (count_char "," (Reporter.tags entry) = 0%nat ->
      Reporter.row_tags row = Reporter.tags entry)).
Proof.
  intros media_types str_timedelta format_local str_float entry fc fs name row
         Hrow.
  unfold Reporter.make_row in Hrow.
  destruct (media_types (Reporter.mediaType entry)); [| discriminate].
  repeat match type of Hrow with
         | bind_result ?x _ = _ =>
             destruct x; cbn [bind_result] in Hrow; [| discriminate]
         end.
  injection Hrow as <-. cbn [Reporter.row_categories Reporter.row_tags].
  repeat split;
    auto using replace_char_count, replace_char_length, replace_char_absent.
Qed.

Lemma invalid_interval_aborts_witness :
  let w : Reporter.world unit := Reporter.mkworld tt [] [] in
  Reporter.get_interval_ranges
    (Calendar.mkdate 2024 1 15) (Calendar.mkdate 2024 3 10) 7
  = ([], Reporter.Raised ValueError) /\
  Reporter.main_execution Examples.reporter_one_entry Examples.media_types
    Examples.as_text Examples.as_text (fun _ => "0.0") (fun n => pretty n)
    MoreExamples.day_start MoreExamples.day_end "20240310_120000"
    Examples.writable PyFloat.sum_plain MoreExamples.config_interval_7 w
  = (Uncaught ValueError, w).
Proof.
  intros w.
  apply (invalid_interval_aborts Examples.reporter_one_entry
           Examples.media_types Examples.as_text Examples.as_text
           (fun _ => "0.0") (fun n => pretty n) MoreExamples.day_start
           MoreExamples.day_end "20240310_120000" Examples.writable
           PyFloat.sum_plain MoreExamples.config_interval_7 w).
  - reflexivity.
  - unfold supported_interval. cbn. lia.
Defined.

Lemma unknown_media_type_stops_the_query_witness :
  let w : Reporter.world unit := Reporter.mkworld tt [] [] in
  let filter := Reporter.build_filter Examples.sample_config 0 86399 in
  Reporter.fetch_loop MoreExamples.reporter_unnamed_type Examples.media_types
    Examples.as_text Examples.as_text (fun _ => "0.0") Examples.sample_config
    1 filter 1 (Reporter.mkcounters 0 0 0 []) w
  = (Uncaught KeyError,
     Reporter.mkworld tt []
       [Reporter.Called (Reporter.MediaList filter 1);
        Reporter.Printed (Reporter.ProcessingPage 1 2)]).
Proof.
  intros w filter.
  assert (Hex : Exists
                  (fun entry =>
                     Examples.media_types (Reporter.mediaType entry) = None)
                  [Examples.sample_entry; MoreExamples.unnamed_type_entry]).
  { apply Exists_cons_tl. apply Exists_cons_hd. reflexivity. }
  destruct (unknown_media_type_stops_the_query
              MoreExamples.reporter_unnamed_type
              Examples.media_types Examples.as_text Examples.as_text
              (fun _ => "0.0") Examples.sample_config 0 filter 1
              (Reporter.mkcounters 0 0 0 []) w
              [Examples.sample_entry; MoreExamples.unnamed_type_entry] tt
              eq_refl Hex) as [_ Hkey].
  eapply (Hkey [Examples.sample_entry] _ MoreExamples.unnamed_type_entry []).
  - reflexivity.
  - reflexivity.
  - reflexivity.
  - repeat constructor.
Defined.

Lemma query_without_enrichment_witness :
  let w : Reporter.world unit := Reporter.mkworld tt [] [] in
  let filter := Reporter.build_filter Examples.sample_config 0 86399 in
  exists rows,
    Forall2 (fun entry row =>
               Reporter.make_row Examples.media_types Examples.as_text
                 Examples.as_text (fun _ => "0.0") entry
                 (listed_flavor_count entry) 0 None = Ok row)
            [Examples.sample_entry] rows /\
    Reporter.fetch_entries_for_interval Examples.reporter_one_entry
      Examples.media_types Examples.as_text Examples.as_text (fun _ => "0.0")
      Examples.sample_config 0 86399 w
    = (Return (Reporter.mkcounters 1 3600 0 rows),
       Reporter.mkworld tt []
         [Reporter.Called (Reporter.MediaList filter 1);
          Reporter.Printed (Reporter.ProcessingPage 1 1);
          Reporter.Called (Reporter.MediaList filter 2)]).
Proof.
  intros w filter.
  eexists. split; [repeat constructor; reflexivity |].
  apply (query_without_enrichment Examples.reporter_one_entry
           Examples.media_types Examples.as_text Examples.as_text
           (fun _ => "0.0") Examples.sample_config 0 86399 w
           [[Examples.sample_entry]] tt).
  - reflexivity.
  - split; [discriminate |]. exists tt. split; reflexivity.
  - repeat constructor.
  - cbn. lia.
Defined.

Lemma flavor_count_without_enrichment_witness :
  let w : Reporter.world unit := Reporter.mkworld tt [] [] in
  Reporter.entry_flavors Examples.reporter_one_entry Examples.sample_config
    MoreExamples.unnamed_type_entry w
  = (Return (1, 0, None), w).
Proof.
  intros w.
  apply (flavor_count_without_enrichment Examples.reporter_one_entry
           Examples.sample_config MoreExamples.unnamed_type_entry w).
  reflexivity.
Defined.

Lemma row_lists_use_semicolons_witness :
  exists row,
    Reporter.make_row Examples.media_types Examples.as_text Examples.as_text
      (fun _ => "0.0") Examples.sample_entry 2 0 None = Ok row /\
    Reporter.row_categories row = "Course;Week 1" /\
    count_char "," (Reporter.row_categories row) = 0%nat /\
    count_char "," (Reporter.row_tags row) = 0%nat /\
    Reporter.row_tags row = "finals".
Proof.
  eexists. split; [reflexivity |]. split; [reflexivity |].
  pose proof (row_lists_use_semicolons Examples.media_types Examples.as_text
                Examples.as_text (fun _ => "0.0") Examples.sample_entry 2 0
                None _ eq_refl) as [(Hc & _) (Ht & _ & Hsame)].
  split; [exact Hc |]. split; [exact Ht |]. apply Hsame. reflexivity.
Defined.

(** * More on file names *)

Section StripFacts.
Import Text Regex.

Lemma lstrip_first f s c :
  first_char (lstrip f s) = Some c -> f c = false.
Proof.
  induction s as [| x s IH]; [discriminate |].
  cbn [lstrip]. destruct (f x) eqn:E; [exact IH |].
  cbn. intros [= <-]. exact E.
Qed.

Lemma rstrip_first f s c :
  first_char (rstrip f s) = Some c -> first_char s = Some c.
Proof.
  destruct s as [| x s]; [discriminate |].
  cbn [rstrip]. destruct (rstrip f s); [destruct (f x) |]; cbn; congruence.
Qed.

Lemma rstrip_last f s c :
  last_char (rstrip f s) = Some c -> f c = false.
Proof.
  induction s as [| x s IH]; [discriminate |].
  cbn [rstrip]. destruct (rstrip f s) as [| y r] eqn:E.
  - destruct (f x) eqn:Ex; [discriminate |].
    cbn. intros [= <-]. exact Ex.
  - intros H. apply IH. exact H.
Qed.

Lemma strip_ends f s :
  (forall c, first_char (strip f s) = Some c -> f c = false) /\
  (forall c, last_char (strip f s) = Some c -> f c = false).
Proof.
  unfold strip. split; intros c H.
  - apply rstrip_first in H. eapply lstrip_first. exact H.
  - eapply rstrip_last. exact H.
Qed.

Lemma rstrip_length f s : (String.length (rstrip f s) <= String.length s)%nat.
Proof.
  induction s as [| x s IH]; [reflexivity |].
  cbn [rstrip]. destruct (rstrip f s); [destruct (f x) |]; cbn in *; lia.
Qed.

(** [rstrip] leaves nothing exactly when every character is in the
    class. *)
Lemma rstrip_empty f s :
  rstrip f s = "" <-> span f s = String.length s.
Proof.
  induction s as [| x s IH]; [cbn; tauto |].
  cbn [rstrip span String.length].
  destruct (rstrip f s) as [| y r] eqn:E.
  - destruct (f x) eqn:Ex.
    + split; [intros _ | reflexivity]. f_equal. apply IH. reflexivity.
    + split; [discriminate | lia].
  - split; [discriminate |].
    destruct (f x); [| lia]. intros [= H]. apply IH in H. discriminate.
Qed.

Lemma span_le f s : (span f s <= String.length s)%nat.
Proof.
  induction s as [| x s IH]; [reflexivity |].
  cbn. destruct (f x); cbn; lia.
Qed.

Lemma drop_all s : drop (String.length s) s = "".
Proof. induction s; [reflexivity | assumption]. Qed.

Lemma drop_length n s :
  String.length (drop n s) = (String.length s - n)%nat.
Proof.
  revert s. induction n as [| n IH]; intros [| x s]; cbn; try lia.
  apply IH.
Qed.

(** Inside the run of the class and short of it, what is left of [s] is
    neither empty nor a lone newline when newline belongs to the class and
    the run stops before the end. *)
Lemma at_end_in_span f s (j : nat) :
  f "010"%char = true ->
  (span f s < String.length s)%nat -> (j <= span f s)%nat ->
  at_end (drop j s) = false.
Proof.
  intros Hnl. revert j. induction s as [| x s IH]; intros j Hlt Hj;
    [cbn in Hlt; lia |].
  cbn [span String.length] in Hlt, Hj.
  destruct (f x) eqn:Ex.
  - destruct j as [| j].
    + cbn [drop at_end]. destruct s as [| y s']; [cbn in Hlt; lia |].
      reflexivity.
    + cbn [drop]. apply IH; lia.
  - assert (j = 0%nat) by lia. subst j. cbn [drop at_end].
    destruct s; [| reflexivity].
    destruct (Ascii.eqb_spec x "010"%char); [congruence | reflexivity].
Qed.

Lemma try_counts_none k s n lo :
  (forall j, (j <= n)%nat -> k (drop j s) = None) ->
  try_counts k s n lo = None.
Proof.
  induction n as [| n IH]; intros H; cbn [try_counts].
  - destruct (0 <? lo)%nat; [reflexivity |]. rewrite (H 0%nat) by lia.
    reflexivity.
  - destruct (Datatypes.S n <? lo)%nat; [reflexivity |].
    rewrite (H (Datatypes.S n)) by lia. apply IH. intros j Hj. apply H. lia.
Qed.

(** [cls+$] matches at the head of [s] exactly when [s] is a non-empty run
    of the class, and then it takes all of [s]. *)
Lemma plus_end_here f s :
  f "010"%char = true ->
  match_here [Plus f; EndAnchor] s
  = if (span f s =? String.length s)%nat && negb (String.eqb s "")
    then Some (String.length s) else None.
Proof.
  intros Hnl. cbn [match_here].
  destruct (Nat.eqb_spec (span f s) (String.length s)) as [Hall | Hnot].
  - destruct s as [| x s]; [reflexivity |].
    cbn [String.eqb negb andb]. rewrite Hall.
    cbn [try_counts String.length]. cbn [Nat.ltb Nat.leb].
    change (drop (Datatypes.S (String.length s)) (String x s))
      with (drop (String.length s) s).
    rewrite drop_all. cbn. f_equal. lia.
  - cbn [andb]. apply try_counts_none. intros j Hj.
    pose proof (span_le f s).
    rewrite (at_end_in_span f s j Hnl) by lia. reflexivity.
Qed.

Lemma sub_from_skip p repl s :
  sub_from p repl s (String.length s) = sub_from p repl "" 0.
Proof.
  induction s as [| x s IH]; [reflexivity |].
  cbn [String.length]. rewrite <- IH. reflexivity.
Qed.

(** [re.sub(cls+$, "", s)] is [s.rstrip] of the class, for a class that
    holds the newline. *)
Lemma sub_plus_end f s :
  f "010"%char = true ->
  sub [Plus f; EndAnchor] "" s = rstrip f s.
Proof.
  intros Hnl. unfold sub. induction s as [| x s IH]; [reflexivity |].
  destruct (Nat.eqb_spec (span f (String x s)) (String.length (String x s)))
    as [Hall | Hnot].
  - rewrite (proj2 (rstrip_empty f (String x s)) Hall).
    cbn [sub_from]. rewrite (plus_end_here f (String x s) Hnl).
    rewrite Hall, Nat.eqb_refl. cbn [String.eqb negb andb String.length].
    rewrite sub_from_skip. cbn [sub_from].
    rewrite (plus_end_here f "" Hnl). reflexivity.
  - cbn [sub_from]. rewrite (plus_end_here f (String x s) Hnl).
    apply Nat.eqb_neq in Hnot. rewrite Hnot. cbn [andb].
    apply Nat.eqb_neq in Hnot.
    rewrite IH. cbn [rstrip].
    destruct (rstrip f s) as [| y r] eqn:E; [| reflexivity].
    apply rstrip_empty in E.
    destruct (f x) eqn:Ex; [| reflexivity].
    exfalso. apply Hnot. cbn [span String.length]. rewrite Ex, E.
    reflexivity.
Qed.

(** With an empty replacement [re.sub] never makes a string longer. *)
Lemma sub_from_length p s :
  forall skip, (String.length (sub_from p "" s skip) <= String.length s)%nat.
Proof.
  induction s as [| x s IH]; intros skip.
  - destruct skip; cbn [sub_from]; [| cbn; lia].
    destruct (match_here p "") as [[| n] |]; rewrite ?append_empty_l;
      cbn; lia.
  - destruct skip as [| k]; cbn [sub_from].
    + destruct (match_here p (String x s)) as [[| n] |];
        rewrite ?append_empty_l; cbn [String.length];
        [specialize (IH 0%nat) | specialize (IH n) | specialize (IH 0%nat)];
        lia.
    + specialize (IH k). cbn [String.length]. lia.
Qed.
End StripFacts.

Section SearchFacts.
Import Text Regex Reporter.

Lemma startswith_eq s w :
  startswith s w = true -> s = w +:+ drop (String.length w) s.
Proof.
  revert s. induction w as [| c w IH]; intros s H.
  - rewrite append_empty_l. reflexivity.
  - destruct s as [| x s]; [discriminate |].
    cbn [startswith] in H. apply andb_true_iff in H. destruct H as [Hc Hw].
    apply Ascii.eqb_eq in Hc. subst x.
    rewrite append_cons. cbn [String.length drop]. f_equal. apply IH.
    exact Hw.
Qed.

Lemma contains_head w s : startswith s w = true -> contains w s = true.
Proof. destruct s; cbn [contains]; intros ->; reflexivity. Qed.

Lemma contains_cons w c s : contains w s = true -> contains w (String c s) = true.
Proof. cbn [contains]. intros ->. apply orb_true_r. Qed.

Lemma take_span_count f s x :
  f x = false -> count_char x (take (span f s) s) = 0%nat.
Proof.
  intros Hx. induction s as [| c s IH]; [reflexivity |].
  cbn [span]. destruct (f c) eqn:Ec; [| reflexivity].
  cbn [take count_char]. rewrite IH.
  destruct (Ascii.eqb_spec c x); [congruence | reflexivity].
Qed.

Lemma take_nonempty_length (n : nat) s :
  (1 <= n)%nat -> (n <= String.length s)%nat -> take n s <> "".
Proof.
  intros H1 H2. destruct n; [lia |]. destruct s; [cbn in H2; lia |].
  discriminate.
Qed.

Lemma search_fileName_sound url name :
  search_fileName url = Some name ->
  name <> "" /\ count_char "/" name = 0%nat /\
  contains ("/fileName/" +:+ name +:+ "/") url = true.
Proof.
  induction url as [| c url IH]; intros H.
  - cbn in H. discriminate.
  - cbn [search_fileName] in H.
    set (u := String c url) in *.
    destruct (startswith u "/fileName/") eqn:Hpre.
    + set (rest := drop 10 u) in *.
      set (n := span (fun c => negb (is_char "/"%char c)) rest) in *.
      destruct ((1 <=? n)%nat && startswith (drop n rest) "/") eqn:Hok.
      * injection H as <-.
        apply andb_true_iff in Hok. destruct Hok as [Hn Hslash].
        apply Nat.leb_le in Hn.
        split; [| split].
        -- apply take_nonempty_length; [exact Hn | apply span_le].
        -- apply take_span_count. reflexivity.
        -- apply contains_head.
           assert (Hu : u = ("/fileName/" +:+ take n rest +:+ "/")
                            +:+ drop 1 (drop n rest)).
           { rewrite (startswith_eq _ _ Hpre) at 1.
             rewrite !append_assoc. f_equal.
             change (drop (String.length "/fileName/") u) with rest.
             rewrite <- (take_drop n rest) at 1. f_equal.
             apply (startswith_eq _ _ Hslash). }
           rewrite Hu. apply startswith_append.
      * destruct (IH H) as (H1 & H2 & H3).
        split; [exact H1 |]. split; [exact H2 |].
        apply contains_cons. exact H3.
    + destruct (IH H) as (H1 & H2 & H3).
      split; [exact H1 |]. split; [exact H2 |].
      apply contains_cons. exact H3.
Qed.

Lemma search_fileName_absent url :
  contains "/fileName/" url = false -> search_fileName url = None.
Proof.
  induction url as [| c url IH]; intros H; [reflexivity |].
  cbn [search_fileName].
  cbn [contains] in H. apply orb_false_iff in H. destruct H as [H1 H2].
  rewrite H1. apply IH. exact H2.
Qed.
End SearchFacts.

(** Property X11 (Downloader, the cleanup inside [get_file_name], lines
    165-174).  The cleanup keeps the extension of the name as
    [os.path.splitext] finds it; what it puts before the extension does not
    end in an underscore, a dash or whitespace and is not longer than the
    base it started from. *)
Theorem cleanup_keeps_the_extension :
  forall filename base ext,
    Text.splitext filename = (base, ext) ->
    exists cleaned,
      Downloader.cleanup filename = cleaned +:+ ext /\
      (forall c, Text.last_char cleaned = Some c ->
                 Downloader.separator c = false) /\
      (String.length cleaned <= String.length base)%nat.
Proof.
  intros filename base ext Hsplit.
  unfold Downloader.cleanup. cbn [Downloader.REMOVE_SUFFIX]. rewrite Hsplit.
  eexists. split; [reflexivity |].
  unfold Downloader.trailing_separators.
  rewrite sub_plus_end by reflexivity.
  split.
  - intros c. apply rstrip_last.
  - etransitivity; [apply rstrip_length |]. apply sub_from_length.
Qed.

Lemma cleanup_keeps_the_extension_witness :
  exists cleaned,
    Downloader.cleanup "Lecture_1 - (Source)_.mp4" = cleaned +:+ ".mp4" /\
    (forall c, Text.last_char cleaned = Some c ->
               Downloader.separator c = false) /\
    (String.length cleaned <= String.length "Lecture_1 - (Source)_")%nat.
Proof.
  apply (cleanup_keeps_the_extension "Lecture_1 - (Source)_.mp4"
           "Lecture_1 - (Source)_" ".mp4").
  vm_compute. reflexivity.
Defined.

(** Property X12 (Reporter, [clean_filename], lines 63-68).  Whatever the
    name, the cleaned name neither starts nor ends with whitespace. *)
Theorem clean_filename_is_stripped :
  forall filename,
    (forall c, Text.first_char (Reporter.clean_filename filename) = Some c ->
               Text.is_space c = false) /\
    (forall c, Text.last_char (Reporter.clean_filename filename) = Some c ->
               Text.is_space c = false).
Proof. intros filename. unfold Reporter.clean_filename. apply strip_ends. Qed.

(** Property X13 (Reporter, the search for the original file name, line
    237).  The name taken from a flavor URL is never empty and holds no
    slash, and the URL holds it between [/fileName/] and the next slash; a
    URL without [/fileName/] gives no name. *)
Theorem source_name_comes_from_the_url :
  forall url,
    (forall name,
        Reporter.search_fileName url = Some name ->
        name <> "" /\ count_char "/" name = 0%nat /\
        Text.contains ("/fileName/" +:+ name +:+ "/") url = true) /\
    (Text.contains "/fileName/" url = false ->
     Reporter.search_fileName url = None).
Proof.
  intros url. split.
  - intros name. apply search_fileName_sound.
  - apply search_fileName_absent.
Qed.

Lemma clean_filename_is_stripped_witness :
  Reporter.clean_filename "  Lecture 1 (Source)_.mp4 " = "Lecture 1_.mp4" /\
  Text.is_space "L" = false /\ Text.is_space "4" = false.
Proof.
  destruct (clean_filename_is_stripped "  Lecture 1 (Source)_.mp4 ")
    as [Hfirst Hlast].
  split; [vm_compute; reflexivity |]. split.
  - apply Hfirst. vm_compute. reflexivity.
  - apply Hlast. vm_compute. reflexivity.
Defined.

Lemma source_name_comes_from_the_url_witness :
  let url :=
    "https://cdn.example/flavorId/1_f1/fileName/Lecture_1_(Source).mp4/name/a.mp4"
  in
  "Lecture_1_(Source).mp4" <> "" /\
  count_char "/" "Lecture_1_(Source).mp4" = 0%nat /\
  Text.contains ("/fileName/" +:+ "Lecture_1_(Source).mp4" +:+ "/") url = true.
Proof.
  intros url.
  apply (proj1 (source_name_comes_from_the_url url) "Lecture_1_(Source).mp4").
  vm_compute. reflexivity.
Defined.

(** * The Reporter's two files *)

Section ReportConsistency.
Import Reporter.
Context {S : Type} (api : remote S).
Context (media_types : Z -> option string)
        (str_timedelta : Z -> result string)
        (format_local : Z -> result string)
        (str_float : float -> string)
        (day_start_ts day_end_ts : Calendar.date -> result Z)
        (cfg : config).

Abbreviation process_page :=
  (Reporter.process_page api media_types str_timedelta format_local
                         str_float cfg).
Abbreviation fetch_loop :=
  (Reporter.fetch_loop api media_types str_timedelta format_local
                       str_float cfg).
Abbreviation chunk_loop :=
  (Reporter.chunk_loop api media_types str_timedelta format_local str_float
                       day_start_ts day_end_ts cfg).

Lemma process_page_in_step objects :
  forall c (w : world S) c' w',
    in_step c ->
    process_page objects c w = (Return c', w') -> in_step c'.
Proof.
  induction objects as [| entry rest IH]; intros c w c' w' Hc H.
  - cbn in H. injection H as <- <-. exact Hc.
  - cbn [Reporter.process_page] in H. unfold bind at 1 in H.
    destruct (entry_flavors api cfg entry w) as [[[[fc fs] ofn] | e | n |] w1];
      try discriminate.
    unfold bind at 1 in H.
    destruct (make_row media_types str_timedelta format_local str_float
                       entry fc fs ofn) as [row | e];
      cbn [lift ret raise] in H; try discriminate.
    eapply IH; [| exact H].
    unfold in_step in *. cbn [c_entry_count c_all_entries].
    rewrite length_app. cbn [length]. lia.
Qed.

Lemma fetch_loop_in_step fuel :
  forall filter pageIndex c (w : world S) c' w',
    in_step c ->
    fetch_loop fuel filter pageIndex c w = (Return c', w') -> in_step c'.
Proof.
  induction fuel as [| fuel IH]; intros filter pageIndex c w c' w' Hc H;
    [discriminate |].
  cbn [Reporter.fetch_loop] in H. unfold bind at 1 in H. unfold call in H.
  destruct (media_list api filter pageIndex (server w)) as [[objects | e] s1].
  - destruct objects as [| obj rest].
    + cbn in H. injection H as <- <-. exact Hc.
    + unfold bind at 1 in H. unfold print at 1 in H. unfold log at 1 in H.
      cbn [server stdin trace] in H. unfold bind at 1 in H.
      destruct (Reporter.process_page api media_types str_timedelta
                  format_local str_float cfg (obj :: rest) c _)
        as [[c1 | e | n |] w2] eqn:Hpage; try discriminate.
      pose proof (process_page_in_step _ _ _ _ _ Hc Hpage) as Hc1.
      destruct (10000 <=? c_entry_count c1); [cbn in H; discriminate |].
      eapply IH; eassumption.
  - destruct e as [| | | | | | code | |]; cbn in H; try discriminate.
    destruct (String.eqb code "QUERY_EXCEEDED_MAX_MATCHES_ALLOWED");
      cbn in H; discriminate.
Qed.

Lemma chunk_loop_consistent chunks :
  forall summary details (w : world S) summary' details' w',
    chunk_loop chunks summary details w = (Return (summary', details'), w') ->
    exists new_rows new_details,
      summary' = summary ++ new_rows /\
      details' = details ++ new_details /\
      map range new_rows = map chunk_label chunks /\
      sum_Z (map entry_count new_rows) = Z.of_nat (length new_details).
Proof.
  induction chunks as [| [interval_start interval_end] rest IH];
    intros summary details w summary' details' w' H.
  - cbn in H. injection H as <- <- <-. exists [], [].
    rewrite !app_nil_r. repeat split; reflexivity.
  - cbn [Reporter.chunk_loop] in H. unfold bind at 1 in H.
    destruct (chunk_summary _ _ _ _ _ _ _ _ _ _ _)
      as [[[row more] | e | n |] w1] eqn:Hchunk; try discriminate.
    apply chunk_summary_returns in Hchunk.
    destruct Hchunk as (start_ts & end_ts & c & w0 & _ & _ & Hfetch & _ &
                        Hlabel & (_ & _ & _ & _ & Hcount & _) & ->).
    assert (Hc : in_step c).
    { unfold fetch_entries_for_interval in Hfetch.
      eapply fetch_loop_in_step; [| exact Hfetch]. reflexivity. }
    cbn [ret fst snd] in H.
    destruct (IH _ _ _ _ _ _ H) as (rows & more & -> & -> & Hlabels & Hsum).
    exists (row :: rows), (c_all_entries c ++ more).
    rewrite <- !app_assoc. cbn [app].
    split; [reflexivity |]. split; [reflexivity |]. split.
    + cbn [map]. f_equal; [exact Hlabel | exact Hlabels].
    + cbn [map sum_Z fold_right].
      fold (sum_Z (map entry_count rows)).
      rewrite Hsum, length_app, Hcount. unfold in_step in Hc. lia.
Qed.
End ReportConsistency.

(** Property X14 (Reporter, the main loop, lines 305-338).  When the loop
    over the chunks comes to its end, the summary has gained one row per
    chunk, in the order of the chunks and labelled "start to end", and the
    entry counts of these rows add up to the number of detail rows gained:
    the two files of a report agree on the number of entries. *)
Theorem summary_and_details_agree :
  forall (S : Type) (api : Reporter.remote S) media_types str_timedelta
         format_local str_float day_start_ts day_end_ts cfg chunks
         summary details (w : Reporter.world S) summary' details' w',
    Reporter.chunk_loop api media_types str_timedelta format_local str_float
      day_start_ts day_end_ts cfg chunks summary details w
    = (Return (summary', details'), w') ->
    exists new_rows new_details,
      summary' = summary ++ new_rows /\
      details' = details ++ new_details /\
      map Reporter.range new_rows = map chunk_label chunks /\
      sum_Z (map Reporter.entry_count new_rows)
      = Z.of_nat (length new_details).
Proof. intros. eapply chunk_loop_consistent. eassumption. Qed.

Lemma summary_and_details_agree_witness :
  let w : Reporter.world unit := Reporter.mkworld tt [] [] in
  exists (new_rows : list Reporter.summary_row)
         (new_details : list Reporter.detail_row),
    map Reporter.range new_rows
    = ["2024-01-15 to 2024-01-31"; "2024-02-01 to 2024-02-29"] /\
    sum_Z (map Reporter.entry_count new_rows)
    = Z.of_nat (length new_details).
Proof.
  intros w.
  pose (chunks := [ (Calendar.mkdate 2024 1 15, Calendar.mkdate 2024 1 31);
                    (Calendar.mkdate 2024 2 1, Calendar.mkdate 2024 2 29) ]).
  pose (r := Reporter.chunk_loop Examples.reporter_one_entry
               Examples.media_types Examples.as_text Examples.as_text
               (fun _ => "0.0") MoreExamples.day_start MoreExamples.day_end
               Examples.sample_config chunks [] [] w).
  destruct (summary_and_details_agree unit Examples.reporter_one_entry
              Examples.media_types Examples.as_text Examples.as_text
              (fun _ => "0.0") MoreExamples.day_start MoreExamples.day_end
              Examples.sample_config chunks [] [] w
              (match fst r with Return p => fst p | _ => [] end)
              (match fst r with Return p => snd p | _ => [] end)
              (snd r))
    as (new_rows & new_details & _ & _ & Hlabels & Hsum).
  - vm_compute. reflexivity.
  - exists new_rows, new_details. split; [exact Hlabels | exact Hsum].
Defined.

(** * The Reporter's configuration *)

Section Configuration.
Import Reporter.
Context {S : Type}.
Context (pytz_timezone : string -> result unit)
        (py_int : string -> result Z)
        (strptime_date : string -> result Calendar.date)
        (today : Calendar.date).

Lemma asks_refl n k (w : world S) : asks n k w w.
Proof.
  split; [reflexivity |]. exists [], [].
  rewrite app_nil_r. cbn. repeat split; lia.
Qed.

Lemma prompts_in_app evs1 evs2 :
  prompts_in (evs1 ++ evs2) = (prompts_in evs1 + prompts_in evs2)%nat.
Proof. unfold prompts_in. rewrite List.filter_app, length_app. reflexivity. Qed.

Lemma interval_lines_in_app evs1 evs2 :
  interval_lines_in (evs1 ++ evs2)
  = (interval_lines_in evs1 + interval_lines_in evs2)%nat.
Proof.
  unfold interval_lines_in. rewrite List.filter_app, length_app. reflexivity.
Qed.

Lemma asks_trans n m k l (w1 w2 w3 : world S) :
  asks n k w1 w2 -> asks m l w2 w3 -> asks (n + m) (k + l) w1 w3.
Proof.
  intros (Hs1 & evs1 & used1 & Ht1 & Hp1 & Hl1 & Hk1 & Hi1 & Hu1)
         (Hs2 & evs2 & used2 & Ht2 & Hp2 & Hl2 & Hk2 & Hi2 & Hu2).
  split; [congruence |]. exists (evs1 ++ evs2), (used1 ++ used2).
  rewrite Ht2, Ht1, Hi1, Hi2, !length_app, forallb_app, Hp1, Hp2,
    prompts_in_app, interval_lines_in_app, <- !app_assoc.
  repeat split; lia.
Qed.

Lemma only_asks_ret {A} (a : A) : only_asks 0 0 (ret a : M (world S) A).
Proof. intros w o w' [= <- <-]. apply asks_refl. Qed.

Lemma only_asks_raise {A} e : only_asks 0 0 (raise e : M (world S) A).
Proof. intros w o w' [= <- <-]. apply asks_refl. Qed.

Lemma only_asks_lift {A} (r : result A) :
  only_asks 0 0 (lift r : M (world S) A).
Proof. destruct r; [apply only_asks_ret | apply only_asks_raise]. Qed.

Lemma only_asks_weaken {A} n n' k k' (m : M (world S) A) :
  (n <= n')%nat -> (k <= k')%nat -> only_asks n k m -> only_asks n' k' m.
Proof.
  intros Hn Hk Hm w o w' H. destruct (Hm w o w' H)
    as (Hs & evs & used & Ht & Hp & Hl & Hk' & Hi & Hu).
  split; [exact Hs |]. exists evs, used. repeat split; try assumption; lia.
Qed.

Lemma only_asks_bind {A B} n n' k k' (m : M (world S) A)
    (f : A -> M (world S) B) :
  only_asks n k m -> (forall a, only_asks n' k' (f a)) ->
  only_asks (n + n') (k + k') (bind m f).
Proof.
  intros Hm Hk w o w' H. unfold bind in H.
  destruct (m w) as [[a | e | st |] w1] eqn:Hmw.
  - eapply asks_trans; [eapply Hm; exact Hmw | eapply Hk; exact H].
  - injection H as <- <-.
    eapply asks_trans; [eapply Hm; exact Hmw | apply asks_refl].
  - injection H as <- <-.
    eapply asks_trans; [eapply Hm; exact Hmw | apply asks_refl].
  - injection H as <- <-.
    eapply asks_trans; [eapply Hm; exact Hmw | apply asks_refl].
Qed.

Lemma only_asks_input text :
  only_asks 1 0 (input text : M (world S) string).
Proof.
  intros w o w' H. unfold input in H.
  destruct (stdin w) as [| line rest] eqn:Hin; injection H as <- <-.
  - split; [reflexivity |]. exists [Printed (Prompt text)], [].
    cbn. rewrite Hin. repeat split; lia.
  - split; [reflexivity |]. exists [Printed (Prompt text)], [line].
    cbn. rewrite Hin. repeat split; lia.
Qed.

Lemma only_asks_interval_line m :
  is_interval_line (Printed m) = true ->
  only_asks 0 1 (print m : M (world S) unit).
Proof.
  intros Hm w o w' H. unfold print, log in H. injection H as <- <-.
  split; [reflexivity |]. exists [Printed m], [].
  unfold prompts_in, interval_lines_in.
  cbn [server stdin trace forallb filter app length].
  rewrite Hm. rewrite orb_true_r.
  destruct (is_prompt (Printed m)); cbn; repeat split; try lia.
  all: destruct m; cbn in *; try discriminate; repeat split; lia.
Qed.

Lemma only_asks_prompt_enrichment :
  only_asks 2 0 (prompt_enrichment : M (world S) _).
Proof.
  unfold prompt_enrichment.
  apply (only_asks_bind 1 1 0 0); [apply only_asks_input |]. intros a.
  destruct (py_bool _).
  - apply (only_asks_bind 1 0 0 0); [apply only_asks_input |]. intros b.
    apply only_asks_ret.
  - eapply only_asks_weaken; [| | apply only_asks_ret]; lia.
Qed.

Lemma only_asks_prompt_dates env :
  only_asks 2 0 (prompt_dates strptime_date today env : M (world S) _).
Proof.
  unfold prompt_dates.
  apply (only_asks_bind 1 1 0 0); [apply only_asks_input |]. intros a.
  apply (only_asks_bind 1 0 0 0); [apply only_asks_input |]. intros b.
  apply (only_asks_bind 0 0 0 0).
  { destruct (py_bool _); [apply only_asks_lift |].
    destruct (getenv env "EARLIEST_START_DATE");
      [apply only_asks_lift | apply only_asks_raise]. }
  intros start_date. apply (only_asks_bind 0 0 0 0).
  { destruct (py_bool _); [apply only_asks_lift | apply only_asks_ret]. }
  intros end_date.
  destruct (Calendar.date_lt end_date start_date);
    [apply only_asks_raise | apply only_asks_ret].
Qed.

Lemma only_asks_prompt_interval :
  only_asks 1 2 (prompt_interval py_int : M (world S) _).
Proof.
  unfold prompt_interval.
  apply (only_asks_bind 0 1 1 1);
    [apply only_asks_interval_line; reflexivity |]. intros _.
  apply (only_asks_bind 0 1 1 0);
    [apply only_asks_interval_line; reflexivity |]. intros _.
  apply (only_asks_bind 1 0 0 0); [apply only_asks_input |]. intros a.
  destruct (py_bool _); [apply only_asks_lift | apply only_asks_ret].
Qed.

(** Property X15 (Reporter, the configuration, lines 51-113).  However the
    configuration ends (with a configuration, or with an error of the
    time zone, of a conversion or of the date check), it has only asked:
    the platform is untouched; what the run printed is prompts, at most
    eight, and the lines that introduce the interval prompt, at most two;
    and it took at most one line of input per prompt. *)
Theorem configuration_only_asks :
  forall env (w : world S) o w',
    startup pytz_timezone py_int strptime_date today env w = (o, w') ->
    asks 8 2 w w'.
Proof.
  intros env.
  change (only_asks 8 2 (startup pytz_timezone py_int strptime_date today env
                         : M (world S) _)).
  unfold startup.
  apply (only_asks_bind 0 8 0 2).
  { destruct (getenv env "PARTNER_ID");
      [apply only_asks_lift | apply only_asks_raise]. }
  intros partner_id.
  apply (only_asks_bind 0 8 0 2).
  { destruct (getenv env "TIMEZONE");
      [apply only_asks_lift | apply only_asks_raise]. }
  intros _.
  apply (only_asks_bind 1 7 0 2); [apply only_asks_input |]. intros owner_id.
  apply (only_asks_bind 1 6 0 2); [apply only_asks_input |]. intros tag.
  apply (only_asks_bind 1 5 0 2); [apply only_asks_input |]. intros category_id.
  apply (only_asks_bind 2 3 0 2); [apply only_asks_prompt_enrichment |].
  intros enrichment.
  apply (only_asks_bind 2 1 0 2); [apply only_asks_prompt_dates |].
  intros dates.
  apply (only_asks_bind 1 0 2 0); [apply only_asks_prompt_interval |].
  intros interval. apply only_asks_ret.
Qed.
End Configuration.

Lemma configuration_only_asks_witness :
  let env : gmap string string :=
    {[ "PARTNER_ID" := "123"; "TIMEZONE" := "Europe/Rome" ]} in
  let w : Reporter.world unit :=
    Reporter.mkworld tt ["teacher"; ""; ""; ""; "2024-01-15"; "2024-03-10"; "3"]
                     [] in
  asks 8 2 w
    (snd (Reporter.startup Examples.known_timezone Examples.py_int
            Examples.strptime_date (Calendar.mkdate 2024 3 10) env w)).
Proof.
  intros env w.
  apply (configuration_only_asks Examples.known_timezone Examples.py_int
           Examples.strptime_date (Calendar.mkdate 2024 3 10) env w
           (fst (Reporter.startup Examples.known_timezone Examples.py_int
                   Examples.strptime_date (Calendar.mkdate 2024 3 10) env w))).
  apply surjective_pairing.
Defined.

(** * More on the Entry Downloader *)

Section Listing.
Import Downloader.
Context {S D : Type} (api : remote S).

Lemma get_entries_unfold fuel method identifier :
  (get_entries api fuel method identifier : M (world S D) (list entry))
  = match method_filter method identifier with
    | Some f => get_entries_loop api fuel f 1 []
    | None => (run print InvalidMethod; ret [])
    end.
Proof.
  unfold get_entries, method_filter.
  destruct (String.eqb method "tag"); [reflexivity |].
  destruct (String.eqb method "category"); [reflexivity |].
  destruct (String.eqb method "entry_ids"); [reflexivity |].
  destruct (String.eqb method "owner_id"); reflexivity.
Qed.

Lemma get_entries_loop_pages f pages :
  forall fuel pageIndex entries (w : world S D) final s_end,
    (length pages < fuel)%nat ->
    downloader_serves api f pageIndex (server w) pages final s_end ->
    (final = Ok [] \/ exists c, final = Raise (KalturaException c)) ->
    get_entries_loop api fuel f pageIndex entries w
    = (Return (entries ++ concat pages),
       mkworld s_end (disk w)
         (trace w ++
          listing_calls f pageIndex (Datatypes.S (length pages)) ++
          match final with
          | Raise e => [Printed (ErrorRetrievingEntries e)]
          | Ok _ => []
          end)).
Proof.
  induction pages as [| page rest IH];
    intros fuel pageIndex entries w final s_end Hfuel Hserves Hfinal.
  - destruct fuel as [| fuel]; [cbn in Hfuel; lia |].
    cbn in Hserves. cbn [get_entries_loop]. unfold bind at 1. unfold call.
    rewrite Hserves. cbn [concat length listing_calls].
    rewrite app_nil_r.
    destruct Hfinal as [-> | [c ->]]; cbn; rewrite <- ?app_assoc; reflexivity.
  - destruct fuel as [| fuel]; [cbn in Hfuel; lia |].
    cbn [length] in Hfuel.
    destruct Hserves as (Hne & s1 & Hlist & Hrest).
    cbn [get_entries_loop]. unfold bind at 1. unfold call. rewrite Hlist.
    destruct page as [| e page']; [congruence |].
    rewrite (IH fuel (pageIndex + 1) (entries ++ e :: page')
                (mkworld s1 (disk w)
                   (trace w ++ [Called (BaseEntryList f pageIndex)]))
                final s_end) by (assumption || lia).
    cbn [server disk trace concat length listing_calls].
    rewrite <- !app_assoc. reflexivity.
Qed.
End Listing.

(** Property X16 (Downloader, [get_entries], lines 65-94).  For one of the
    four methods, when the platform answers the listing with non-empty pages
    and then with an empty page, [get_entries] returns the entries of the
    pages in order, having asked for pages 1, 2, ... once each.  When the
    platform instead ends the listing with a [KalturaException], the error
    is printed and the entries of the pages before it are returned all the
    same.  For any other method nothing is asked and the list is empty. *)
Theorem listing_collects_the_pages :
  forall (S D : Type) (api : Downloader.remote S) fuel method identifier
         (w : Downloader.world S D),
    (forall f pages final s_end,
        method_filter method identifier = Some f ->
        (length pages < fuel)%nat ->
        downloader_serves api f 1 (Downloader.server w) pages final s_end ->
        (final = Ok [] \/ exists c, final = Raise (KalturaException c)) ->
        Downloader.get_entries api fuel method identifier w
        = (Return (concat pages),
           Downloader.mkworld s_end (Downloader.disk w)
             (Downloader.trace w ++
              listing_calls f 1 (Datatypes.S (length pages)) ++
              match final with
              | Raise e =>
                  [Downloader.Printed (Downloader.ErrorRetrievingEntries e)]
              | Ok _ => []
              end))) /\
    (method_filter method identifier = None ->
     Downloader.get_entries api fuel method identifier w
     = (Return [],
        Downloader.mkworld (Downloader.server w) (Downloader.disk w)
          (Downloader.trace w ++
           [Downloader.Printed Downloader.InvalidMethod]))).
Proof.
  intros S D api fuel method identifier w. split.
  - intros f pages final s_end Hf Hfuel Hserves Hfinal.
    rewrite get_entries_unfold, Hf.
    apply (get_entries_loop_pages api f pages fuel 1 [] w final s_end);
      assumption.
  - intros Hf. rewrite get_entries_unfold, Hf. reflexivity.
Qed.

Section Steps.
Import Downloader.
Context {S D : Type} (api : remote S) (fs : filesystem D)
        (urlparse_path : string -> result string).
(** A relation between the worlds of a run that every step of the
    Downloader keeps, and what it needs to know of a file name before the
    download that uses it. *)
Context (R : world S D -> world S D -> Prop)
        (P : string -> world S D -> Prop).
Hypothesis R_refl : forall w, R w w.
Hypothesis R_trans : forall w1 w2 w3, R w1 w2 -> R w2 w3 -> R w1 w3.
Hypothesis R_quiet :
  forall w w' evs,
    disk w' = disk w -> trace w' = trace w ++ evs -> wrote_paths evs = [] ->
    R w w'.
Hypothesis P_name :
  forall fuel url counter w name w',
    get_file_name api fs urlparse_path fuel url counter w
    = (Return name, w') ->
    P name w'.
Hypothesis P_quiet :
  forall name w w', disk w' = disk w -> P name w -> P name w'.
Hypothesis R_download :
  forall url filename w o w',
    P filename w -> download_file api fs url filename w = (o, w') -> R w w'.

Lemma keeps_ret {A} (a : A) : keeps R (ret a : M (world S D) A).
Proof. intros w o w' [= <- <-]. apply R_refl. Qed.

Lemma keeps_raise {A} e : keeps R (raise e : M (world S D) A).
Proof. intros w o w' [= <- <-]. apply R_refl. Qed.

Lemma keeps_print m : keeps R (print m : M (world S D) unit).
Proof.
  intros w o w' [= <- <-]. apply (R_quiet _ _ [Printed m]); reflexivity.
Qed.

Lemma keeps_sleep n : keeps R (sleep n : M (world S D) unit).
Proof.
  intros w o w' [= <- <-]. apply (R_quiet _ _ [Slept n]); reflexivity.
Qed.

Lemma keeps_call {T} r (f : S -> result T * S) :
  keeps R (call r f : M (world S D) (result T)).
Proof.
  intros w o w' H. unfold call in H.
  destruct (f (server w)) as [res s']. injection H as <- <-.
  apply (R_quiet _ _ [Called r]); reflexivity.
Qed.

(** Sequencing, with what the first part promises about its result *)
Lemma keeps_bind_post {A B} (m : M (world S D) A)
    (k : A -> M (world S D) B) (post : A -> world S D -> Prop) :
  keeps R m ->
  (forall w a w', m w = (Return a, w') -> post a w') ->
  (forall a w o w', post a w -> k a w = (o, w') -> R w w') ->
  keeps R (bind m k).
Proof.
  intros Hm Hpost Hk w o w' H. unfold bind in H.
  destruct (m w) as [[a | e | st |] w1] eqn:Hmw.
  - eapply R_trans; [eapply Hm; exact Hmw |].
    eapply Hk; [eapply Hpost; exact Hmw | exact H].
  - injection H as <- <-. eapply Hm. exact Hmw.
  - injection H as <- <-. eapply Hm. exact Hmw.
  - injection H as <- <-. eapply Hm. exact Hmw.
Qed.

Lemma keeps_bind {A B} (m : M (world S D) A) (k : A -> M (world S D) B) :
  keeps R m -> (forall a, keeps R (k a)) -> keeps R (bind m k).
Proof.
  intros Hm Hk.
  apply (keeps_bind_post m k (fun _ _ => True)); [exact Hm | auto |].
  intros a w o w' _ H. eapply Hk. exact H.
Qed.

Lemma keeps_get_entry_details_from attempts eid :
  keeps R (get_entry_details_from api attempts eid : M (world S D) _).
Proof.
  induction attempts as [| attempt rest IH]; cbn [get_entry_details_from].
  - apply keeps_bind; [apply keeps_print |].
    intros _. apply keeps_ret.
  - apply keeps_bind; [apply keeps_call |]. intros [details | e].
    + apply keeps_ret.
    + destruct e; try apply keeps_raise.
      apply keeps_bind; [apply keeps_print |]. intros _.
      apply keeps_bind; [apply keeps_sleep |]. intros _.
      exact IH.
Qed.

Lemma keeps_get_flavor_download_url e :
  keeps R (get_flavor_download_url api e : M (world S D) _).
Proof.
  unfold get_flavor_download_url.
  apply keeps_bind; [apply keeps_call |]. intros [flavors | ex].
  - destruct (original_flavor flavors) as [f |]; [| apply keeps_ret].
    apply keeps_bind; [apply keeps_call |]. intros [url | ex].
    + apply keeps_ret.
    + destruct ex; try apply keeps_raise.
      apply keeps_bind; [apply keeps_print |]. intros _.
      apply keeps_ret.
  - destruct ex; try apply keeps_raise.
    apply keeps_bind; [apply keeps_print |]. intros _.
    apply keeps_ret.
Qed.

Lemma keeps_get_download_url e :
  keeps R (get_download_url api e : M (world S D) _).
Proof.
  unfold get_download_url.
  destruct (negb (has_mediaType e)); [apply keeps_ret |].
  apply keeps_bind;
    [apply keeps_get_entry_details_from |]. intros [details |];
    [| apply keeps_ret].
  destruct (mediaType details) as [media_type |]; [| apply keeps_ret].
  destruct (media_type =? 2);
    [apply keeps_ret | apply keeps_get_flavor_download_url].
Qed.

Lemma keeps_get_child_entries parent :
  keeps R (get_child_entries api parent : M (world S D) _).
Proof.
  unfold get_child_entries.
  apply keeps_bind; [apply keeps_call |]. intros [children | ex].
  - apply keeps_ret.
  - destruct ex; try apply keeps_raise.
    apply keeps_bind; [apply keeps_print |]. intros _.
    apply keeps_ret.
Qed.

(** [get_file_name] leaves the disk alone and opens nothing. *)
Lemma get_file_name_quiet fuel url counter (w : world S D) o w' :
  get_file_name api fs urlparse_path fuel url counter w = (o, w') ->
  disk w' = disk w /\
  exists evs, trace w' = trace w ++ evs /\ wrote_paths evs = [].
Proof.
  unfold get_file_name, bind, call, print, log, ret, raise. intros H.
  assert (Hend :
            forall filename (w1 : world S D),
              match free_name fs fuel (disk w1) (cleanup filename) counter
              with
              | Some name => (Return name, w1)
              | None => (OutOfFuel, w1)
              end = (o, w') -> w' = w1).
  { intros filename w1.
    destruct (free_name fs fuel _ _ counter); intros [= _ <-]; reflexivity. }
  destruct (requests_head api url (server w)) as [[[content_disp |] | e] s1];
    cbn [server disk trace] in H.
  - destruct (truthy (header_filename content_disp));
      [| destruct (urlparse_path url) as [path | e']];
      first [ apply Hend in H | injection H as _ H ]; subst w';
      (split; [reflexivity |]); eexists; split; reflexivity.
  - cbn [truthy] in H.
    destruct (urlparse_path url) as [path | e'];
      first [ apply Hend in H | injection H as _ H ]; subst w';
      (split; [reflexivity |]); eexists; split; reflexivity.
  - destruct e; cbn [server disk trace truthy] in H;
      try (injection H as <- <-; (split; [reflexivity |]);
           eexists; split; reflexivity).
    destruct (urlparse_path url) as [path | e'];
      first [ apply Hend in H | injection H as _ H ]; subst w';
      (split; [reflexivity |]); cbn [trace]; rewrite <- app_assoc;
      eexists; split; reflexivity.
Qed.

Lemma keeps_get_file_name fuel url counter :
  keeps R (get_file_name api fs urlparse_path fuel url counter).
Proof.
  intros w o w' H. apply get_file_name_quiet in H.
  destruct H as (Hd & evs & Ht & Hnone). eapply R_quiet; eassumption.
Qed.

(** The block that names and fetches one file *)
Lemma keeps_fetch fuel url (announce : string -> message) :
  keeps R
    (do filename <- get_file_name api fs urlparse_path fuel url 0;
     run print (announce filename);
     download_file api fs url filename).
Proof.
  apply (keeps_bind_post _ _ (fun name w => P name w)).
  - apply keeps_get_file_name.
  - intros w a w' H. eapply P_name. exact H.
  - intros name w o w' Hfree H. unfold bind at 1 in H.
    unfold print, log in H.
    eapply R_trans;
      [apply (keeps_print (announce name) w _ _ eq_refl) |].
    eapply R_download; [| exact H].
    eapply P_quiet; [| exact Hfree]. reflexivity.
Qed.

Lemma keeps_process_children fuel children index :
  keeps R (process_children api fs urlparse_path fuel children index).
Proof.
  induction children as [| child rest IH]; cbn [process_children].
  - apply keeps_ret.
  - apply keeps_bind; [apply keeps_get_download_url |].
    intros child_url. apply keeps_bind; [| intros _; exact IH].
    destruct (truthy child_url);
      [apply keeps_fetch | apply keeps_print].
Qed.

Lemma keeps_process_entry fuel e index :
  keeps R (process_entry api fs urlparse_path fuel e index).
Proof.
  unfold process_entry.
  apply keeps_bind; [apply keeps_get_download_url |].
  intros url. apply keeps_bind.
  - destruct (truthy url);
      [apply keeps_fetch | apply keeps_print].
  - intros _. apply keeps_bind; [apply keeps_get_child_entries |].
    intros children. apply keeps_process_children.
Qed.

Lemma keeps_process_all fuel entries :
  forall idx,
    keeps R (process_all api fs urlparse_path fuel entries idx).
Proof.
  induction entries as [| e rest IH]; intros idx; cbn [process_all].
  - apply keeps_ret.
  - apply keeps_bind; [apply keeps_process_entry |].
    intros _. apply IH.
Qed.

Lemma keeps_get_entries_loop fuel :
  forall f pageIndex entries,
    keeps R (get_entries_loop api fuel f pageIndex entries
             : M (world S D) _).
Proof.
  induction fuel as [| fuel IH]; intros f pageIndex entries;
    cbn [get_entries_loop].
  - intros w o w' [= <- <-]. apply R_refl.
  - apply keeps_bind; [apply keeps_call |].
    intros [[| e objects] | ex].
    + apply keeps_ret.
    + apply IH.
    + destruct ex; try apply keeps_raise.
      apply keeps_bind; [apply keeps_print |]. intros _.
      apply keeps_ret.
Qed.

Lemma keeps_listed fuel (entries : list entry) :
  keeps R
    (match media_entries entries with
     | [] => print NoEntriesFound
     | _ =>
         run print (Found (Z.of_nat (length (media_entries entries))));
         run process_all api fs urlparse_path fuel (media_entries entries) 1;
         print AllComplete
     end).
Proof.
  destruct (media_entries entries) as [| e rest]; [apply keeps_print |].
  apply keeps_bind; [apply keeps_print |]. intros _.
  apply keeps_bind; [apply keeps_process_all |]. intros _.
  apply keeps_print.
Qed.

Lemma keeps_main_from_listing fuel method identifier :
  keeps R (main_from_listing api fs urlparse_path fuel method identifier).
Proof.
  unfold main_from_listing. apply keeps_bind.
  - rewrite get_entries_unfold.
    destruct (method_filter method identifier) as [f |].
    + apply keeps_get_entries_loop.
    + apply keeps_bind; [apply keeps_print |]. intros _.
      apply keeps_ret.
  - intros entries. apply keeps_listed.
Qed.

(** With a method that [get_entries] knows and a step of fuel, a run
    starts by asking for page 1 of the listing. *)
Lemma main_from_listing_starts fuel method identifier f (w : world S D)
    o w' :
  method_filter method identifier = Some f ->
  main_from_listing api fs urlparse_path (Datatypes.S fuel) method
    identifier w
  = (o, w') ->
  exists w1,
    trace w1 = trace w ++ [Called (BaseEntryList f 1)] /\ R w1 w'.
Proof.
  intros Hf H. unfold main_from_listing in H.
  rewrite get_entries_unfold, Hf in H.
  cbn [get_entries_loop] in H. unfold bind at 1 2 in H.
  destruct (call (BaseEntryList f 1) (baseEntry_list api f 1) w)
    as [[r | e | st |] w1] eqn:Hcall;
    try (unfold call in Hcall;
         destruct (baseEntry_list api f 1 (server w)); discriminate).
  exists w1. split.
  { unfold call in Hcall. destruct (baseEntry_list api f 1 (server w)).
    injection Hcall as _ <-. reflexivity. }
  match type of H with
  | (let (_, _) := ?k w1 in _) = _ =>
      assert (Hrest : keeps R
                        (bind k (fun entries =>
                           match media_entries entries with
                           | [] => print NoEntriesFound
                           | _ =>
                               run print (Found (Z.of_nat
                                            (length (media_entries entries))));
                               run process_all api fs urlparse_path
                                     (Datatypes.S fuel)
                                     (media_entries entries) 1;
                               print AllComplete
                           end)))
  end.
  { apply keeps_bind; [| intros entries; apply keeps_listed].
    destruct r as [[| e objects] | ex].
    - apply keeps_ret.
    - apply keeps_get_entries_loop.
    - destruct ex; try apply keeps_raise.
      apply keeps_bind; [apply keeps_print |]. intros _.
      apply keeps_ret. }
  exact (Hrest w1 o w' H).
Qed.
End Steps.

Section NoOverwrite.
Import Downloader.
Context {S D : Type} (api : remote S) (fs : filesystem D)
        (urlparse_path : string -> result string).
Hypothesis Hkeeps : keeps_files fs.

Lemma wrote_paths_app evs1 evs2 :
  wrote_paths (evs1 ++ evs2) = wrote_paths evs1 ++ wrote_paths evs2.
Proof.
  induction evs1 as [| ev evs1 IH]; [reflexivity |].
  destruct ev; cbn; rewrite IH; reflexivity.
Qed.

Lemma fresh_step_refl (w : world S D) : fresh_step fs w w.
Proof.
  exists []. rewrite app_nil_r. split; [reflexivity |].
  split; [constructor |]. split; [intros p [] | auto].
Qed.

Lemma fresh_step_trans (w1 w2 w3 : world S D) :
  fresh_step fs w1 w2 -> fresh_step fs w2 w3 -> fresh_step fs w1 w3.
Proof.
  intros (evs1 & Ht1 & Hnd1 & Hp1 & Hk1) (evs2 & Ht2 & Hnd2 & Hp2 & Hk2).
  exists (evs1 ++ evs2). rewrite Ht2, Ht1, <- app_assoc.
  split; [reflexivity |]. rewrite wrote_paths_app.
  split; [| split].
  - apply NoDup_app. split; [exact Hnd1 |]. split; [| exact Hnd2].
    intros p Hin1 Hin2.
    apply list_elem_of_In in Hin1, Hin2.
    destruct (Hp1 p Hin1) as [_ Hyes]. destruct (Hp2 p Hin2) as [Hno _].
    congruence.
  - intros p Hin. apply in_app_or in Hin. destruct Hin as [Hin | Hin].
    + destruct (Hp1 p Hin) as [Hno Hyes]. split; [exact Hno | auto].
    + destruct (Hp2 p Hin) as [Hno Hyes]. split; [| exact Hyes].
      destruct (os_path_exists fs p (disk w1)) eqn:E; [| reflexivity].
      apply Hk1 in E. congruence.
  - auto.
Qed.

(** A step that leaves the disk alone and opens nothing *)
Lemma fresh_step_quiet (w w' : world S D) evs :
  disk w' = disk w -> trace w' = trace w ++ evs -> wrote_paths evs = [] ->
  fresh_step fs w w'.
Proof.
  intros Hd Ht Hw. exists evs. rewrite Hw, Hd.
  split; [exact Ht |]. split; [constructor |].
  split; [intros p [] | auto].
Qed.

(** The name that [get_file_name] returns is free. *)
Lemma get_file_name_free fuel url counter (w : world S D) name w' :
  get_file_name api fs urlparse_path fuel url counter w = (Return name, w') ->
  join_free fs name w'.
Proof.
  intros H. apply get_file_name_returns in H.
  destruct H as (Hdisk & filename & Hfree & _).
  unfold join_free. rewrite Hdisk. eapply free_name_is_free. exact Hfree.
Qed.

(** Writing the chunks keeps what exists and logs nothing. *)
Lemma write_chunks_keeps file_path chunks :
  forall (w : world S D) o w',
    write_chunks fs file_path chunks w = (o, w') ->
    (exists r, o = Return r) /\ trace w' = trace w /\
    (forall p, os_path_exists fs p (disk w) = true ->
               os_path_exists fs p (disk w') = true).
Proof.
  destruct Hkeeps as (_ & _ & Hwrite & _).
  induction chunks as [| chunk rest IH]; intros w o w' H.
  - cbn in H. injection H as <- <-. eauto.
  - cbn [write_chunks] in H. unfold and_then, bind, on_disk in H.
    destruct (file_write fs file_path chunk (disk w)) as [[[] | e] d1] eqn:E.
    + apply IH in H. cbn [disk trace] in H.
      destruct H as (Hr & Ht & Hk). split; [exact Hr |].
      split; [exact Ht |]. intros p Hp. apply Hk. eapply Hwrite; eassumption.
    + cbn in H. injection H as <- <-. cbn [disk trace].
      split; [eauto |]. split; [reflexivity |].
      intros p Hp. eapply Hwrite; eassumption.
Qed.

Lemma download_file_fresh url filename (w : world S D) o w' :
  join_free fs filename w ->
  download_file api fs url filename w = (o, w') -> fresh_step fs w w'.
Proof.
  destruct Hkeeps as (Hmk & Hopen & _ & Hopened).
  intros Hfree. unfold download_file, and_then. intros H.
  unfold bind at 1 in H. unfold bind at 1 in H. unfold call at 1 in H.
  destruct (requests_get api url (server w)) as [[[] | e] s1].
  - unfold bind at 1 in H. unfold on_disk at 1 in H.
    cbn [server disk trace] in H.
    destruct (os_makedirs fs DOWNLOAD_FOLDER (disk w)) as [[[] | e] d1] eqn:Emk.
    + unfold bind at 1 in H. unfold on_disk at 1 in H.
      cbn [server disk trace] in H.
      destruct (open_wb fs _ d1) as [[[] | e] d2] eqn:Eopen.
      * unfold bind at 1 in H. unfold log at 1 in H.
        cbn [server disk trace] in H.
        unfold bind at 1 in H. unfold stream at 1 in H.
        cbn [server disk trace] in H.
        destruct (iter_content api url s1) as [[chunks ending] s2].
        unfold bind at 1 in H. cbn [fst snd] in H.
        destruct (write_chunks fs _ chunks _) as [o1 w1] eqn:Hw.
        apply write_chunks_keeps in Hw. cbn [disk trace] in Hw.
        destruct Hw as ([r ->] & Ht & Hk).
        assert (Hstep :
                  forall w2 : world S D,
                    disk w2 = disk w1 ->
                    (exists evs,
                        trace w2 = trace w1 ++ evs /\ wrote_paths evs = []) ->
                    fresh_step fs w w2).
        { intros w2 Hd (evs & Ht2 & Hnone).
          exists ([Called (RequestsGet url);
                   Wrote (Text.join DOWNLOAD_FOLDER filename)] ++ evs).
          rewrite Ht2, Ht, <- !app_assoc. split; [reflexivity |].
          rewrite wrote_paths_app, Hnone, app_nil_r. cbn [wrote_paths app].
          split; [apply NoDup_singleton |].
          rewrite Hd. split.
          - intros p [<- | []]. split; [exact Hfree |].
            apply Hk. eapply Hopened. exact Eopen.
          - intros p Hp. apply Hk. eapply Hopen; [exact Eopen |].
            eapply Hmk; eassumption. }
        destruct r as [[] | e].
        -- destruct ending as [e |].
           ++ cbn [ret] in H.
              destruct e; cbn in H; injection H as <- <-;
                apply Hstep; try reflexivity; cbn [trace];
                first [ exists []; rewrite app_nil_r; split; reflexivity
                      | eexists; split; reflexivity ].
           ++ cbn in H. injection H as <- <-. apply Hstep; [reflexivity |].
              exists []. rewrite app_nil_r. split; reflexivity.
        -- cbn [ret] in H.
           destruct e; cbn in H; injection H as <- <-;
             apply Hstep; try reflexivity; cbn [trace];
             first [ exists []; rewrite app_nil_r; split; reflexivity
                   | eexists; split; reflexivity ].
      * assert (Hstep :
                  forall evs,
                    wrote_paths evs = [] ->
                    fresh_step fs w
                      (mkworld s1 d2
                         (trace w ++ Called (RequestsGet url) :: evs))).
        { intros evs Hnone. exists (Called (RequestsGet url) :: evs).
          split; [reflexivity |].
          cbn [wrote_paths]. rewrite Hnone.
          split; [constructor |]. split; [intros p [] |].
          cbn [disk]. intros p Hp. eapply Hopen; [exact Eopen |].
          eapply Hmk; eassumption. }
        cbn [ret] in H.
        destruct e; cbn in H; injection H as <- <-;
          rewrite <- ?app_assoc; apply Hstep; reflexivity.
    + assert (Hstep :
                forall evs,
                  wrote_paths evs = [] ->
                  fresh_step fs w
                    (mkworld s1 d1
                       (trace w ++ Called (RequestsGet url) :: evs))).
      { intros evs Hnone. exists (Called (RequestsGet url) :: evs).
        split; [reflexivity |].
        cbn [wrote_paths]. rewrite Hnone.
        split; [constructor |]. split; [intros p [] |].
        cbn [disk]. intros p Hp. eapply Hmk; eassumption. }
      cbn [ret] in H.
      destruct e; cbn in H; injection H as <- <-;
        rewrite <- ?app_assoc; apply Hstep; reflexivity.
  - cbn [ret] in H.
    destruct e; cbn in H; injection H as <- <-;
      (eapply fresh_step_quiet;
       [reflexivity | cbn [trace]; rewrite <- ?app_assoc; reflexivity
        | reflexivity]).
Qed.

Lemma keeps_fresh_main_from_listing fuel method identifier :
  keeps (fresh_step fs)
    (main_from_listing api fs urlparse_path fuel method identifier).
Proof.
  apply (keeps_main_from_listing api fs urlparse_path (fresh_step fs)
           (join_free fs)).
  - apply fresh_step_refl.
  - apply fresh_step_trans.
  - apply fresh_step_quiet.
  - apply get_file_name_free.
  - intros name w w' Hd Hfree. unfold join_free in *. rewrite Hd. exact Hfree.
  - apply download_file_fresh.
Qed.
End NoOverwrite.

Section FirstCall.
Import Downloader.
Context {S D : Type} (api : remote S) (fs : filesystem D)
        (urlparse_path : string -> result string).

Lemma trace_grows_trans (w1 w2 w3 : world S D) :
  trace_grows w1 w2 -> trace_grows w2 w3 -> trace_grows w1 w3.
Proof.
  intros [evs1 H1] [evs2 H2]. exists (evs1 ++ evs2).
  rewrite H2, H1, app_assoc. reflexivity.
Qed.

Lemma download_file_grows url filename (w : world S D) o w' :
  download_file api fs url filename w = (o, w') -> trace_grows w w'.
Proof.
  intros H. apply download_file_one_get in H.
  destruct H as (evs & Ht & _). exists evs. exact Ht.
Qed.

(** With a method that [get_entries] knows and a step of fuel, the first
    thing a run does is to ask for page 1 of the listing. *)
Lemma main_from_listing_first_call fuel method identifier f (w : world S D)
    o w' :
  method_filter method identifier = Some f ->
  main_from_listing api fs urlparse_path (Datatypes.S fuel) method
    identifier w
  = (o, w') ->
  exists evs,
    trace w' = trace w ++ Called (BaseEntryList f 1) :: evs.
Proof.
  intros Hf H.
  assert (Hstart :
            exists w1,
              trace w1 = trace w ++ [Called (BaseEntryList f 1)] /\
              trace_grows w1 w').
  { eapply (main_from_listing_starts api fs urlparse_path trace_grows
              (fun _ _ => True)); [| | | | | | exact Hf | exact H].
    - intros w0. exists []. rewrite app_nil_r. reflexivity.
    - exact trace_grows_trans.
    - intros w0 w0' evs _ Ht _. exists evs. exact Ht.
    - intros; exact I.
    - intros; exact I.
    - intros url filename w0 o0 w0' _. apply download_file_grows. }
  destruct Hstart as (w1 & Ht1 & evs & Ht).
  exists evs. rewrite Ht, Ht1, <- app_assoc. reflexivity.
Qed.
End FirstCall.

Lemma plain_disk_keeps_files : keeps_files Examples.plain_disk.
Proof.
  unfold keeps_files, Examples.plain_disk. cbn.
  split; [| split; [| split]].
  - intros q d r d' p [= <- <-] Hp. apply bool_decide_eq_true in Hp.
    apply bool_decide_eq_true. apply elem_of_union_r. exact Hp.
  - intros q d r d' p [= <- <-] Hp. apply bool_decide_eq_true in Hp.
    apply bool_decide_eq_true. apply elem_of_union_r. exact Hp.
  - intros q chunk d r d' p [= <- <-] Hp. exact Hp.
  - intros q d d' [= <-]. apply bool_decide_eq_true.
    apply elem_of_union_l, elem_of_singleton. reflexivity.
Qed.

(** Property X17 (Downloader, a run from the listing on, lines 147-199 and
    229-298).  On a file system that keeps what exists (no operation of the
    script makes a path disappear, and a path opened for writing exists
    afterwards), whatever the platform and the HTTP server answer and however
    the run ends: the paths the run opens for writing are pairwise
    different, each of them is one for which [os.path.exists] answered no
    when the run started, and every path that existed then still exists.
    (Whether two paths name one file is for the file system to say: the
    script compares paths, not files.) *)
Theorem downloads_never_overwrite :
  forall (S D : Type) (api : Downloader.remote S)
         (fs : Downloader.filesystem D) urlparse_path fuel method
         identifier (w : Downloader.world S D) o w',
    keeps_files fs ->
    Downloader.main_from_listing api fs urlparse_path fuel method identifier w
    = (o, w') ->
    exists evs,
      Downloader.trace w' = Downloader.trace w ++ evs /\
      NoDup (wrote_paths evs) /\
      (forall p, In p (wrote_paths evs) ->
                 Downloader.os_path_exists fs p (Downloader.disk w) = false /\
                 Downloader.os_path_exists fs p (Downloader.disk w') = true) /\
      (forall p, Downloader.os_path_exists fs p (Downloader.disk w) = true ->
                 Downloader.os_path_exists fs p (Downloader.disk w') = true).
Proof.
  intros S D api fs urlparse_path fuel method identifier w o w' Hkeeps H.
  exact (keeps_fresh_main_from_listing api fs urlparse_path Hkeeps fuel method
           identifier w o w' H).
Qed.

Lemma downloads_never_overwrite_witness :
  let w : Downloader.world unit (gset string) :=
    Downloader.mkworld tt Examples.two_videos [] in
  let finished :=
    Downloader.main_from_listing Examples.downloader_library
      Examples.plain_disk Examples.url_path 3 "tag" "lectures" w in
  keeps_files Examples.plain_disk /\
  exists evs,
    Downloader.trace (snd finished) = Downloader.trace w ++ evs /\
    NoDup (wrote_paths evs) /\
    (forall p, In p (wrote_paths evs) ->
               Downloader.os_path_exists Examples.plain_disk p
                 (Downloader.disk w) = false /\
               Downloader.os_path_exists Examples.plain_disk p
                 (Downloader.disk (snd finished)) = true) /\
    (forall p, Downloader.os_path_exists Examples.plain_disk p
                 (Downloader.disk w) = true ->
               Downloader.os_path_exists Examples.plain_disk p
                 (Downloader.disk (snd finished)) = true).
Proof.
  intros w finished. split; [exact plain_disk_keeps_files |].
  apply (downloads_never_overwrite unit (gset string)
           Examples.downloader_library Examples.plain_disk
           Examples.url_path 3 "tag" "lectures" w (fst finished)).
  - exact plain_disk_keeps_files.
  - apply surjective_pairing.
Defined.

Lemma listing_collects_the_pages_witness :
  let w : Downloader.world unit (gset string) := Downloader.mkworld tt ∅ [] in
  Downloader.get_entries Examples.downloader_library 3 "tag" "lectures" w
  = (Return [Examples.image_entry; Examples.playlist_entry;
             Examples.video_entry],
     Downloader.mkworld tt ∅
       [Downloader.Called
          (Downloader.BaseEntryList (Downloader.tagsLike "lectures") 1);
        Downloader.Called
          (Downloader.BaseEntryList (Downloader.tagsLike "lectures") 2)]).
Proof.
  intros w.
  apply (proj1 (listing_collects_the_pages unit (gset string)
                  Examples.downloader_library 3 "tag" "lectures" w)
           (Downloader.tagsLike "lectures")
           [[Examples.image_entry; Examples.playlist_entry;
             Examples.video_entry]]
           (Ok []) tt).
  - reflexivity.
  - cbn. lia.
  - split; [discriminate |]. exists tt. split; reflexivity.
  - left. reflexivity.
Defined.

(** * More on the Category Republish Workflow *)

(** Property X18 (Republish, the loop body, lines 101-173).  Whatever the
    platform answers and however the entry ends, the calls made for one
    entry form one of eight sequences: a list call, then the delete call
    unless the association was not active, then the list call that verifies
    the removal, the add call and the list call that verifies the addition,
    cut short where a call failed or a check stopped the entry.  So an entry
    is deleted at most once and added at most once, the add never comes
    before the removal was verified, and every call names this entry and
    this category. *)
Theorem republish_call_sequences :
  forall (S : Type) (api : Republish.remote S) entry_id category_id
         (w : Republish.world S) o w',
    Republish.process_entry api entry_id category_id w = (o, w') ->
    exists evs,
      Republish.trace w' = Republish.trace w ++ evs /\
      In (calls_of evs) (republish_sequences entry_id category_id).
Proof.
  intros S api entry_id category_id w o w' H.
  rewrite process_entry_unfold in H.
  unfold announced, Republish.remove_from_category,
    Republish.entry_in_category, Republish.add_to_category,
    bind, Republish.call, Republish.print, Republish.log, ret, raise in H.
  cbn [Republish.server Republish.trace] in H.
  repeat match type of H with
         | context [Republish.categoryEntry_list api ?a ?b ?s] =>
             destruct (Republish.categoryEntry_list api a b s) as [[? | ?] ?];
             cbn in H
         | context [Republish.categoryEntry_delete api ?a ?b ?s] =>
             destruct (Republish.categoryEntry_delete api a b s)
               as [[? | ?] ?]; cbn in H
         | context [Republish.categoryEntry_add api ?a ?b ?s] =>
             destruct (Republish.categoryEntry_add api a b s) as [[? | ?] ?];
             cbn in H
         | context [Republish.is_active ?r] =>
             destruct (Republish.is_active r) as [[|] | ?]; cbn in H
         | context [Republish.has_matches ?r] =>
             destruct (Republish.has_matches r); cbn in H
         end;
    injection H as <- <-; cbn [Republish.trace];
    rewrite <- ?app_assoc; eexists; (split; [reflexivity |]);
    cbn; tauto.
Qed.

Lemma republish_call_sequences_witness :
  let w : Republish.world (list (string * string * Z)) :=
    Republish.mkworld [("1_abc", "42", 2)] [] in
  exists evs,
    Republish.trace (snd (Republish.process_entry Republish.platform
                            "1_abc" "42" w))
    = Republish.trace w ++ evs /\
    In (calls_of evs) (republish_sequences "1_abc" "42").
Proof.
  intros w.
  apply (republish_call_sequences _ Republish.platform "1_abc" "42" w
           (fst (Republish.process_entry Republish.platform "1_abc" "42" w))).
  apply surjective_pairing.
Defined.

(** Property X19 (Republish, [remove_from_category], line 114).  When the
    platform reports a positive [totalCount] for the association but sends
    no object, reading the first object raises [IndexError]: the error
    leaves the loop, so the entry gets no further call and the entry IDs
    after it are not processed. *)
Theorem answer_without_objects_stops_the_run :
  forall (S : Type) (api : Republish.remote S) entry_id rest category_id
         (w : Republish.world S) resp s1,
    Republish.categoryEntry_list api category_id entry_id (Republish.server w)
    = (Ok resp, s1) ->
    Republish.has_matches resp = true ->
    Republish.objects resp = [] ->
    Republish.process_entries api (entry_id :: rest) category_id w
    = (Uncaught IndexError,
       Republish.mkworld s1
         (Republish.trace w ++
          [Republish.Printed Republish.Separator;
           Republish.Printed (Republish.Processing entry_id category_id);
           Republish.Printed Republish.Removing;
           Republish.Called
             (Republish.CategoryEntryList category_id entry_id)])).
Proof.
  intros S api entry_id rest category_id w resp s1 Hlist Hm Hobj.
  cbn [Republish.process_entries]. unfold bind at 1.
  rewrite process_entry_unfold.
  unfold announced, Republish.remove_from_category, Republish.is_active,
    bind, Republish.call, raise.
  cbn [Republish.server Republish.trace].
  rewrite Hlist, Hm, Hobj. cbn. rewrite <- app_assoc. reflexivity.
Qed.

Lemma answer_without_objects_stops_the_run_witness :
  let w : Republish.world unit := Republish.mkworld tt [] in
  Republish.process_entries republish_no_objects ["1_abc"; "1_def"] "42" w
  = (Uncaught IndexError,
     Republish.mkworld tt
       [Republish.Printed Republish.Separator;
        Republish.Printed (Republish.Processing "1_abc" "42");
        Republish.Printed Republish.Removing;
        Republish.Called (Republish.CategoryEntryList "42" "1_abc")]).
Proof.
  intros w.
  apply (answer_without_objects_stops_the_run unit republish_no_objects
           "1_abc" ["1_def"] "42" w
           (Republish.mklist_response (Some 1) []) tt);
    reflexivity.
Defined.

(** * The inputs of the Republish script *)

Section EntryIds.
Import Text RepublishScript.

Lemma split_comma_last a piece :
  count_char "," a = 0%nat -> split_from "," a 0 piece = [piece +:+ a].
Proof.
  revert piece. induction a as [| c a IH]; intros piece H.
  - rewrite append_empty_r. reflexivity.
  - cbn [count_char] in H. cbn [split_from startswith].
    destruct (Ascii.eqb c ","); [discriminate |]. cbn [andb].
    rewrite IH by exact H. rewrite append_assoc, append_cons, append_empty_l.
    reflexivity.
Qed.

Lemma split_comma_cons a rest piece :
  count_char "," a = 0%nat ->
  split_from "," (a +:+ String "," rest) 0 piece
  = (piece +:+ a) :: split_from "," rest 0 "".
Proof.
  revert piece. induction a as [| c a IH]; intros piece H.
  - rewrite append_empty_l, append_empty_r. reflexivity.
  - cbn [count_char] in H. rewrite append_cons.
    cbn [split_from startswith].
    destruct (Ascii.eqb c ","); [discriminate |]. cbn [andb].
    rewrite IH by exact H. rewrite append_assoc, append_cons, append_empty_l.
    reflexivity.
Qed.

Lemma split_concat ids :
  ids <> [] ->
  Forall (fun id => count_char "," id = 0%nat) ids ->
  split (String.concat "," ids) "," = ids.
Proof.
  unfold split. induction ids as [| a rest IH]; intros Hne Hall; [congruence |].
  inversion Hall as [| ? ? Ha Hrest]; subst.
  destruct rest as [| b rest'].
  - cbn [String.concat]. rewrite split_comma_last by exact Ha.
    rewrite append_empty_l. reflexivity.
  - change (String.concat "," (a :: b :: rest'))
      with (a +:+ String "," (String.concat "," (b :: rest'))).
    rewrite split_comma_cons by exact Ha. rewrite append_empty_l.
    f_equal. apply IH; [discriminate | exact Hrest].
Qed.

Lemma truthy_nonempty s : truthy s = true <-> s <> "".
Proof. destruct s; cbn; split; congruence. Qed.

(** Clean IDs joined by commas are read back as they were. *)
Lemma entry_ids_of_concat ids :
  Forall clean_id ids -> entry_ids_of (String.concat "," ids) = ids.
Proof.
  intros Hall. unfold entry_ids_of.
  destruct ids as [| a rest]; [reflexivity |].
  rewrite split_concat;
    [| discriminate
     | eapply Forall_impl; [exact Hall |]; intros id (_ & _ & H); exact H].
  induction Hall as [| id ids (Hne & Hstrip & _) _ IH]; [reflexivity |].
  cbn [List.filter]. rewrite Hstrip.
  rewrite (proj2 (truthy_nonempty id) Hne).
  cbn [map]. rewrite Hstrip. f_equal. exact IH.
Qed.

Lemma count_char_lstrip x f s :
  (count_char x (lstrip f s) <= count_char x s)%nat.
Proof.
  induction s as [| c s IH]; [reflexivity |].
  cbn [lstrip]. destruct (f c); cbn [count_char]; lia.
Qed.

Lemma count_char_rstrip x f s :
  (count_char x (rstrip f s) <= count_char x s)%nat.
Proof.
  induction s as [| c s IH]; [reflexivity |].
  cbn [rstrip]. destruct (rstrip f s) as [| y r].
  - destruct (f c); cbn [count_char] in *; lia.
  - cbn [count_char] in *. lia.
Qed.

Lemma count_char_strip x f s :
  (count_char x (strip f s) <= count_char x s)%nat.
Proof.
  unfold strip. etransitivity; [apply count_char_rstrip |].
  apply count_char_lstrip.
Qed.

Lemma strip_idempotent f s : strip f (strip f s) = strip f s.
Proof. apply strip_fixed; apply strip_ends. Qed.

Lemma split_from_comma_pieces s :
  forall piece,
    count_char "," piece = 0%nat ->
    Forall (fun p => count_char "," p = 0%nat) (split_from "," s 0 piece).
Proof.
  induction s as [| c s IH]; intros piece Hp.
  - repeat constructor. exact Hp.
  - cbn [split_from startswith String.length Nat.sub]. rewrite andb_true_r.
    destruct (Ascii.eqb c ",") eqn:E.
    + constructor; [exact Hp | apply IH; reflexivity].
    + apply IH. rewrite count_char_append, Hp. cbn [count_char].
      rewrite E. reflexivity.
Qed.

(** Whatever is typed, the IDs that are read are clean. *)
Lemma entry_ids_of_clean raw : Forall clean_id (entry_ids_of raw).
Proof.
  unfold entry_ids_of, split.
  pose proof (split_from_comma_pieces raw "" eq_refl) as Hpieces.
  induction Hpieces as [| p ps Hp _ IH]; [constructor |].
  cbn [List.filter].
  destruct (truthy (strip is_space p)) eqn:Ht; [| exact IH].
  cbn [map]. constructor; [| exact IH].
  split; [apply truthy_nonempty; exact Ht |].
  split; [apply strip_idempotent |].
  pose proof (count_char_strip "," is_space p). lia.
Qed.
End EntryIds.

(** Property X20 (Republish, the entry IDs, lines 63-67).  Whatever the
    list of entry IDs that is given, every ID that reaches the loop is not
    empty, has no whitespace around it and holds no comma; and a list of
    such IDs joined by commas is read back as it was. *)
Theorem entry_ids_are_read_clean :
  (forall raw, Forall clean_id (RepublishScript.entry_ids_of raw)) /\
  (forall ids, Forall clean_id ids ->
               RepublishScript.entry_ids_of (String.concat "," ids) = ids).
Proof. split; [exact entry_ids_of_clean | exact entry_ids_of_concat]. Qed.

Lemma entry_ids_are_read_clean_witness :
  RepublishScript.entry_ids_of (String.concat "," ["1_abc"; "1_def"])
  = ["1_abc"; "1_def"].
Proof.
  apply (proj2 entry_ids_are_read_clean ["1_abc"; "1_def"]).
  repeat constructor; try discriminate; vm_compute; reflexivity.
Defined.

(** Property X21 (Republish, the loop body, lines 109-159).  When the
    platform lists the association of the entry with the category in a
    state that is not active, and lists it again when the removal is
    verified, the entry ends with "Failed to confirm removal": it gets the
    two list calls and neither a delete nor an add call. *)
Theorem inactive_association_is_left_alone :
  forall (S : Type) (api : Republish.remote S) entry_id category_id
         (w : Republish.world S) resp s1 s2,
    Republish.categoryEntry_list api category_id entry_id (Republish.server w)
    = (Ok resp, s1) ->
    Republish.has_matches resp = true ->
    Republish.is_active resp = Ok false ->
    Republish.categoryEntry_list api category_id entry_id s1 = (Ok resp, s2) ->
    Republish.process_entry api entry_id category_id w
    = (Return tt,
       Republish.mkworld s2
         (Republish.trace w ++
          [Republish.Printed Republish.Separator;
           Republish.Printed (Republish.Processing entry_id category_id);
           Republish.Printed Republish.Removing;
           Republish.Called (Republish.CategoryEntryList category_id entry_id);
           Republish.Printed
             (Republish.NotActiveSkippingRemoval entry_id category_id);
           Republish.Called (Republish.CategoryEntryList category_id entry_id);
           Republish.Printed Republish.FailedToConfirmRemoval])).
Proof. intros S api. apply process_entry_not_active. Qed.

Lemma inactive_association_is_left_alone_witness :
  let w : Republish.world (list (string * string * Z)) :=
    Republish.mkworld [("1_abc", "42", 3)] [] in
  Republish.process_entry Republish.platform "1_abc" "42" w
  = (Return tt,
     Republish.mkworld [("1_abc", "42", 3)]
       [Republish.Printed Republish.Separator;
        Republish.Printed (Republish.Processing "1_abc" "42");
        Republish.Printed Republish.Removing;
        Republish.Called (Republish.CategoryEntryList "42" "1_abc");
        Republish.Printed (Republish.NotActiveSkippingRemoval "1_abc" "42");
        Republish.Called (Republish.CategoryEntryList "42" "1_abc");
        Republish.Printed Republish.FailedToConfirmRemoval]).
Proof.
  intros w.
  apply (inactive_association_is_left_alone _ Republish.platform "1_abc" "42"
           w (Republish.mklist_response (Some 1)
                [Republish.mkassociation (Some 3)])
           [("1_abc", "42", 3)] [("1_abc", "42", 3)]);
    reflexivity.
Defined.

(** * The Republish script before its loop *)

Section Preparation.
Import Text RepublishScript.
Context {S : Type} (api : remote S) (loop_api : Republish.remote S).
Context (py_int : string -> result Z) (env : gmap string string).

Lemma before_loop_refl (w : world S) : before_loop w w.
Proof. exists []. rewrite app_nil_r. split; reflexivity. Qed.

Lemma before_loop_trans (w1 w2 w3 : world S) :
  before_loop w1 w2 -> before_loop w2 w3 -> before_loop w1 w3.
Proof.
  intros (evs1 & Ht1 & Hn1) (evs2 & Ht2 & Hn2).
  exists (evs1 ++ evs2). rewrite Ht2, Ht1, <- app_assoc, forallb_app, Hn1, Hn2.
  split; reflexivity.
Qed.

Lemma prepares_ret {A} (a : A) : prepares (ret a : M (world S) A).
Proof.
  intros w o w' [= <- <-]. split; [apply before_loop_refl | discriminate].
Qed.

Lemma prepares_raise {A} e : prepares (raise e : M (world S) A).
Proof.
  intros w o w' [= <- <-]. split; [apply before_loop_refl | discriminate].
Qed.

Lemma prepares_exit {A} : prepares (exit 1 : M (world S) A).
Proof.
  intros w o w' [= <- <-]. split; [apply before_loop_refl |].
  intros status [= <-]. reflexivity.
Qed.

Lemma prepares_lift {A} (r : result A) : prepares (lift r : M (world S) A).
Proof. destruct r; [apply prepares_ret | apply prepares_raise]. Qed.

Lemma prepares_print m : prepares (print m : M (world S) unit).
Proof.
  intros w o w' [= <- <-]. split; [| discriminate].
  exists [Printed m]. split; reflexivity.
Qed.

Lemma prepares_input text : prepares (input text : M (world S) string).
Proof.
  intros w o w' H. unfold input in H.
  destruct (stdin w); injection H as <- <-; (split; [| discriminate]);
    exists [Prompted text]; split; reflexivity.
Qed.

Lemma prepares_call {R} r (f : S -> result R * S) : prepares (call r f).
Proof.
  intros w o w' H. unfold call in H.
  destruct (f (server w)) as [res s']. injection H as <- <-.
  split; [| discriminate]. exists [Called r]. split; reflexivity.
Qed.

Lemma prepares_bind {A B} (m : M (world S) A) (k : A -> M (world S) B) :
  prepares m -> (forall a, prepares (k a)) -> prepares (bind m k).
Proof.
  intros Hm Hk w o w' H. unfold bind in H.
  destruct (m w) as [[a | e | st |] w1] eqn:Hmw.
  - destruct (Hm _ _ _ Hmw) as [H1 _]. destruct (Hk a _ _ _ H) as [H2 Hst].
    split; [eapply before_loop_trans; eassumption | exact Hst].
  - injection H as <- <-. destruct (Hm _ _ _ Hmw) as [H1 _].
    split; [exact H1 | discriminate].
  - injection H as <- <-. destruct (Hm _ _ _ Hmw) as [H1 Hst].
    split; [exact H1 |]. intros status [= <-]. apply Hst. reflexivity.
  - injection H as <- <-. destruct (Hm _ _ _ Hmw) as [H1 _].
    split; [exact H1 | discriminate].
Qed.

Lemma prepares_start_session : prepares (start_session api py_int env).
Proof.
  unfold start_session.
  destruct (negb (truthy (PARTNER_ID env)) || negb (truthy (ADMIN_SECRET env))).
  - apply prepares_bind; [apply prepares_print | intros _; apply prepares_exit].
  - apply prepares_bind; [apply prepares_lift |]. intros partner_id.
    apply prepares_bind; [apply prepares_call |]. intros [ks | e];
      [apply prepares_ret | apply prepares_raise].
Qed.

Lemma prepares_read_entry_ids : prepares (read_entry_ids env : M (world S) _).
Proof.
  unfold read_entry_ids. apply prepares_bind.
  - destruct (truthy (ENV_ENTRY_IDS env)); [apply prepares_ret |].
    apply prepares_bind; [apply prepares_input |]. intros raw.
    apply prepares_ret.
  - intros [| id ids]; [| apply prepares_ret].
    apply prepares_bind; [apply prepares_print | intros _; apply prepares_exit].
Qed.

Lemma prepares_read_category_id : prepares (read_category_id api env).
Proof.
  unfold read_category_id. destruct (USE_CATEGORY_NAME env).
  - destruct (negb (truthy (CATEGORY_PATH_PREFIX env))).
    + apply prepares_bind; [apply prepares_print | intros _; apply prepares_exit].
    + apply prepares_bind.
      * destruct (truthy (CHANNEL_NAME_ENV env)); [apply prepares_ret |].
        apply prepares_bind; [apply prepares_input |]. intros a.
        apply prepares_ret.
      * intros channel_name.
        apply prepares_bind; [apply prepares_call |]. intros [cat_objs | e];
          [| apply prepares_raise].
        destruct (default [] cat_objs) as [| first rest].
        -- apply prepares_bind;
             [apply prepares_print | intros _; apply prepares_exit].
        -- apply prepares_bind;
             [apply prepares_print | intros _; apply prepares_ret].
  - apply prepares_bind; [apply prepares_input |]. intros a.
    destruct (negb (truthy (strip is_space a))).
    + apply prepares_bind; [apply prepares_print | intros _; apply prepares_exit].
    + apply prepares_bind; [apply prepares_print | intros _; apply prepares_ret].
Qed.

Lemma prepares_prepare : prepares (prepare api py_int env).
Proof.
  unfold prepare.
  apply prepares_bind; [apply prepares_start_session |]. intros _.
  apply prepares_bind; [apply prepares_read_entry_ids |]. intros entry_ids.
  apply prepares_bind; [apply prepares_read_category_id |]. intros category_id.
  apply prepares_ret.
Qed.

(** The loop has no [sys.exit]. *)
Lemma process_entry_no_exit entry_id category_id (lw : Republish.world S)
    status lw' :
  Republish.process_entry loop_api entry_id category_id lw
  <> (Exit status, lw').
Proof.
  intros H. rewrite process_entry_unfold in H.
  unfold announced, Republish.remove_from_category,
    Republish.entry_in_category, Republish.add_to_category,
    bind, Republish.call, Republish.print, Republish.log, ret, raise in H.
  cbn [Republish.server Republish.trace] in H.
  repeat match type of H with
         | context [Republish.categoryEntry_list loop_api ?a ?b ?s] =>
             destruct (Republish.categoryEntry_list loop_api a b s)
               as [[? | ?] ?]; cbn in H
         | context [Republish.categoryEntry_delete loop_api ?a ?b ?s] =>
             destruct (Republish.categoryEntry_delete loop_api a b s)
               as [[? | ?] ?]; cbn in H
         | context [Republish.categoryEntry_add loop_api ?a ?b ?s] =>
             destruct (Republish.categoryEntry_add loop_api a b s)
               as [[? | ?] ?]; cbn in H
         | context [Republish.is_active ?r] =>
             destruct (Republish.is_active r) as [[|] | ?]; cbn in H
         | context [Republish.has_matches ?r] =>
             destruct (Republish.has_matches r); cbn in H
         end;
    discriminate.
Qed.

Lemma process_entries_no_exit entry_ids category_id :
  forall (lw : Republish.world S) status lw',
    Republish.process_entries loop_api entry_ids category_id lw
    <> (Exit status, lw').
Proof.
  induction entry_ids as [| entry_id rest IH]; intros lw status lw' H.
  - discriminate.
  - cbn [Republish.process_entries] in H. unfold bind at 1 in H.
    destruct (Republish.process_entry loop_api entry_id category_id lw)
      as [[[] | e | st |] lw1] eqn:Hone.
    + eapply IH. exact H.
    + discriminate.
    + eapply process_entry_no_exit. exact Hone.
    + discriminate.
Qed.

(** What [prepare] has checked when it returns *)
Lemma start_session_returns (w w1 : world S) :
  start_session api py_int env w = (Return tt, w1) ->
  PARTNER_ID env <> "" /\ ADMIN_SECRET env <> "" /\
  exists partner_id ks,
    py_int (PARTNER_ID env) = Ok partner_id /\
    session_start api (ADMIN_SECRET env) (USER_ID env) partner_id
      (PRIVILEGES env) (server w) = (Ok ks, server w1) /\
    stdin w1 = stdin w /\
    trace w1
    = trace w ++ [Called (SessionStart (ADMIN_SECRET env) (USER_ID env)
                                       partner_id (PRIVILEGES env))].
Proof.
  unfold start_session. intros H.
  destruct (truthy (PARTNER_ID env)) eqn:Hp; [| cbn in H; discriminate].
  destruct (truthy (ADMIN_SECRET env)) eqn:Ha; [| cbn in H; discriminate].
  apply truthy_nonempty in Hp, Ha.
  split; [exact Hp |]. split; [exact Ha |].
  cbn [negb orb] in H. unfold bind at 1 in H.
  destruct (py_int (PARTNER_ID env)) as [partner_id | e];
    cbn [lift ret raise] in H; [| discriminate].
  unfold bind, call in H.
  destruct (session_start api _ _ _ _ (server w)) as [[ks | e] s1] eqn:Hs;
    cbn in H; [| discriminate].
  injection H as <-. exists partner_id, ks. repeat split. exact Hs.
Qed.

(** The lines that are left to type once the entry IDs have been read *)
Lemma read_entry_ids_world (w : world S) entry_ids w1 :
  read_entry_ids env w = (Return entry_ids, w1) ->
  server w1 = server w /\
  stdin w1 = if truthy (ENV_ENTRY_IDS env) then stdin w else tail (stdin w).
Proof.
  unfold read_entry_ids. intros H. unfold bind at 1 in H.
  destruct (truthy (ENV_ENTRY_IDS env)).
  - cbn [ret] in H.
    destruct (entry_ids_of (ENV_ENTRY_IDS env)); cbn in H;
      [discriminate |].
    injection H as _ <-. split; reflexivity.
  - unfold bind at 1 in H. unfold input in H.
    destruct (stdin w) as [| raw rest]; [discriminate |].
    cbn [ret] in H.
    destruct (entry_ids_of (strip is_space raw)); cbn in H;
      [discriminate |].
    injection H as _ <-. split; reflexivity.
Qed.

Lemma read_entry_ids_returns (w : world S) entry_ids w1 :
  read_entry_ids env w = (Return entry_ids, w1) ->
  entry_ids <> [] /\ Forall clean_id entry_ids.
Proof.
  unfold read_entry_ids. intros H. unfold bind at 1 in H.
  match type of H with
  | (let (_, _) := ?m w in _) = _ =>
      assert (Hm : forall ids w2, m w = (Return ids, w2) ->
                                  Forall clean_id ids);
      [| destruct (m w) as [[ids | e | st |] w2] eqn:Hread;
         try discriminate]
  end.
  { intros ids w2. destruct (truthy (ENV_ENTRY_IDS env)).
    - intros [= <- <-]. apply entry_ids_of_clean.
    - unfold bind, input. destruct (stdin w); [discriminate |].
      intros [= <- <-]. apply entry_ids_of_clean. }
  destruct ids as [| id ids]; [cbn in H; discriminate |].
  injection H as <- <-. split; [discriminate |]. eapply Hm. reflexivity.
Qed.

Lemma read_category_id_returns (w : world S) category_id w1 :
  read_category_id api env w = (Return category_id, w1) ->
  if USE_CATEGORY_NAME env
  then CATEGORY_PATH_PREFIX env <> "" /\
       exists channel_name cat_objs first rest s2,
         (if truthy (CHANNEL_NAME_ENV env)
          then channel_name = CHANNEL_NAME_ENV env
          else exists a rest',
                 stdin w = a :: rest' /\ channel_name = strip is_space a) /\
         category_list api (CATEGORY_PATH_PREFIX env +:+ channel_name)
           (server w) = (Ok cat_objs, s2) /\
         default [] cat_objs = first :: rest /\
         category_id = pretty (RepublishScript.category_id first)
  else category_id <> "" /\ strip is_space category_id = category_id /\
       exists a rest',
         stdin w = a :: rest' /\ category_id = strip is_space a.
Proof.
  unfold read_category_id. intros H.
  destruct (USE_CATEGORY_NAME env).
  - destruct (truthy (CATEGORY_PATH_PREFIX env)) eqn:Hp;
      [| cbn in H; discriminate].
    split; [apply truthy_nonempty; exact Hp |].
    cbn [negb] in H. unfold bind at 1 in H.
    match type of H with
    | (let (_, _) := ?m w in _) = _ =>
        assert (Hm : forall name w2,
                   m w = (Return name, w2) ->
                   server w2 = server w /\
                   if truthy (CHANNEL_NAME_ENV env)
                   then name = CHANNEL_NAME_ENV env
                   else exists a rest',
                          stdin w = a :: rest' /\ name = strip is_space a);
        [| destruct (m w) as [[channel_name | e | st |] w2] eqn:Hname;
           try discriminate]
    end.
    { intros name w2. destruct (truthy (CHANNEL_NAME_ENV env)).
      - intros [= <- <-]. split; reflexivity.
      - unfold bind, input. destruct (stdin w) as [| a rest'];
          [discriminate |].
        intros [= <- <-]. split; [reflexivity | eauto]. }
    destruct (Hm _ _ eq_refl) as [Hserver Hchannel].
    unfold bind at 1 in H. unfold call in H. rewrite Hserver in H.
    destruct (category_list api _ (server w)) as [[cat_objs | e] s3] eqn:Hl;
      cbn in H; [| discriminate].
    destruct (default [] cat_objs) as [| first rest] eqn:Hobjs; cbn in H;
      [discriminate |].
    injection H as <- <-.
    exists channel_name, cat_objs, first, rest, s3. repeat split; assumption.
  - unfold bind at 1 in H. unfold input in H.
    destruct (stdin w) as [| a rest]; [discriminate |].
    destruct (truthy (strip is_space a)) eqn:Ha; cbn in H;
      [| discriminate].
    injection H as <- <-.
    split; [apply truthy_nonempty; exact Ha |].
    split; [apply strip_idempotent | eauto].
Qed.
End Preparation.

(** Property X22 (Republish, lines 32-97).  When the part of the script
    before the loop comes to its end, it has checked what the loop works on:
    PARTNER_ID and ADMIN_SECRET are not empty and PARTNER_ID reads as a
    number; the session was started with them, as the first thing the script
    did on the platform; there is at least one entry ID and every ID is
    clean; and the category ID is, with USE_CATEGORY_NAME off, the answer to
    the prompt, not empty and without whitespace around it, and otherwise
    the ID of the first category that the platform, as the session start left
    it, listed under the full name made of CATEGORY_PATH_PREFIX (not empty)
    and the channel name: CHANNEL_NAME when it is set, the answer to the
    prompt otherwise. *)
Theorem preparation_checks_the_inputs :
  forall (S : Type) (api : RepublishScript.remote S) py_int env
         (w : RepublishScript.world S) entry_ids category_id w',
    RepublishScript.prepare api py_int env w
    = (Return (entry_ids, category_id), w') ->
    let typed :=
      if RepublishScript.truthy (RepublishScript.ENV_ENTRY_IDS env)
      then RepublishScript.stdin w else tail (RepublishScript.stdin w) in
    RepublishScript.PARTNER_ID env <> "" /\
    RepublishScript.ADMIN_SECRET env <> "" /\
    (exists partner_id evs,
        py_int (RepublishScript.PARTNER_ID env) = Ok partner_id /\
        RepublishScript.trace w'
        = RepublishScript.trace w ++
          RepublishScript.Called
            (RepublishScript.SessionStart
               (RepublishScript.ADMIN_SECRET env) (RepublishScript.USER_ID env)
               partner_id (RepublishScript.PRIVILEGES env)) :: evs) /\
    entry_ids <> [] /\ Forall clean_id entry_ids /\
    (if RepublishScript.USE_CATEGORY_NAME env
     then RepublishScript.CATEGORY_PATH_PREFIX env <> "" /\
          exists partner_id ks s1 channel_name cat_objs first rest s2,
            py_int (RepublishScript.PARTNER_ID env) = Ok partner_id /\
            RepublishScript.session_start api
              (RepublishScript.ADMIN_SECRET env) (RepublishScript.USER_ID env)
              partner_id (RepublishScript.PRIVILEGES env)
              (RepublishScript.server w) = (Ok ks, s1) /\
            (if RepublishScript.truthy (RepublishScript.CHANNEL_NAME_ENV env)
             then channel_name = RepublishScript.CHANNEL_NAME_ENV env
             else exists a rest',
                    typed = a :: rest' /\
                    channel_name = Text.strip Text.is_space a) /\
            RepublishScript.category_list api
              (RepublishScript.CATEGORY_PATH_PREFIX env +:+ channel_name) s1
            = (Ok cat_objs, s2) /\
            default [] cat_objs = first :: rest /\
            category_id = pretty (RepublishScript.category_id first)
     else category_id <> "" /\
          Text.strip Text.is_space category_id = category_id /\
          exists a rest',
            typed = a :: rest' /\ category_id = Text.strip Text.is_space a).
Proof.
  intros S api py_int env w entry_ids category_id w' H typed.
  unfold RepublishScript.prepare in H. unfold bind at 1 in H.
  destruct (RepublishScript.start_session api py_int env w)
    as [[[] | e | st |] w1] eqn:Hstart; try discriminate.
  unfold bind at 1 in H.
  destruct (RepublishScript.read_entry_ids env w1)
    as [[ids | e | st |] w2] eqn:Hids; try discriminate.
  unfold bind at 1 in H.
  destruct (RepublishScript.read_category_id api env w2)
    as [[cat | e | st |] w3] eqn:Hcat; try discriminate.
  injection H as <- <- <-.
  destruct (start_session_returns api py_int env _ _ Hstart)
    as (Hp & Ha & partner_id & ks & Hint & Hsession & Hin1 & Ht1).
  destruct (read_entry_ids_returns env _ _ _ Hids) as [Hne Hclean].
  destruct (read_entry_ids_world env _ _ _ Hids) as [Hserver2 Hin2].
  pose proof (read_category_id_returns api env _ _ _ Hcat) as Hcategory.
  destruct (prepares_read_entry_ids env _ _ _ Hids) as [(evs2 & Ht2 & _) _].
  destruct (prepares_read_category_id api env _ _ _ Hcat)
    as [(evs3 & Ht3 & _) _].
  assert (Htyped : RepublishScript.stdin w2 = typed).
  { subst typed. rewrite Hin2, Hin1. reflexivity. }
  split; [exact Hp |]. split; [exact Ha |]. split.
  { exists partner_id, (evs2 ++ evs3). split; [exact Hint |].
    rewrite Ht3, Ht2, Ht1, <- !app_assoc. reflexivity. }
  split; [exact Hne |]. split; [exact Hclean |].
  rewrite Htyped, Hserver2 in Hcategory.
  destruct (RepublishScript.USE_CATEGORY_NAME env).
  - destruct Hcategory
      as (Hprefix & channel_name & cat_objs & first & rest & s2 & Hchannel &
          Hlist & Hobjs & Hid).
    split; [exact Hprefix |].
    exists partner_id, ks, (RepublishScript.server w1), channel_name, cat_objs,
      first, rest, s2.
    repeat split; assumption.
  - exact Hcategory.
Qed.

(** Property X23 (Republish, the whole script).  The script leaves through
    [sys.exit] only before its loop, and only with status 1: a run that
    exits has logged nothing of the loop, so it has made no list, delete or
    add call for any entry. *)
Theorem script_exits_before_the_loop :
  forall (S : Type) (api : RepublishScript.remote S)
         (loop_api : Republish.remote S) py_int env
         (w : RepublishScript.world S) status w',
    RepublishScript.script api loop_api py_int env w = (Exit status, w') ->
    status = 1 /\
    exists evs,
      RepublishScript.trace w' = RepublishScript.trace w ++ evs /\
      forallb (fun ev => negb (is_looped ev)) evs = true.
Proof.
  intros S api loop_api py_int env w status w' H.
  unfold RepublishScript.script in H. unfold bind at 1 in H.
  destruct (RepublishScript.prepare api py_int env w)
    as [[p | e | st |] w1] eqn:Hprep; try discriminate.
  - exfalso. unfold RepublishScript.loop in H.
    destruct (Republish.process_entries loop_api (fst p) (snd p) _)
      as [o lw] eqn:Hloop.
    injection H as -> _.
    eapply process_entries_no_exit. exact Hloop.
  - injection H as -> <-.
    destruct (prepares_prepare api py_int env _ _ _ Hprep) as [Hbefore Hst].
    split; [apply Hst; reflexivity | exact Hbefore].
Qed.

Lemma preparation_checks_the_inputs_witness :
  let env : gmap string string :=
    {[ "PARTNER_ID" := "123"; "ADMIN_SECRET" := "secret";
       "ENTRY_IDS" := "1_abc, 1_def,,"; "USE_CATEGORY_NAME" := "True";
       "CATEGORY_PATH_PREFIX" := "MediaSpace>site>channels>" ]} in
  let w : RepublishScript.world (list (string * string * Z)) :=
    RepublishScript.mkworld [] [" 12345 "] [] in
  Forall clean_id ["1_abc"; "1_def"] /\
  exists channel_name cat_objs first rest s1 s2,
    channel_name = "12345" /\
    RepublishScript.category_list script_platform
      ("MediaSpace>site>channels>" +:+ channel_name) s1
    = (Ok cat_objs, s2) /\
    default [] cat_objs = first :: rest /\
    "42" = pretty (RepublishScript.category_id first).
Proof.
  intros env w.
  destruct (preparation_checks_the_inputs _ script_platform Examples.py_int
              env w ["1_abc"; "1_def"] "42"
              (snd (RepublishScript.prepare script_platform Examples.py_int
                      env w)))
    as (_ & _ & _ & _ & Hclean & Hcategory).
  - vm_compute. reflexivity.
  - split; [exact Hclean |].
    change (RepublishScript.USE_CATEGORY_NAME env) with true in Hcategory.
    destruct Hcategory
      as (_ & partner_id & ks & s1 & channel_name & cat_objs & first & rest &
          s2 & _ & _ & Hchannel & Hlist & Hobjs & Hid).
    change (RepublishScript.truthy (RepublishScript.CHANNEL_NAME_ENV env))
      with false in Hchannel.
    destruct Hchannel as (a & rest' & Htyped & Hname).
    exists channel_name, cat_objs, first, rest, s1, s2.
    split; [| split; [exact Hlist | split; [exact Hobjs | exact Hid]]].
    rewrite Hname.
    assert (Ha : a = " 12345 ").
    { change ([" 12345 "] = a :: rest') in Htyped. congruence. }
    rewrite Ha. vm_compute. reflexivity.
Defined.

Lemma script_exits_before_the_loop_witness :
  let env : gmap string string := {[ "PARTNER_ID" := "123" ]} in
  let w : RepublishScript.world (list (string * string * Z)) :=
    RepublishScript.mkworld [("1_abc", "42", 2)] ["1_abc"; "42"] [] in
  1 = 1 /\
  exists evs,
    RepublishScript.trace
      (snd (RepublishScript.script script_platform Republish.platform
              Examples.py_int env w))
    = RepublishScript.trace w ++ evs /\
    forallb (fun ev => negb (is_looped ev)) evs = true.
Proof.
  intros env w.
  apply (script_exits_before_the_loop _ script_platform Republish.platform
           Examples.py_int env w 1
           (snd (RepublishScript.script script_platform Republish.platform
                   Examples.py_int env w))).
  vm_compute. reflexivity.
Defined.

(** * The Downloader's [main] *)

Section Main.
Import Text DownloaderScript.
Context {S D : Type} (api : Downloader.remote S)
        (fs : Downloader.filesystem D).
Context (session_start : string -> string -> S -> result string * S).
Context (urlparse_path : string -> result string).

(** The two tables agree: what the menu maps a choice to is a method that
    [get_entries] knows, with the filter of the choice. *)
Lemma method_mapping_filter method_choice identifier :
  match method_mapping method_choice with
  | Some method =>
      method_filter method identifier
      = choice_filter method_choice identifier /\
      choice_filter method_choice identifier <> None
  | None => choice_filter method_choice identifier = None
  end.
Proof.
  unfold method_mapping, choice_filter.
  destruct (String.eqb method_choice "1"); [split; [reflexivity | discriminate] |].
  destruct (String.eqb method_choice "2"); [split; [reflexivity | discriminate] |].
  destruct (String.eqb method_choice "3"); [split; [reflexivity | discriminate] |].
  destruct (String.eqb method_choice "4"); [split; [reflexivity | discriminate] |].
  reflexivity.
Qed.
End Main.

(** Property X24 (Downloader, [main] and [get_entries], lines 72-82 and
    255-284).  Whatever is typed and however [main] ends, the first thing
    that it has the functions of the Downloader do, if anything, is to ask
    the platform for page 1 of the listing, with the filter that the choice
    of the menu stands for and the identifier that was typed, both without
    the whitespace around them: main goes that far only for a choice among
    1, 2, 3 and 4 and an identifier that is not empty, and the method it
    passes on is one that [get_entries] knows. *)
Theorem main_lists_what_was_chosen :
  forall (S D : Type) (api : Downloader.remote S)
         (fs : Downloader.filesystem D) session_start urlparse_path
         fuel (w : DownloaderScript.world S D) o w',
    DownloaderScript.main api fs session_start urlparse_path fuel w
    = (o, w') ->
    exists evs,
      DownloaderScript.trace w' = DownloaderScript.trace w ++ evs /\
      match List.find is_ran evs with
      | None => True
      | Some first =>
          exists partner_id admin_secret method_choice identifier rest f,
            DownloaderScript.stdin w
            = partner_id :: admin_secret :: method_choice :: identifier
              :: rest /\
            Text.strip Text.is_space identifier <> "" /\
            choice_filter (Text.strip Text.is_space method_choice)
                          (Text.strip Text.is_space identifier) = Some f /\
            first = DownloaderScript.Ran
                      (Downloader.Called (Downloader.BaseEntryList f 1))
      end.
Proof.
  intros S D api fs session_start urlparse_path fuel w o w' H.
  unfold DownloaderScript.main in H.
  unfold bind, DownloaderScript.input, DownloaderScript.get_kaltura_client,
    DownloaderScript.print, DownloaderScript.log in H.
  cbn [DownloaderScript.server DownloaderScript.disk DownloaderScript.stdin
       DownloaderScript.trace] in H.
  destruct (DownloaderScript.stdin w) as [| p [| s [| c [| i rest]]]] eqn:Hin;
    cbn [DownloaderScript.server DownloaderScript.disk DownloaderScript.stdin
         DownloaderScript.trace] in H;
    try (injection H as <- <-; cbn [DownloaderScript.trace];
         rewrite <- ?app_assoc; eexists; split; [reflexivity | exact I]);
    destruct (session_start _ _ (DownloaderScript.server w)) as [[ks | e] s1];
    cbn [DownloaderScript.server DownloaderScript.disk DownloaderScript.stdin
         DownloaderScript.trace] in H;
    try (injection H as <- <-; cbn [DownloaderScript.trace];
         rewrite <- ?app_assoc; eexists; split; [reflexivity | exact I]).
  - (* no choice is typed *)
    destruct (DownloaderScript.method_mapping _);
      injection H as <- <-; cbn [DownloaderScript.trace];
      rewrite <- ?app_assoc; eexists; (split; [reflexivity | exact I]).
  - (* a choice and an identifier *)
    pose proof (method_mapping_filter (Text.strip Text.is_space c)
                  (Text.strip Text.is_space i)) as Htable.
    destruct (DownloaderScript.method_mapping (Text.strip Text.is_space c))
      as [method |];
      cbn [DownloaderScript.server DownloaderScript.disk
           DownloaderScript.stdin DownloaderScript.trace] in H;
      [| injection H as <- <-; cbn [DownloaderScript.trace];
         rewrite <- ?app_assoc; eexists; split; [reflexivity | exact I]].
    destruct Htable as [Hsame Hknown].
    destruct (RepublishScript.truthy (Text.strip Text.is_space i)) eqn:Hid;
      [| injection H as <- <-; cbn [DownloaderScript.trace];
         rewrite <- ?app_assoc; eexists; split; [reflexivity | exact I]].
    apply truthy_nonempty in Hid.
    destruct (choice_filter (Text.strip Text.is_space c)
                            (Text.strip Text.is_space i)) as [f |] eqn:Hf;
      [| congruence].
    unfold DownloaderScript.ran in H.
    cbn [DownloaderScript.server DownloaderScript.disk DownloaderScript.stdin
         DownloaderScript.trace] in H.
    destruct (Downloader.main_from_listing api fs urlparse_path fuel method _ _)
      as [o1 dw] eqn:Hrun.
    injection H as <- <-. cbn [DownloaderScript.trace].
    destruct fuel as [| fuel].
    + unfold Downloader.main_from_listing in Hrun.
      rewrite get_entries_unfold, Hsame in Hrun. cbn in Hrun.
      injection Hrun as <- <-. cbn [Downloader.trace map].
      rewrite <- ?app_assoc. eexists. split; [reflexivity | exact I].
    + destruct (main_from_listing_first_call api fs urlparse_path fuel method _ f
                  _ _ _ Hsame Hrun) as (evs & Ht).
      cbn [Downloader.trace app] in Ht. rewrite Ht. cbn [map].
      rewrite <- ?app_assoc. eexists. split; [reflexivity |].
      cbn. exists p, s, c, i, rest, f. repeat split; assumption.
Qed.

Lemma main_lists_what_was_chosen_witness :
  let w : DownloaderScript.world unit (gset string) :=
    DownloaderScript.mkworld tt ∅ ["123"; "secret"; " 2 "; " 77 "] [] in
  let finished :=
    DownloaderScript.main Examples.downloader_library Examples.plain_disk
      (fun _ _ s => (Ok "ks", s)) Examples.url_path 3 w in
  exists evs,
    DownloaderScript.trace (snd finished) = DownloaderScript.trace w ++ evs /\
    match List.find is_ran evs with
    | None => True
    | Some first =>
        exists partner_id admin_secret method_choice identifier rest f,
          DownloaderScript.stdin w
          = partner_id :: admin_secret :: method_choice :: identifier
            :: rest /\
          Text.strip Text.is_space identifier <> "" /\
          choice_filter (Text.strip Text.is_space method_choice)
                        (Text.strip Text.is_space identifier) = Some f /\
          first = DownloaderScript.Ran
                    (Downloader.Called (Downloader.BaseEntryList f 1))
    end.
Proof.
  intros w finished.
  apply (main_lists_what_was_chosen unit (gset string)
           Examples.downloader_library Examples.plain_disk
           (fun _ _ s => (Ok "ks", s)) Examples.url_path 3 w (fst finished)).
  apply surjective_pairing.
Defined.

(** * Where the Downloader writes *)

Section Paths.
Import Text Regex Downloader.

Lemma pretty_N_go_no_slash (x : N) :
  forall s, count_char "/" (pretty_N_go x s) = count_char "/" s.
Proof.
  induction (N.lt_wf_0 x) as [x _ IH]; intros s.
  destruct (N.eq_dec x 0) as [-> | Hx]; [reflexivity |].
  rewrite pretty_N_go_step by lia.
  rewrite IH by (apply N.div_lt; lia).
  cbn [count_char].
  replace (Ascii.eqb (pretty_N_char (x `mod` 10)) "/") with false;
    [reflexivity |].
  unfold pretty_N_char. repeat case_match; reflexivity.
Qed.

Lemma pretty_Z_no_slash (n : Z) : count_char "/" (pretty n) = 0%nat.
Proof.
  destruct n as [| p | p]; [reflexivity | |].
  - change (pretty (Z.pos p)) with (pretty_N_go (N.pos p) "").
    apply pretty_N_go_no_slash.
  - change (pretty (Z.neg p)) with ("-" +:+ pretty_N_go (N.pos p) "").
    rewrite count_char_append, pretty_N_go_no_slash. reflexivity.
Qed.

Lemma basename_no_slash p : count_char "/" (basename p) = 0%nat.
Proof.
  unfold basename. induction p as [| x p IH]; [reflexivity |].
  pose proof (rfind_lower "/" p) as Hlow.
  cbn [rfind]. destruct (Z.leb_spec 0 (rfind "/" p)) as [Hr | Hr].
  - replace (Z.to_nat (rfind "/" p + 1 + 1))
      with (Datatypes.S (Z.to_nat (rfind "/" p + 1))) by lia.
    exact IH.
  - replace (rfind "/" p) with (-1) in IH by lia.
    change (drop (Z.to_nat (-1 + 1)) p) with p in IH.
    destruct (Ascii.eqb x "/") eqn:E.
    + exact IH.
    + change (drop (Z.to_nat (-1 + 1)) (String x p)) with (String x p).
      cbn [count_char]. rewrite E, IH. reflexivity.
Qed.

Lemma sub_from_count x p s :
  forall skip,
    (count_char x (sub_from p "" s skip) <= count_char x s)%nat.
Proof.
  induction s as [| c s IH]; intros skip.
  - destruct skip; cbn [sub_from]; [| cbn; lia].
    destruct (match_here p "") as [[| n] |]; rewrite ?append_empty_l;
      cbn; lia.
  - destruct skip as [| k]; cbn [sub_from].
    + destruct (match_here p (String c s)) as [[| n] |];
        rewrite ?append_empty_l; cbn [count_char];
        [specialize (IH 0%nat) | specialize (IH n) | specialize (IH 0%nat)];
        lia.
    + specialize (IH k). cbn [count_char]. lia.
Qed.

Lemma cleanup_count x filename :
  (count_char x (cleanup filename) <= count_char x filename)%nat.
Proof.
  unfold cleanup. cbn [REMOVE_SUFFIX].
  destruct (splitext filename) as [base ext] eqn:Hsplit.
  rewrite <- (splitext_append _ _ _ Hsplit).
  rewrite !count_char_append.
  unfold trailing_separators. rewrite sub_plus_end by reflexivity.
  pose proof (count_char_rstrip x separator (sub source_marker "" base)).
  pose proof (sub_from_count x source_marker base 0). unfold sub in *. lia.
Qed.

Lemma free_name_count {D : Type} (fs : filesystem D) fuel (d : D) :
  forall filename counter name,
    free_name fs fuel d filename counter = Some name ->
    count_char "/" filename = 0%nat -> count_char "/" name = 0%nat.
Proof.
  induction fuel as [| fuel IH]; intros filename counter name H Hc;
    [discriminate |].
  cbn [free_name] in H.
  destruct (os_path_exists fs (join DOWNLOAD_FOLDER filename) d).
  - destruct (splitext filename) as [base ext] eqn:Hsplit.
    eapply IH; [exact H |].
    rewrite <- (splitext_append _ _ _ Hsplit), count_char_append in Hc.
    rewrite !count_char_append. unfold str_of_int.
    rewrite pretty_Z_no_slash. cbn [count_char Ascii.eqb]. cbn. lia.
  - injection H as <-. exact Hc.
Qed.

Lemma no_slash_join name :
  count_char "/" name = 0%nat ->
  join DOWNLOAD_FOLDER name = "kaltura_downloads/" +:+ name.
Proof.
  intros Hc. rewrite join_download_folder.
  destruct name as [| c name]; [reflexivity |].
  cbn [startswith]. cbn [count_char] in Hc.
  destruct (Ascii.eqb c "/"); [discriminate | reflexivity].
Qed.
End Paths.

(** Property X25 (Downloader, [get_file_name] and [download_file], lines
    147-192).  When the answer to the HEAD request gives no file name (no
    [Content-Disposition] header, a header without a name, or a request that
    failed with a [RequestException]), the name that [get_file_name] returns
    is made from the last segment of the URL path and holds no slash, so the
    file is written directly inside the download folder. *)
Theorem url_names_stay_in_the_folder :
  forall (S D : Type) (api : Downloader.remote S)
         (fs : Downloader.filesystem D) urlparse_path fuel url counter
         (w : Downloader.world S D) name w',
    match fst (Downloader.requests_head api url (Downloader.server w)) with
    | Ok (Some content_disp) =>
        Downloader.truthy (Downloader.header_filename content_disp) = false
    | _ => True
    end ->
    Downloader.get_file_name api fs urlparse_path fuel url counter w
    = (Return name, w') ->
    (exists path,
        urlparse_path url = Ok path /\
        Downloader.free_name fs fuel (Downloader.disk w)
          (Downloader.cleanup (Text.basename path)) counter
        = Some name) /\
    count_char "/" name = 0%nat /\
    Text.join Downloader.DOWNLOAD_FOLDER name = "kaltura_downloads/" +:+ name.
Proof.
  intros S D api fs urlparse_path fuel url counter w name w' Hhead H.
  apply get_file_name_returns in H.
  destruct H as (_ & filename & Hfree & Hfrom). cbn zeta in Hfrom.
  assert (Hurl : exists path,
             urlparse_path url = Ok path /\ filename = Text.basename path).
  { destruct (fst (Downloader.requests_head api url (Downloader.server w)))
      as [[content_disp |] | e]; try exact Hfrom.
    rewrite Hhead in Hfrom. exact Hfrom. }
  destruct Hurl as (path & Hpath & ->).
  split; [exists path; split; assumption |].
  assert (Hc : count_char "/" name = 0%nat).
  { eapply free_name_count; [exact Hfree |].
    pose proof (cleanup_count "/" (Text.basename path)).
    rewrite basename_no_slash in *. lia. }
  split; [exact Hc | apply no_slash_join; exact Hc].
Qed.

Lemma url_names_stay_in_the_folder_witness :
  let w : Downloader.world unit (gset string) :=
    Downloader.mkworld tt Examples.two_videos [] in
  let url := "https://cdn.example/p/1/flavorId/1_f1/video.mp4" in
  (exists path,
      Examples.url_path url = Ok path /\
      Downloader.free_name Examples.plain_disk 4 Examples.two_videos
        (Downloader.cleanup (Text.basename path)) 0
      = Some "video_1_2.mp4") /\
  count_char "/" "video_1_2.mp4" = 0%nat /\
  Text.join Downloader.DOWNLOAD_FOLDER "video_1_2.mp4"
  = "kaltura_downloads/" +:+ "video_1_2.mp4".
Proof.
  intros w url.
  apply (url_names_stay_in_the_folder unit (gset string)
           Examples.downloader_library Examples.plain_disk
           Examples.url_path 4 url 0 w "video_1_2.mp4"
           (snd (Downloader.get_file_name Examples.downloader_library
                   Examples.plain_disk Examples.url_path 4 url 0 w))).
  - exact I.
  - vm_compute. reflexivity.
Defined.
